(** * GitHub metrics ingestion pipeline: a shallow embedding

    The development follows the Python sources

    - [app/services/github_service.py]   (URL parsing, paginated fetchers, metrics)
    - [app/pipeline/helper.py]           (organization list normalisation)
    - [app/pipeline/fetch_merge_dates.py] (merge-date extraction and storage)
    - [app/pipeline/update_github_metrics.py] (metrics updater)
    - [app/pipeline/github_api.py]       (organization data for the updater)
    - [app/data/gsoc_loyalty.py]         (loyalty scores)
    - [app/visualization/generate_organization_merge_graphs.py] (file names)

    Part I embeds the code, Part II states and proves its properties,
    Part III proves further properties of the same code: what the fetchers
    return on whole runs of responses, what a run writes to the tables, and
    the functions of the last three files.

    Modelling conventions.
    - Python [str] is [string]; case conversion and whitespace are the ASCII
      ones (non-ASCII characters are left alone by [lower]).
    - [None] is [option]'s [None]; Python truthiness of an optional string is
      [truthy].
    - The network is a script of responses, consumed one per request; a
      fetcher applied to a script that ends while it still wants to issue a
      request yields [None] (it has not returned yet).
    - Exceptions are explicit: a computation yields [Ret v] or [Raise e].
    - Library functions that are not part of the repository ([urlparse],
      [datetime.fromisoformat]) are section variables.  [fromisoformat]
      may fail ([None] for its [ValueError], which the code catches).
      [urlparse] is taken on the URLs it parses: the [ValueError] it raises
      on a malformed host is not caught anywhere in
      [get_organization_list] or [update_github_data] and has no
      counterpart here, so what is proved of these two is proved for
      tables whose URLs parse. *)

From Stdlib Require Import ZArith QArith Lia Bool Ascii String DecimalString.
From stdpp Require Import base list strings gmap sets.

Local Open Scope string_scope.
Local Open Scope list_scope.
Local Open Scope Z_scope.

#[local] Set Warnings "-clear-no-such-hyp".

(* ===================================================================== *)
(** * Part I: the embedding                                               *)
(* ===================================================================== *)

(** ** Python string operations used by the sources *)
Module PyStr.

Definition is_upper (c : ascii) : bool :=
  let n := nat_of_ascii c in (65 <=? n)%nat && (n <=? 90)%nat.

Definition lower_ascii (c : ascii) : ascii :=
  if is_upper c then ascii_of_nat (nat_of_ascii c + 32) else c.

(** [s.lower()] *)
Fixpoint lower (s : string) : string :=
  match s with
  | EmptyString => EmptyString
  | String c s' => String (lower_ascii c) (lower s')
  end.

(** [s.lstrip(c)] for a one-character argument *)
Fixpoint lstrip (c : ascii) (s : string) : string :=
  match s with
  | EmptyString => EmptyString
  | String a s' => if Ascii.eqb a c then lstrip c s' else s
  end.

(** [s.rstrip(c)] for a one-character argument *)
Fixpoint rstrip (c : ascii) (s : string) : string :=
  match s with
  | EmptyString => EmptyString
  | String a s' =>
      match rstrip c s' with
      | EmptyString => if Ascii.eqb a c then EmptyString else String a EmptyString
      | r => String a r
      end
  end.

(** [s.strip(c)] *)
Definition strip (c : ascii) (s : string) : string := rstrip c (lstrip c s).

(** the ASCII characters for which [str.isspace] holds *)
Definition is_space (c : ascii) : bool :=
  let n := nat_of_ascii c in
  ((9 <=? n)%nat && (n <=? 13)%nat) || ((28 <=? n)%nat && (n <=? 32)%nat).

Fixpoint lstrip_ws (s : string) : string :=
  match s with
  | EmptyString => EmptyString
  | String a s' => if is_space a then lstrip_ws s' else s
  end.

Fixpoint rstrip_ws (s : string) : string :=
  match s with
  | EmptyString => EmptyString
  | String a s' =>
      match rstrip_ws s' with
      | EmptyString => if is_space a then EmptyString else String a EmptyString
      | r => String a r
      end
  end.

(** [s.strip()] *)
Definition strip_ws (s : string) : string := rstrip_ws (lstrip_ws s).

(** [s.split(c)]: never empty, [""] splits into [[""]] *)
Fixpoint split (c : ascii) (s : string) : list string :=
  match s with
  | EmptyString => [EmptyString]
  | String a s' =>
      if Ascii.eqb a c then EmptyString :: split c s'
      else match split c s' with
           | [] => [String a EmptyString]
           | h :: t => String a h :: t
           end
  end.

(** [s.replace(c, new)] for a one-character pattern *)
Fixpoint replace (c : ascii) (new : string) (s : string) : string :=
  match s with
  | EmptyString => EmptyString
  | String a s' =>
      if Ascii.eqb a c then new +:+ replace c new s'
      else String a (replace c new s')
  end.

(** [s.endswith(suf)] *)
Fixpoint endswith (s suf : string) : bool :=
  String.eqb s suf
  || match s with
     | EmptyString => false
     | String _ s' => endswith s' suf
     end.

(** [needle in s] *)
Fixpoint contains (needle s : string) : bool :=
  String.prefix needle s
  || match s with
     | EmptyString => false
     | String _ s' => contains needle s'
     end.

(** [s[:-n]] *)
Definition drop_last (n : nat) (s : string) : string :=
  String.substring 0 (String.length s - n) s.

(** truthiness of a string and of an optional string *)
Definition nonempty (s : string) : bool := negb (String.eqb s "").

Definition truthy (o : option string) : bool :=
  match o with
  | Some s => nonempty s
  | None => false
  end.

(** [l[-1]] on a non-empty list *)
Definition last_item (l : list string) : option string := last l.

End PyStr.

(** ** [app/services/github_service.py]: [extract_org_name_from_url] *)
Module GithubUrl.
Import PyStr.

(** The two fields of [urllib.parse.urlparse]'s result that the code reads. *)
Record parsed_url := { netloc : string; path : string }.

Section WithUrlparse.
(** [urllib.parse.urlparse] where it returns; its [ValueError] on a
    malformed host is not modelled. *)
Variable urlparse : string -> parsed_url.

(** [[part for part in parsed.path.strip("/").split("/") if part]] *)
Definition path_parts (p : string) : list string :=
  filter (fun part => Is_true (nonempty part)) (split "/" (strip "/" p)).

Definition extract_org_name_from_url (url : option string) : option string :=
  match url with
  | None => None
  | Some u =>
      if negb (nonempty u) then None
      else
        let parsed := urlparse u in
        let parts := path_parts (path parsed) in
        match parts with
        | [] => None
        | p0 :: rest =>
            let host := lower (netloc parsed) in
            if negb (contains "github.com" host) then last_item parts
            else if String.eqb (lower p0) "orgs" && (2 <=? length parts)%nat
                 then match rest with
                      | p1 :: _ => Some p1
                      | [] => Some p0
                      end
                 else Some p0
        end
  end.
End WithUrlparse.

End GithubUrl.

(** ** Sorting as the sources use it *)
Module PySort.
Section ByKey.
Context {A : Type} (key : A -> Z).

(** [ORDER BY key]: ascending, rows with equal keys keep their order *)
Fixpoint insert_asc (x : A) (l : list A) : list A :=
  match l with
  | [] => [x]
  | y :: l' => if key x <=? key y then x :: l else y :: insert_asc x l'
  end.

Definition sort_asc (l : list A) : list A := foldr insert_asc [] l.

(** [sorted(l, key=key, reverse=True)]: descending and stable *)
Fixpoint insert_desc (x : A) (l : list A) : list A :=
  match l with
  | [] => [x]
  | y :: l' => if key y <=? key x then x :: l else y :: insert_desc x l'
  end.

Definition sorted_reverse (l : list A) : list A := foldr insert_desc [] l.
End ByKey.
End PySort.

(** ** [app/pipeline/helper.py]: [get_organization_list] *)
Module Helper.
Import PyStr GithubUrl.

(** A row of [gsoc_organizations], restricted to the queried columns. *)
Record gsoc_row := {
  row_id : Z;
  row_name : option string;
  row_github_url : option string;
  row_slug : option string
}.

(** The dictionaries appended to [normalized_orgs]. *)
Record org := { id : Z; display_name : string; github_slug : string }.

(** Lines 43-45: the post-processing of a derived identifier. *)
Definition normalize_slug (s : string) : string :=
  let s := lower (replace " " "-" (lstrip "@" s)) in
  if endswith s ".git" then drop_last 4 s else s.

(** [a or b] on optional strings *)
Definition py_or (a b : option string) : option string :=
  if truthy a then a else b.

(** The loop state: the list built so far, the skip counter, [seen_slugs]. *)
Record acc := {
  normalized_orgs : list org;
  skipped_without_identifier : nat;
  seen_slugs : gset string
}.

Section WithUrlparse.
Variable urlparse : string -> parsed_url.

(** The query of lines 13-25 on the table contents. *)
Definition query_orgs (start_from_id : option Z) (table : list gsoc_row)
  : list gsoc_row :=
  let rows :=
    match start_from_id with
    | Some k => filter (fun r => k ≤ row_id r) table
    | None => table
    end in
  PySort.sort_asc row_id rows.

(** The identifier before post-processing (lines 35-40). *)
Definition raw_slug (r : gsoc_row) : option string :=
  let github_slug :=
    if truthy (row_github_url r)
    then extract_org_name_from_url urlparse (row_github_url r)
    else None in
  if negb (truthy github_slug) && truthy (row_slug r)
  then match row_slug r with
       | Some slug =>
           let candidate := strip "/" (strip_ws slug) in
           last_item (split "/" candidate)
       | None => github_slug
       end
  else github_slug.

(** One iteration of the loop of lines 33-59. *)
Definition step (a : acc) (r : gsoc_row) : acc :=
  let display_name :=
    default "Unknown" (py_or (py_or (row_name r) (row_slug r)) (Some "Unknown")) in
  let github_slug := raw_slug r in
  let github_slug :=
    if truthy github_slug then normalize_slug <$> github_slug else github_slug in
  match github_slug with
  | Some s =>
      if negb (nonempty s)
      then {| normalized_orgs := normalized_orgs a;
              skipped_without_identifier := S (skipped_without_identifier a);
              seen_slugs := seen_slugs a |}
      else if bool_decide (s ∈ seen_slugs a) then a
      else {| normalized_orgs :=
                normalized_orgs a
                ++ [{| id := row_id r; display_name := display_name; github_slug := s |}];
              skipped_without_identifier := skipped_without_identifier a;
              seen_slugs := {[ s ]} ∪ seen_slugs a |}
  | None =>
      {| normalized_orgs := normalized_orgs a;
         skipped_without_identifier := S (skipped_without_identifier a);
         seen_slugs := seen_slugs a |}
  end.

Definition get_organization_list (start_from_id : option Z) (table : list gsoc_row)
  : list org :=
  let orgs := query_orgs start_from_id table in
  let a := foldl step
             {| normalized_orgs := []; skipped_without_identifier := 0;
                seen_slugs := ∅ |} orgs in
  match start_from_id with
  | Some k => filter (fun o => k ≤ id o) (normalized_orgs a)
  | None => normalized_orgs a
  end.
End WithUrlparse.

End Helper.

(** ** The network as the fetchers see it *)
Module Http.

(** What one [requests.get] call produces: a response, of which the code
    reads [status_code], [json()] and [links["next"]["url"]], or one of the
    two exception classes the callers catch. *)
Inductive outcome (Item : Type) :=
| Response (status_code : Z) (json : list Item) (next : option string)
| TimeoutExc
| RequestExc.
Arguments Response {Item}.
Arguments TimeoutExc {Item}.
Arguments RequestExc {Item}.

(** The effects a fetcher performs, in order. *)
Inductive event :=
| Get (url : string)
| Sleep (seconds : Z)
| Print (line : string).

(** A script: the outcomes of the successive requests. *)
Abbreviation script Item := (list (outcome Item)).

(** What a fetcher hands back: its return value, the part of the script it
    did not consume, and its effects. *)
Record run (Item R : Type) := Run {
  returned : R;
  remaining : script Item;
  effects : list event
}.
Arguments Run {Item R}.
Arguments returned {Item R}.
Arguments remaining {Item R}.
Arguments effects {Item R}.

Definition is_403 {Item} (o : outcome Item) : bool :=
  match o with
  | Response st _ _ => st =? 403
  | _ => false
  end.

(** The script with the rate-limit responses taken out. *)
Definition without_403 {Item} (s : script Item) : script Item :=
  filter (fun o => Is_true (negb (is_403 o))) s.

Definition is_get (e : event) : bool :=
  match e with
  | Get _ => true
  | _ => false
  end.

(** Number of requests issued. *)
Definition requests (tr : list event) : nat :=
  length (filter (fun e => Is_true (is_get e)) tr).

End Http.

(** ** [app/services/github_service.py]: the paginated fetchers *)
Module GithubService.
Import PyStr Http.

(** A repository object of the listing endpoint. *)
Record repo := {
  repo_name : string;
  owner_login : string;
  stargazers_count : option Z
}.

(** A pull-request object of the pulls endpoint. *)
Record pull := {
  number : option Z;
  title : option string;
  merged_at : option string
}.

(** The loop shared, word for word, by [fetch_org_repos] and
    [fetch_repo_pr_data]:
    [while url and page_count < max_pages: page_count += 1; ...].
    [on_exit] is what follows the loop. *)
Section Walk.
Context {Item : Type}.
Variable max_pages : nat.
Variable on_exit : list Item -> list Item.

Fixpoint walk (s : script Item) (url : option string) (page_count : nat)
    (items : list Item) (tr : list event) : option (run Item (list Item)) :=
  match url with
  | Some u =>
      if nonempty u && (page_count <? max_pages)%nat then
        match s with
        | [] => None
        | o :: s' =>
            let page_count := S page_count in
            let tr := tr ++ [Get u] in
            match o with
            | Response status_code data next =>
                if status_code =? 403 then
                  walk s' url page_count items (tr ++ [Sleep 60])
                else if status_code =? 404 then Some (Run [] s' tr)
                else if negb (status_code =? 200) then Some (Run [] s' tr)
                else walk s' next page_count (items ++ data) (tr ++ [Sleep 1])
            | TimeoutExc => Some (Run (on_exit items) s' tr)
            | RequestExc => Some (Run (on_exit items) s' tr)
            end
        end
      else Some (Run (on_exit items) s tr)
  | None => Some (Run (on_exit items) s tr)
  end.
End Walk.

Definition stars (r : repo) : Z := default 0 (stargazers_count r).

Definition repos_url (org_name : string) : string :=
  "https://api.github.com/orgs/" +:+ org_name +:+ "/repos?per_page=100&type=public".

Definition fetch_org_repos (org_name : string) (s : script repo)
  : option (run repo (list repo)) :=
  walk 10 (fun repos => take 5 (PySort.sorted_reverse stars repos))
       s (Some (repos_url org_name)) 0 [] [].

Definition pulls_url (org_name repo_name : string) : string :=
  "https://api.github.com/repos/" +:+ org_name +:+ "/" +:+ repo_name
  +:+ "/pulls?state=all&per_page=100".

Definition fetch_repo_pr_data (org_name repo_name : string) (s : script pull)
  : option (run pull (list pull)) :=
  walk 20 (fun prs => prs) s (Some (pulls_url org_name repo_name)) 0 [] [].

(** The dictionary returned by [calculate_metrics]. *)
Record metrics := {
  total_prs : Z;
  merged_prs : Z;
  merge_frequency : Q
}.

(** [sum(1 for pr in prs if pr.get("merged_at"))] *)
Definition count_merged (prs : list pull) : Z :=
  Z.of_nat (length (filter (fun pr => Is_true (truthy (merged_at pr))) prs)).

(** [round(x, 3)], on the exact quotient: to the nearest thousandth, ties
    to the even one.  This is a stand-in.  The code divides and rounds in
    binary floating point and returns a double, which is not a thousandth
    and can differ from the value here in the last digit (for 1/80 the
    code gives 0.013, this gives 12/1000).  Only what holds of both is
    drawn from it: the result lies between 0 and 1 when the quotient
    does. *)
Definition round3 (x : Q) : Q :=
  let n := Qnum x * 1000 in
  let d := Zpos (Qden x) in
  let q := n / d in
  let r := n mod d in
  let k := if 2 * r <? d then q
           else if d <? 2 * r then q + 1
           else if Z.even q then q else q + 1 in
  Qmake k 1000.

(** The [for repo in repos] loop of lines 129-135. *)
Fixpoint metrics_loop (repos : list repo) (s : script pull)
    (total_prs merged_prs : Z) (tr : list event)
  : option (run pull (Z * Z)) :=
  match repos with
  | [] => Some (Run (total_prs, merged_prs) s tr)
  | repo :: repos' =>
      match fetch_repo_pr_data (owner_login repo) (repo_name repo) s with
      | None => None
      | Some r =>
          let prs := returned r in
          metrics_loop repos' (remaining r)
            (total_prs + Z.of_nat (length prs))
            (merged_prs + count_merged prs)
            (tr ++ effects r)
      end
  end.

Definition calculate_metrics (repos : list repo) (s : script pull)
  : option (run pull metrics) :=
  match metrics_loop repos s 0 0 [] with
  | None => None
  | Some r =>
      let '(total_prs, merged_prs) := returned r in
      let merge_frequency :=
        if 0 <? total_prs then Qmake merged_prs (Z.to_pos total_prs) else 0%Q in
      Some (Run {| total_prs := total_prs;
                   merged_prs := merged_prs;
                   merge_frequency := round3 merge_frequency |}
                (remaining r) (effects r))
  end.

End GithubService.

(** ** [datetime] values and Python exceptions *)
Module Py.

(** A [datetime]: calendar day (days since the epoch), time of day in
    microseconds, and the UTC offset in microseconds when it is aware. *)
Record datetime := {
  dt_day : Z;
  dt_time : Z;
  tzinfo : option Z
}.

Definition day_us : Z := 86400000000.

(** The instant an aware datetime denotes. *)
Definition instant (d : datetime) : Z :=
  dt_day d * day_us + dt_time d - default 0 (tzinfo d).

(** [d.replace(tzinfo=timezone.utc) if d.tzinfo is None else d] *)
Definition ensure_aware (d : datetime) : datetime :=
  match tzinfo d with
  | None => {| dt_day := dt_day d; dt_time := dt_time d; tzinfo := Some 0 |}
  | Some _ => d
  end.

(** [d - timedelta(days=n)] *)
Definition minus_days (d : datetime) (n : Z) : datetime :=
  {| dt_day := dt_day d - n; dt_time := dt_time d; tzinfo := tzinfo d |}.

(** [d.date()] *)
Definition date (d : datetime) : Z := dt_day d.

(** The exception classes the sources distinguish; every one of them is a
    subclass of [Exception]. *)
Inductive exn :=
| OperationalError
| FuturesTimeoutError
| OtherException.

Inductive result (A : Type) :=
| Ret (a : A)
| Raise (e : exn).
Arguments Ret {A}.
Arguments Raise {A}.

(** [str(n)] for a page number *)
Definition str_of_nat (n : nat) : string :=
  NilEmpty.string_of_uint (Nat.to_uint n).

(** [str(n)] for an integer *)
Definition str_of_Z (n : Z) : string :=
  match n with
  | Z0 => "0"
  | Zpos p => str_of_nat (Pos.to_nat p)
  | Zneg p => "-" +:+ str_of_nat (Pos.to_nat p)
  end.

End Py.

(** ** [app/models]: the rows of the three tables written by the pipeline *)
Module Models.
Import Py.

(** [merge_dates]; the surrogate [id] column is the position in the table. *)
Record MergeDate := {
  organization_slug : string;
  organization_name : string;
  merge_date : Z;
  merged_at : datetime;
  repository_name : string;
  pull_request_number : option Z;
  created_at : datetime
}.

(** The columns compared by the duplicate check. *)
Definition natural_key : Type := string * Z * option Z * string.

Definition key_of (m : MergeDate) : natural_key :=
  (organization_slug m, merge_date m, pull_request_number m, repository_name m).

Definition keys (table : list MergeDate) : gset natural_key :=
  list_to_set (key_of <$> table).

(** [github_metrics] *)
Record GitHubMetrics := {
  gm_id : Z;
  gm_name : string;
  gm_slug : string;
  github_followers : option Z;
  github_repos : option Z;
  github_bio : option string;
  fetched_at : option datetime;
  pull_requests : option Z;
  gm_merged_prs : option Z;
  gm_merge_frequency : option Q
}.

(** [historical_metrics] *)
Record HistoricalMetrics := {
  hm_organization_slug : string;
  hm_organization_name : string;
  hm_merge_frequency : Q;
  hm_total_prs : Z;
  hm_merged_prs : Z;
  recorded_at : datetime
}.

End Models.

(** ** [app/pipeline/fetch_merge_dates.py] *)
Module FetchMergeDates.
Import PyStr Http Py Models.

(** The dictionaries appended to [merged_prs]. *)
Record merged_pr := {
  pr_merged_at : datetime;
  pr_number : option Z;
  pr_title : option string;
  pr_repo : string
}.

Definition max_pages : nat := 10.

Definition updated_pulls_url (org_name repo_name : string) : string :=
  "https://api.github.com/repos/" +:+ org_name +:+ "/" +:+ repo_name
  +:+ "/pulls?state=all&per_page=100&sort=updated".

Definition page_url (url : string) (page : nat) : string :=
  url +:+ "&page=" +:+ str_of_nat page.

Section WithParser.
(** [datetime.fromisoformat]; [None] stands for the [ValueError]. *)
Variable fromisoformat : string -> option datetime.

(** The [for pr in prs] loop of lines 63-89.  The boolean tells whether
    the loop left through [return merged_prs] (line 86). *)
Fixpoint scan_page (cutoff_date : datetime) (repo_name : string)
    (prs : list GithubService.pull) (merged_prs : list merged_pr)
  : list merged_pr * bool :=
  match prs with
  | [] => (merged_prs, false)
  | pr :: prs' =>
      match GithubService.merged_at pr with
      | Some s =>
          if nonempty s then
            match fromisoformat (replace "Z" "+00:00" s) with
            | Some merged_at =>
                let merged_at := ensure_aware merged_at in
                let cutoff_aware := ensure_aware cutoff_date in
                if instant cutoff_aware <=? instant merged_at then
                  scan_page cutoff_date repo_name prs'
                    (merged_prs
                     ++ [{| pr_merged_at := merged_at;
                            pr_number := GithubService.number pr;
                            pr_title := GithubService.title pr;
                            pr_repo := repo_name |}])
                else (merged_prs, true)
            | None => scan_page cutoff_date repo_name prs' merged_prs
            end
          else scan_page cutoff_date repo_name prs' merged_prs
      | None => scan_page cutoff_date repo_name prs' merged_prs
      end
  end.

(** The [while page <= max_pages] loop of lines 39-103. *)
Fixpoint pages_loop (cutoff_date : datetime) (url repo_name : string)
    (s : script GithubService.pull) (page : nat)
    (merged_prs : list merged_pr) (tr : list event)
  : option (run GithubService.pull (list merged_pr)) :=
  if (page <=? max_pages)%nat then
    match s with
    | [] => None
    | o :: s' =>
        let tr := tr ++ [Get (page_url url page)] in
        match o with
        | Response status_code prs next =>
            if status_code =? 403 then
              pages_loop cutoff_date url repo_name s' page merged_prs
                (tr ++ [Sleep 60])
            else if status_code =? 404 then Some (Run [] s' tr)
            else if negb (status_code =? 200) then Some (Run [] s' tr)
            else
              match prs with
              | [] => Some (Run merged_prs s' tr)
              | _ =>
                  let '(merged_prs, stop) :=
                    scan_page cutoff_date repo_name prs merged_prs in
                  if stop then Some (Run merged_prs s' tr)
                  else match next with
                       | None => Some (Run merged_prs s' tr)
                       | Some _ =>
                           pages_loop cutoff_date url repo_name s' (S page)
                             merged_prs (tr ++ [Sleep 1])
                       end
              end
        | TimeoutExc => Some (Run merged_prs s' tr)
        | RequestExc => Some (Run merged_prs s' tr)
        end
    end
  else Some (Run merged_prs s tr).

(** [utcnow] is the reading of [datetime.utcnow()] at line 32. *)
Definition fetch_merged_prs_for_repo (utcnow : datetime)
    (org_name repo_name : string) (days : Z) (s : script GithubService.pull)
  : option (run GithubService.pull (list merged_pr)) :=
  let cutoff_date := minus_days utcnow days in
  pages_loop cutoff_date (updated_pulls_url org_name repo_name) repo_name s 1 [] [].

(** Storage faults of one session: the [i]-th lookup raises, the commit
    raises. *)
Record db_weather := {
  lookup_fault : nat -> option exn;
  commit_fault : option exn
}.

Definition fair : db_weather :=
  {| lookup_fault := fun _ => None; commit_fault := None |}.

(** Everything outside the interpreter that a run reads or writes: the
    responses still to come from the repository listing and from the pulls
    endpoint, the [merge_dates] table, the faults of the sessions still to be
    opened (none once the list is used up), and the effects so far.  The
    clock is read once per run ([utcnow]); later readings only differ in
    [created_at]. *)
Record world := {
  repo_net : script GithubService.repo;
  pull_net : script GithubService.pull;
  merge_dates : list MergeDate;
  weather : list db_weather;
  trace : list event
}.

(** The [for repo in repos] loop of lines 130-142.  The [try] around the
    call never fires: [fetch_merged_prs_for_repo] catches every exception
    itself. *)
Fixpoint fetch_repos_prs (utcnow : datetime) (org_slug : string) (days : Z)
    (repos : list GithubService.repo) (s : script GithubService.pull)
    (all_merged_prs : list merged_pr) (tr : list event)
  : option (run GithubService.pull (list merged_pr)) :=
  match repos with
  | [] => Some (Run all_merged_prs s tr)
  | repo :: repos' =>
      let repo_name := GithubService.repo_name repo in
      match fetch_merged_prs_for_repo utcnow org_slug repo_name days s with
      | None => None
      | Some r =>
          fetch_repos_prs utcnow org_slug days repos' (remaining r)
            (all_merged_prs ++ returned r) (tr ++ effects r ++ [Sleep 1])
      end
  end.

(** [session.query(MergeDate).filter(...).first()] as a truth value.  The
    session factory is built with [autoflush=False]: the query reads the
    table, not the objects added to the session and not yet flushed. *)
Definition existing (table : list MergeDate) (k : natural_key) : bool :=
  existsb (fun m => bool_decide (key_of m = k)) table.

(** The [for pr in all_merged_prs] loop of lines 153-175; [pending] is the
    list of objects added to the session. *)
Fixpoint check_and_add (utcnow : datetime) (org_slug org_name : string)
    (wth : db_weather) (table : list MergeDate) (prs : list merged_pr)
    (i : nat) (pending : list MergeDate) (count : Z)
  : result (list MergeDate * Z) :=
  match prs with
  | [] => Ret (pending, count)
  | pr :: prs' =>
      match lookup_fault wth i with
      | Some e => Raise e
      | None =>
          let merge_date := date (pr_merged_at pr) in
          if existing table (org_slug, merge_date, pr_number pr, pr_repo pr)
          then check_and_add utcnow org_slug org_name wth table prs' (S i)
                 pending count
          else
            let merge_date_entry :=
              {| organization_slug := org_slug;
                 organization_name := org_name;
                 merge_date := merge_date;
                 merged_at := pr_merged_at pr;
                 repository_name := pr_repo pr;
                 pull_request_number := pr_number pr;
                 created_at := utcnow |} in
            check_and_add utcnow org_slug org_name wth table prs' (S i)
              (pending ++ [merge_date_entry]) (count + 1)
      end
  end.

(** Lines 151-193: the session.  Returns the function's result and the
    table afterwards. *)
Definition store_merge_dates (utcnow : datetime) (org_slug org_name : string)
    (wth : db_weather) (table : list MergeDate) (all_merged_prs : list merged_pr)
  : result Z * list MergeDate :=
  match check_and_add utcnow org_slug org_name wth table all_merged_prs 0 [] 0 with
  | Raise e => (Raise e, table)
  | Ret (pending, count) =>
      if 0 <? count then
        match commit_fault wth with
        | None => (Ret count, table ++ pending)
        | Some _ => (Ret 0, table)
        end
      else (Ret count, table)
  end.

Definition fetching_line (org_slug org_name : string) : string :=
  "  Fetching merge dates for " +:+ org_name +:+ " (" +:+ org_slug +:+ ")...".

Definition fetch_merge_dates_for_organization (utcnow : datetime)
    (org_slug org_name : string) (days : Z) (w : world)
  : option (result Z * world) :=
  let tr := trace w ++ [Print (fetching_line org_slug org_name)] in
  match GithubService.fetch_org_repos org_slug (repo_net w) with
  | None => None
  | Some rr =>
      let tr := tr ++ effects rr in
      let w1 := {| repo_net := remaining rr; pull_net := pull_net w;
                   merge_dates := merge_dates w; weather := weather w;
                   trace := tr |} in
      match returned rr with
      | [] => Some (Ret 0, w1)
      | _ =>
          let repos := take 5 (returned rr) in
          match fetch_repos_prs utcnow org_slug days repos (pull_net w) [] tr with
          | None => None
          | Some pr =>
              let w2 := {| repo_net := remaining rr; pull_net := remaining pr;
                           merge_dates := merge_dates w; weather := weather w;
                           trace := effects pr |} in
              match returned pr with
              | [] => Some (Ret 0, w2)
              | all_merged_prs =>
                  let wth := default fair (head (weather w)) in
                  let '(res, table) :=
                    store_merge_dates utcnow org_slug org_name wth
                      (merge_dates w) all_merged_prs in
                  Some (res,
                        {| repo_net := remaining rr; pull_net := remaining pr;
                           merge_dates := table; weather := tail (weather w);
                           trace := effects pr |})
              end
          end
      end
  end.

(** The [for slug, name in orgs] loop of lines 222-229; [total_merges] is
    the count printed at the end. *)
Fixpoint merge_dates_loop (utcnow : datetime) (days : Z)
    (orgs : list (string * string)) (total_merges : Z) (w : world)
  : option (result Z * world) :=
  match orgs with
  | [] => Some (Ret total_merges, w)
  | (slug, name) :: orgs' =>
      match fetch_merge_dates_for_organization utcnow slug name days w with
      | None => None
      | Some (Ret count, w') =>
          merge_dates_loop utcnow days orgs' (total_merges + count) w'
      | Some (Raise _, w') =>
          merge_dates_loop utcnow days orgs' total_merges w'
      end
  end.

(** [github_metrics] is the content of the table read at lines 207-213. *)
Definition fetch_all_merge_dates (utcnow : datetime) (days : Z)
    (start_from_id : option Z) (github_metrics : list GitHubMetrics) (w : world)
  : option (result Z * world) :=
  let rows :=
    match start_from_id with
    | Some k =>
        if k =? 0 then github_metrics
        else filter (fun g => k ≤ gm_id g) github_metrics
    | None => github_metrics
    end in
  let orgs := (fun g => (gm_slug g, gm_name g)) <$> rows in
  merge_dates_loop utcnow days orgs 0 w.
End WithParser.

End FetchMergeDates.

(** ** Statements that may raise, over a state *)
Module Stmt.
Import Py.

Definition M (S A : Type) : Type := S -> result A * S.

Definition ret {S A} (a : A) : M S A := fun s => (Ret a, s).

Definition raise {S A} (e : exn) : M S A := fun s => (Raise e, s).

Definition bind {S A B} (m : M S A) (k : A -> M S B) : M S B :=
  fun s =>
    match m s with
    | (Ret a, s') => k a s'
    | (Raise e, s') => (Raise e, s')
    end.

(** [try: body except Exception as e: handler(e)]; what the body did to the
    state before raising stays done. *)
Definition try_except {S A} (body : M S A) (handler : exn -> M S A) : M S A :=
  fun s =>
    match body s with
    | (Ret a, s') => (Ret a, s')
    | (Raise e, s') => handler e s'
    end.

Definition get {S} : M S S := fun s => (Ret s, s).
Definition put {S} (s : S) : M S unit := fun _ => (Ret tt, s).

Module Notations.
Notation "x <- m ;; k" := (bind m (fun x => k))
  (at level 100, m at next level, right associativity).
Notation "m ;;; k" := (bind m (fun _ => k))
  (at level 100, right associativity).
End Notations.

End Stmt.

(** ** [app/pipeline/update_github_metrics.py] *)
Module UpdateGithubMetrics.
Import PyStr Http Py Models Stmt Stmt.Notations.

(** The dictionary returned by [fetch_github_org_data]. *)
Record org_data := {
  followers : option Z;
  public_repos : option Z;
  bio : option string;
  data_fetched_at : datetime;
  data_total_prs : Z;
  data_merged_prs : Z;
  data_merge_frequency : Q
}.

(** How [future.result(timeout=600)] ends for one organization. *)
Inductive fetch_outcome :=
| TimedOut
| Raised (e : exn)
| Returned (data : option org_data).

(** Where a storage fault hits one attempt, if anywhere. *)
Inductive attempt_fault :=
| NoFault
| QueryFault (e : exn)
| CommitFault (e : exn).

(** What the updater reads and writes: the two tables, the faults that meet
    the storage attempts still to be made (none once the list is used up),
    and the effects so far. *)
Record updater_world := {
  github_metrics : list GitHubMetrics;
  historical_metrics : list HistoricalMetrics;
  faults : list attempt_fault;
  journal : list event
}.

Definition emit (e : event) : M updater_world unit :=
  fun w => (Ret tt,
            {| github_metrics := github_metrics w;
               historical_metrics := historical_metrics w;
               faults := faults w;
               journal := journal w ++ [e] |}).

(** The fault of the attempt that starts now; none once the list is used up. *)
Definition next_fault : M updater_world attempt_fault :=
  fun w => (Ret (default NoFault (head (faults w))),
            {| github_metrics := github_metrics w;
               historical_metrics := historical_metrics w;
               faults := tail (faults w);
               journal := journal w |}).

Definition commit (gm : list GitHubMetrics) (hm : list HistoricalMetrics)
  : M updater_world unit :=
  fun w => (Ret tt,
            {| github_metrics := gm; historical_metrics := hm;
               faults := faults w; journal := journal w |}).

(** Lines 61-68: the assignments to the existing row. *)
Definition updated_row (display_name : string) (data : org_data)
    (row : GitHubMetrics) : GitHubMetrics :=
  {| gm_id := gm_id row;
     gm_name := display_name;
     gm_slug := gm_slug row;
     github_followers := followers data;
     github_repos := public_repos data;
     github_bio := bio data;
     fetched_at := Some (data_fetched_at data);
     pull_requests := Some (data_total_prs data);
     gm_merged_prs := Some (data_merged_prs data);
     gm_merge_frequency := Some (data_merge_frequency data) |}.

(** The key the table assigns to a new row. *)
Definition fresh_id (table : list GitHubMetrics) : Z :=
  1 + foldr Z.max 0 (gm_id <$> table).

(** Lines 71-81. *)
Definition new_entry (display_name github_slug : string) (data : org_data)
    (table : list GitHubMetrics) : GitHubMetrics :=
  {| gm_id := fresh_id table;
     gm_name := display_name;
     gm_slug := github_slug;
     github_followers := followers data;
     github_repos := public_repos data;
     github_bio := bio data;
     fetched_at := Some (data_fetched_at data);
     pull_requests := Some (data_total_prs data);
     gm_merged_prs := Some (data_merged_prs data);
     gm_merge_frequency := Some (data_merge_frequency data) |}.

(** Update the first row with this slug, if there is one. *)
Fixpoint update_first (github_slug display_name : string) (data : org_data)
    (table : list GitHubMetrics) : option (list GitHubMetrics) :=
  match table with
  | [] => None
  | row :: table' =>
      if String.eqb (gm_slug row) github_slug
      then Some (updated_row display_name data row :: table')
      else cons row <$> update_first github_slug display_name data table'
  end.

(** Lines 57-82: what the session holds for [github_metrics] at commit. *)
Definition upsert (github_slug display_name : string) (data : org_data)
    (table : list GitHubMetrics) : list GitHubMetrics :=
  match update_first github_slug display_name data table with
  | Some table' => table'
  | None => table ++ [new_entry display_name github_slug data table]
  end.

(** Lines 85-92. *)
Definition historical_entry (utcnow : datetime) (github_slug display_name : string)
    (data : org_data) : HistoricalMetrics :=
  {| hm_organization_slug := github_slug;
     hm_organization_name := display_name;
     hm_merge_frequency := data_merge_frequency data;
     hm_total_prs := data_total_prs data;
     hm_merged_prs := data_merged_prs data;
     recorded_at := utcnow |}.

(** The body of the [with SessionLocal() as session] block, lines 56-97.
    Nothing reaches the tables before [session.commit()]. *)
Definition session_block (utcnow : datetime) (github_slug display_name : string)
    (data : org_data) : M updater_world unit :=
  fault <- next_fault ;;
  w <- get ;;
  match fault with
  | QueryFault e => raise e
  | _ =>
      let gm := upsert github_slug display_name data (github_metrics w) in
      let hm := historical_metrics w
                ++ [historical_entry utcnow github_slug display_name data] in
      match fault with
      | CommitFault e => raise e
      | _ => commit gm hm ;;; emit (Print ("Updated " +:+ display_name))
      end
  end.

(** How an iteration of the retry loop ends. *)
Inductive loop_exit := Break | Next.

(** The [for attempt in range(retries)] loop of lines 54-108. *)
Fixpoint retry_loop (utcnow : datetime) (github_slug display_name : string)
    (data : org_data) (retries : nat) (attempts : list nat) : M updater_world unit :=
  match attempts with
  | [] => ret tt
  | attempt :: attempts' =>
      exit <- try_except
                (session_block utcnow github_slug display_name data ;;; ret Break)
                (fun e =>
                   match e with
                   | OperationalError =>
                       emit (Sleep 5) ;;;
                       (if (attempt <? retries - 1)%nat
                        then emit (Print "Retrying...")
                        else emit (Print ("ERROR: Failed to update "
                                          +:+ display_name +:+ " after retries."))) ;;;
                       ret Next
                   | _ => ret Break
                   end) ;;
      match exit with
      | Break => ret tt
      | Next => retry_loop utcnow github_slug display_name data retries attempts'
      end
  end.

Section WithEnvironment.
Variable urlparse : string -> GithubUrl.parsed_url.
(** The outcome of the guarded call for each organization. *)
Variable future_result : string -> fetch_outcome.
Variable utcnow : datetime.

Definition fetch_with_timeout (github_slug : string) : M updater_world (option org_data) :=
  match future_result github_slug with
  | TimedOut => raise FuturesTimeoutError
  | Raised e => raise e
  | Returned data => ret data
  end.

(** The body of the [for org in orgs] loop, lines 29-108. *)
Definition process_org (org : Helper.org) : M updater_world unit :=
  let display_name := Helper.display_name org in
  let github_slug := Helper.github_slug org in
  emit (Print ("Processing [" +:+ str_of_Z (Helper.id org) +:+ "] " +:+ display_name
               +:+ " (" +:+ github_slug +:+ ")...")) ;;;
  fetched <- try_except (data <- fetch_with_timeout github_slug ;; ret (Some data))
                        (fun _ => ret None) ;;
  match fetched with
  | None => ret tt
  | Some None => ret tt
  | Some (Some data) =>
      let retries := 3%nat in
      retry_loop utcnow github_slug display_name data retries (seq 0 retries)
  end.

Fixpoint for_each_org (orgs : list Helper.org) : M updater_world unit :=
  match orgs with
  | [] => ret tt
  | org :: orgs' => process_org org ;;; for_each_org orgs'
  end.

(** [gsoc_organizations] is the content of the table read by
    [get_organization_list]. *)
Definition update_github_data (start_from_id : option Z)
    (gsoc_organizations : list Helper.gsoc_row) : M updater_world unit :=
  let orgs := Helper.get_organization_list urlparse start_from_id gsoc_organizations in
  let orgs :=
    match start_from_id with
    | Some k => if k =? 0 then orgs else filter (fun o => k ≤ Helper.id o) orgs
    | None => orgs
    end in
  for_each_org orgs ;;;
  emit (Print "All organizations processed.").
End WithEnvironment.

End UpdateGithubMetrics.

(** ** [app/pipeline/github_api.py]: [fetch_github_org_data] *)
Module GithubApi.
Import PyStr Http Py GithubService.

(** The entries of the organization object that the code reads. *)
Record profile := {
  profile_followers : option Z;
  profile_public_repos : option Z;
  profile_description : option string;
  profile_bio : option string
}.

(** What the request for the organization object produces. *)
Inductive profile_outcome :=
| ProfileResponse (status_code : Z) (json : profile)
| ProfileTimeout
| ProfileRequestExc.

(** The three endpoints the function talks to, and its effects. *)
Record api_world := {
  profile_net : list profile_outcome;
  listing_net : script repo;
  pulls_net : script pull;
  api_trace : list event
}.

(** The dictionary returned: its [slug] entry and the entries the updater
    reads. *)
Record org_dict := {
  slug : string;
  entries : UpdateGithubMetrics.org_data
}.

Definition org_url (org_name : string) : string :=
  "https://api.github.com/orgs/" +:+ org_name.

(** [None] when a script ends before the function has returned; otherwise
    its return value ([None] of the inner option is Python's [None]). *)
Definition fetch_github_org_data (utcnow : datetime) (org_name : string) (w : api_world)
  : option (option org_dict * api_world) :=
  match profile_net w with
  | [] => None
  | o :: profile_net' =>
      let tr := api_trace w ++ [Get (org_url org_name)] in
      let failed :=
        Some (None, {| profile_net := profile_net'; listing_net := listing_net w;
                       pulls_net := pulls_net w; api_trace := tr |}) in
      match o with
      | ProfileResponse status_code data =>
          if negb (status_code =? 200) then failed
          else
            match fetch_org_repos org_name (listing_net w) with
            | None => None
            | Some rr =>
                match calculate_metrics (returned rr) (pulls_net w) with
                | None => None
                | Some mr =>
                    let metrics := returned mr in
                    Some (Some {| slug := lower org_name;
                                  entries :=
                                    {| UpdateGithubMetrics.followers := profile_followers data;
                                       UpdateGithubMetrics.public_repos :=
                                         profile_public_repos data;
                                       UpdateGithubMetrics.bio :=
                                         Helper.py_or (profile_description data)
                                           (profile_bio data);
                                       UpdateGithubMetrics.data_fetched_at := utcnow;
                                       UpdateGithubMetrics.data_total_prs := total_prs metrics;
                                       UpdateGithubMetrics.data_merged_prs :=
                                         merged_prs metrics;
                                       UpdateGithubMetrics.data_merge_frequency :=
                                         merge_frequency metrics |} |},
                          {| profile_net := profile_net';
                             listing_net := remaining rr;
                             pulls_net := remaining mr;
                             api_trace := tr ++ effects rr ++ effects mr |})
                end
            end
      | ProfileTimeout => failed
      | ProfileRequestExc => failed
      end
  end.

End GithubApi.

(** ** [app/data/gsoc_loyalty.py]: [compute_loyalty] *)
Module Loyalty.

(** A row of the frame read from [gsoc_organizations]: [name], [year].
    Both columns are taken to be filled in: [groupby] drops the rows
    without a name, and a missing year is not an integer. *)
Definition entry : Type := string * Z.

(** The group keys of [df.groupby("name")]: each name once, in ascending
    order. *)
Fixpoint insert_name (n : string) (l : list string) : list string :=
  match l with
  | [] => [n]
  | m :: l' =>
      if String.eqb n m then l
      else if String.leb n m then n :: l
      else m :: insert_name n l'
  end.

Definition group_keys (df : list entry) : list string :=
  foldr insert_name [] (fst <$> df).

(** [sorted(subdf["year"].unique())] for the group of [org] *)
Definition group_years (df : list entry) (org : string) : list Z :=
  PySort.sort_asc (fun y => y)
    (remove_dups (snd <$> filter (fun e => fst e = org) df)).

(** The [for i in range(1, len(years))] loop of lines 26-31; [prev] is
    [years[i - 1]]. *)
Fixpoint streak_loop (prev : Z) (years : list Z) (max_streak current : Z) : Z :=
  match years with
  | [] => max_streak
  | y :: years' =>
      let current := if y =? prev + 1 then current + 1 else 1 in
      streak_loop y years' (Z.max max_streak current) current
  end.

Definition loyalty_streak (years : list Z) : Z :=
  match years with
  | [] => 1
  | y0 :: years' => streak_loop y0 years' 1 1
  end.

(** A row of the result: [organization_name], [years_active],
    [loyalty_streak]. *)
Record score := {
  organization_name : string;
  years_active : Z;
  streak : Z
}.

Definition compute_loyalty (df : list entry) : list score :=
  (fun org =>
     let years := group_years df org in
     {| organization_name := org;
        years_active := Z.of_nat (length years);
        streak := loyalty_streak years |})
  <$> group_keys df.

End Loyalty.

(** ** [app/visualization/generate_organization_merge_graphs.py]: the file
    name of a graph *)
Module Graphs.
Import PyStr.

(** [c.isalnum()] on an ASCII character *)
Definition is_alnum (c : ascii) : bool :=
  let n := nat_of_ascii c in
  ((48 <=? n)%nat && (n <=? 57)%nat)
  || ((65 <=? n)%nat && (n <=? 90)%nat)
  || ((97 <=? n)%nat && (n <=? 122)%nat).

(** [c.isalnum() or c in (' ', '-', '_')] *)
Definition kept (c : ascii) : bool :=
  is_alnum c || (Ascii.eqb c " " || (Ascii.eqb c "-" || Ascii.eqb c "_")).

(** ["".join(c for c in org_name if ...)] *)
Fixpoint join_kept (org_name : string) : string :=
  match org_name with
  | EmptyString => EmptyString
  | String c s' => if kept c then String c (join_kept s') else join_kept s'
  end.

(** Lines 165-166. *)
Definition safe_name (org_name : string) : string :=
  replace " " "_" (strip_ws (join_kept org_name)).

(** Line 167. *)
Definition filename (org_slug org_name : string) : string :=
  org_slug +:+ "_" +:+ safe_name org_name +:+ ".png".

End Graphs.

(* ===================================================================== *)
(** * Part II: properties                                                 *)
(* ===================================================================== *)

(** ** Facts about the string operations *)
Module PyStrFacts.
Import PyStr.

Ltac by_cases_on_ascii c :=
  destruct c as [[] [] [] [] [] [] [] []]; try reflexivity; try discriminate.

Lemma append_nil_l t : "" +:+ t = t.
Proof. reflexivity. Qed.

Lemma append_cons a s t : String a s +:+ t = String a (s +:+ t).
Proof. reflexivity. Qed.

Fixpoint mem_char (c : ascii) (s : string) : bool :=
  match s with
  | EmptyString => false
  | String a s' => Ascii.eqb a c || mem_char c s'
  end.

Lemma lower_ascii_idem c : lower_ascii (lower_ascii c) = lower_ascii c.
Proof. by_cases_on_ascii c. Qed.

Lemma lower_idem s : lower (lower s) = lower s.
Proof. induction s as [|c s IH]; simpl; [done|]. by rewrite lower_ascii_idem, IH. Qed.

Lemma lower_ascii_eqb_space c : Ascii.eqb (lower_ascii c) " " = Ascii.eqb c " ".
Proof. by_cases_on_ascii c. Qed.

Lemma lower_ascii_eqb_at c : Ascii.eqb (lower_ascii c) "@" = Ascii.eqb c "@".
Proof. by_cases_on_ascii c. Qed.

Lemma lower_substring s : forall n m,
  lower (substring n m s) = substring n m (lower s).
Proof.
  induction s as [|c s IH]; intros [|n] [|m]; simpl; rewrite ?IH; done.
Qed.

Lemma contains_char c s : contains (String c "") s = mem_char c s.
Proof.
  induction s as [|a s IH]; simpl; [done|].
  rewrite IH. destruct (ascii_dec c a) as [->|Hne].
  - rewrite Ascii.eqb_refl. by destruct s.
  - by destruct (Ascii.eqb_spec a c); [congruence|].
Qed.

Lemma mem_char_append c s t :
  mem_char c (s +:+ t) = mem_char c s || mem_char c t.
Proof.
  induction s as [|a s IH]; [done|].
  rewrite append_cons. simpl. by rewrite IH, orb_assoc.
Qed.

Lemma mem_char_replace_space s : mem_char " " (replace " " "-" s) = false.
Proof.
  induction s as [|a s IH]; simpl; [done|].
  destruct (Ascii.eqb_spec a " ") as [->|Hne]; simpl; [done|].
  rewrite IH. by destruct (Ascii.eqb_spec a " ").
Qed.

Lemma mem_char_lower_space s : mem_char " " (lower s) = mem_char " " s.
Proof.
  induction s as [|a s IH]; simpl; [done|].
  by rewrite lower_ascii_eqb_space, IH.
Qed.

Lemma mem_char_substring c s : forall n m,
  mem_char c s = false -> mem_char c (substring n m s) = false.
Proof.
  induction s as [|a s IH]; intros [|n] [|m]; simpl; try done.
  - intros [-> H]%orb_false_elim. simpl. by apply IH.
  - intros [_ H]%orb_false_elim. by apply IH.
  - intros [_ H]%orb_false_elim. by apply IH.
Qed.

(** [s.startswith(c)] *)
Definition starts_with_char (c : ascii) (s : string) : bool :=
  match s with
  | EmptyString => false
  | String a _ => Ascii.eqb a c
  end.

Lemma prefix_char c s : String.prefix (String c "") s = starts_with_char c s.
Proof.
  destruct s as [|a s]; simpl; [done|].
  destruct (ascii_dec c a) as [->|Hne].
  - rewrite Ascii.eqb_refl. by destruct s.
  - by destruct (Ascii.eqb_spec a c); [congruence|].
Qed.

Lemma starts_with_lstrip c s : starts_with_char c (lstrip c s) = false.
Proof.
  induction s as [|a s IH]; simpl; [done|].
  destruct (Ascii.eqb a c) eqn:E; [done|]. simpl. by rewrite E.
Qed.

Lemma starts_with_at_replace s :
  starts_with_char "@" (replace " " "-" s) = starts_with_char "@" s.
Proof.
  destruct s as [|a s]; simpl; [done|].
  destruct (Ascii.eqb_spec a " ") as [->|Hne]; by simpl.
Qed.

Lemma starts_with_at_lower s :
  starts_with_char "@" (lower s) = starts_with_char "@" s.
Proof. destruct s as [|a s]; simpl; [done|]. apply lower_ascii_eqb_at. Qed.

Lemma starts_with_substring c s m :
  starts_with_char c s = false -> starts_with_char c (substring 0 m s) = false.
Proof. destruct s as [|a s], m as [|m]; simpl; done. Qed.

(** [endswith] is "some suffix equals". *)
Lemma endswith_app s suf : endswith (s +:+ suf) suf = true.
Proof.
  induction s as [|a s IH].
  - rewrite append_nil_l. destruct suf; simpl; by rewrite ?Ascii.eqb_refl, ?String.eqb_refl.
  - rewrite append_cons. cbn [endswith]. rewrite IH. apply orb_true_r.
Qed.

Lemma endswith_inv s suf : endswith s suf = true -> exists p, s = p +:+ suf.
Proof.
  induction s as [|a s IH]; cbn [endswith].
  - rewrite orb_false_r. intros <-%String.eqb_eq. by exists "".
  - intros [<-%String.eqb_eq | H]%orb_true_iff.
    + by exists "".
    + destruct (IH H) as [p ->]. by exists (String a p).
Qed.

Lemma length_append s t :
  String.length (s +:+ t) = (String.length s + String.length t)%nat.
Proof.
  induction s as [|a s IH]; [done|].
  rewrite append_cons. simpl. lia.
Qed.

Lemma substring_prefix_app s t :
  substring 0 (String.length s) (s +:+ t) = s.
Proof.
  induction s as [|a s IH].
  - rewrite append_nil_l. by destruct t.
  - rewrite append_cons. simpl. by rewrite IH.
Qed.

Lemma drop_last_app s suf : drop_last (String.length suf) (s +:+ suf) = s.
Proof.
  unfold drop_last. rewrite length_append.
  replace (String.length s + String.length suf - String.length suf)%nat
    with (String.length s) by lia.
  apply substring_prefix_app.
Qed.

Lemma append_assoc s t u : (s +:+ t) +:+ u = s +:+ (t +:+ u).
Proof.
  induction s as [|a s IH]; [done|].
  rewrite !append_cons. by rewrite IH.
Qed.

Lemma append_inj_r s t u : s +:+ u = t +:+ u -> s = t.
Proof.
  revert t. induction s as [|a s IH]; intros t H.
  - destruct t as [|b t]; [done|].
    apply (f_equal String.length) in H.
    rewrite append_nil_l, append_cons in H. simpl in H.
    rewrite length_append in H. lia.
  - destruct t as [|b t].
    + apply (f_equal String.length) in H.
      rewrite append_nil_l, append_cons in H. simpl in H.
      rewrite length_append in H. lia.
    + rewrite !append_cons in H. injection H as -> H. f_equal. by apply IH.
Qed.

End PyStrFacts.

(** ** Path segments *)
Module SegmentFacts.
Import PyStr PyStrFacts.

(** The non-empty members of a list of segments. *)
Definition non_empty (l : list string) : list string :=
  filter (fun part => Is_true (nonempty part)) l.

Lemma non_empty_cons_empty l : non_empty ("" :: l) = non_empty l.
Proof. reflexivity. Qed.

Lemma non_empty_cons_char a h l :
  non_empty (String a h :: l) = String a h :: non_empty l.
Proof. reflexivity. Qed.

Lemma split_cons_sep c s : split c (String c s) = "" :: split c s.
Proof. simpl. by rewrite Ascii.eqb_refl. Qed.

Lemma split_not_nil c s : split c s <> [].
Proof.
  induction s as [|a s IH]; simpl; [done|].
  destruct (Ascii.eqb a c); [done|]. by destruct (split c s).
Qed.

Lemma split_cons_other c a s h t :
  Ascii.eqb a c = false -> split c s = h :: t ->
  split c (String a s) = String a h :: t.
Proof. intros Ha Hs. simpl. by rewrite Ha, Hs. Qed.

(** Stripping leading separators only removes empty segments. *)
Lemma non_empty_split_lstrip c s :
  non_empty (split c (lstrip c s)) = non_empty (split c s).
Proof.
  induction s as [|a s IH]; [done|].
  cbn [lstrip]. destruct (Ascii.eqb_spec a c) as [->|Hne]; [|done].
  by rewrite split_cons_sep, non_empty_cons_empty.
Qed.

(** Stripping trailing separators keeps the first segment and only removes
    empty segments after it. *)
Lemma split_rstrip c s :
  exists h t t',
    split c (rstrip c s) = h :: t /\ split c s = h :: t'
    /\ non_empty t = non_empty t'.
Proof.
  induction s as [|a s (h & t & t' & Hr & Hs & Ht)].
  - by exists "", [], [].
  - cbn [rstrip]. destruct (rstrip c s) as [|b r] eqn:Er.
    + simpl in Hr. injection Hr as <- <-.
      destruct (Ascii.eqb_spec a c) as [->|Hne].
      * exists "", [], ("" :: t'). rewrite split_cons_sep, Hs.
        by rewrite non_empty_cons_empty.
      * exists (String a ""), [], t'. split; [|split]; [|
          apply split_cons_other; [by apply Ascii.eqb_neq|done] | done].
        simpl. by destruct (Ascii.eqb_spec a c).
    + destruct (Ascii.eqb_spec a c) as [->|Hne].
      * exists "", (h :: t), (h :: t'). rewrite !split_cons_sep, Hr, Hs.
        split; [done|split; [done|]]. destruct h; simpl.
        -- by rewrite !non_empty_cons_empty.
        -- rewrite !non_empty_cons_char. by f_equal.
      * exists (String a h), t, t'.
        split; [|split]; [| |done];
          by apply split_cons_other; [apply Ascii.eqb_neq|].
Qed.

Lemma non_empty_split_rstrip c s :
  non_empty (split c (rstrip c s)) = non_empty (split c s).
Proof.
  destruct (split_rstrip c s) as (h & t & t' & -> & -> & Ht).
  destruct h.
  - by rewrite !non_empty_cons_empty.
  - rewrite !non_empty_cons_char. by f_equal.
Qed.

Lemma non_empty_split_strip c s :
  non_empty (split c (strip c s)) = non_empty (split c s).
Proof.
  unfold strip. by rewrite non_empty_split_rstrip, non_empty_split_lstrip.
Qed.

(** A separator-free prefix is the first segment. *)
Lemma split_no_sep c x : mem_char c x = false -> split c x = [x].
Proof.
  induction x as [|a x IH]; [done|].
  simpl. intros [Ha Hx]%orb_false_elim. by rewrite Ha, (IH Hx).
Qed.

Lemma split_first_segment c x y :
  mem_char c x = false -> split c (x +:+ String c y) = x :: split c y.
Proof.
  induction x as [|a x IH]; intros H.
  - rewrite append_nil_l. apply split_cons_sep.
  - simpl in H. apply orb_false_elim in H as [Ha Hx].
    rewrite append_cons. by apply split_cons_other; [|apply IH].
Qed.

End SegmentFacts.

(** ** The identifier normaliser *)
Module NormalizerProps.
Import PyStr PyStrFacts SegmentFacts GithubUrl Helper.

Lemma path_parts_non_empty p : path_parts p = non_empty (split "/" p).
Proof. apply non_empty_split_strip. Qed.

Lemma nonempty_true s : s <> "" -> nonempty s = true.
Proof. intros H. unfold nonempty. by destruct (String.eqb_spec s ""). Qed.

(** The segments of [/orgs/x...]. *)
Lemma path_parts_orgs x tail :
  x <> "" -> mem_char "/" x = false ->
  tail = "" \/ starts_with_char "/" tail = true ->
  exists rest, path_parts ("/orgs/" +:+ x +:+ tail) = "orgs" :: x :: rest.
Proof.
  intros Hx Hsep Htail. rewrite path_parts_non_empty.
  change ("/orgs/" +:+ x +:+ tail)
    with (String "/" ("orgs" +:+ String "/" (x +:+ tail))).
  rewrite split_cons_sep, non_empty_cons_empty.
  rewrite (split_first_segment "/" "orgs") by done.
  rewrite non_empty_cons_char.
  destruct x as [|a x]; [done|].
  destruct Htail as [->|Htail].
  - replace (String a x +:+ "") with (String a x)
      by (clear; induction (String a x) as [|b y IH];
          [done|by rewrite append_cons, <- IH]).
    rewrite split_no_sep by done. by exists [].
  - destruct tail as [|b tail]; [done|].
    simpl in Htail. apply Ascii.eqb_eq in Htail as ->.
    rewrite split_first_segment by done.
    rewrite non_empty_cons_char. by eexists.
Qed.

(** C6, as the code has it. The code's test for the expected domain is that
    the lower-cased host contains [github.com] somewhere: [github.com] and
    its subdomains pass, and so does any other host that has it as a
    substring.  For a profile URL whose host passes that test and whose path
    is [/orgs/x] followed by nothing or by [/...], the handle derived is
    [x]; for a URL whose host fails that test, the handle derived is the
    last non-empty segment of the path ([None] when there is none). *)
Theorem extract_org_name_from_url_spec (urlparse : string -> parsed_url) (url : string) :
  url <> "" ->
  (forall x tail,
      contains "github.com" (lower (netloc (urlparse url))) = true ->
      path (urlparse url) = "/orgs/" +:+ x +:+ tail ->
      x <> "" -> mem_char "/" x = false ->
      tail = "" \/ starts_with_char "/" tail = true ->
      extract_org_name_from_url urlparse (Some url) = Some x)
  /\ (contains "github.com" (lower (netloc (urlparse url))) = false ->
      extract_org_name_from_url urlparse (Some url)
      = last (non_empty (split "/" (path (urlparse url))))).
Proof.
  intros Hurl. unfold extract_org_name_from_url.
  rewrite (nonempty_true url Hurl). cbn [negb]. split.
  - intros x tail Hhost Hpath Hx Hsep Htail.
    destruct (path_parts_orgs x tail Hx Hsep Htail) as [rest Hparts].
    rewrite Hpath, Hparts, Hhost. by cbn.
  - intros Hhost. rewrite Hhost. cbn [negb].
    rewrite <- path_parts_non_empty.
    by destruct (path_parts (path (urlparse url))).
Qed.

Definition sample_urlparse (u : string) : parsed_url :=
  if String.prefix "https://github.com" u
  then {| netloc := "github.com"; path := substring 18 (String.length u) u |}
  else {| netloc := "gitlab.example.org"; path := substring 26 (String.length u) u |}.

Lemma extract_org_name_from_url_spec_witness :
  extract_org_name_from_url sample_urlparse (Some "https://github.com/orgs/Apache/people")
  = Some "Apache"
  /\ extract_org_name_from_url sample_urlparse (Some "https://gitlab.example.org/team//tool/")
     = Some "tool".
Proof.
  split.
  - apply (proj1 (extract_org_name_from_url_spec sample_urlparse
                    "https://github.com/orgs/Apache/people" ltac:(discriminate))
             "Apache" "/people");
      [reflexivity | reflexivity | discriminate | reflexivity | right; reflexivity].
  - rewrite (proj2 (extract_org_name_from_url_spec sample_urlparse
                      "https://gitlab.example.org/team//tool/" ltac:(discriminate)));
      reflexivity.
Defined.

(** [urlparse] on the URLs of the host [notgithub.com]. *)
Definition lookalike_urlparse (u : string) : parsed_url :=
  {| netloc := "notgithub.com"; path := substring 21 (String.length u) u |}.

(** C6 as stated fails: the host [notgithub.com] is neither the expected
    domain nor one of its subdomains, and yet the handle derived from
    [https://notgithub.com/a/b] is the first segment of its path, not the
    last. *)
Lemma lookalike_host_counterexample :
  let url := "https://notgithub.com/a/b" in
  let parsed := lookalike_urlparse url in
  netloc parsed = "notgithub.com"
  /\ path parsed = "/a/b"
  /\ lower (netloc parsed) <> "github.com"
  /\ endswith (lower (netloc parsed)) ".github.com" = false
  /\ last (non_empty (split "/" (path parsed))) = Some "b"
  /\ extract_org_name_from_url lookalike_urlparse (Some url) = Some "a"
  /\ extract_org_name_from_url lookalike_urlparse (Some url)
     <> last (non_empty (split "/" (path parsed))).
Proof. cbv zeta. repeat split; try reflexivity; vm_compute; discriminate. Qed.

(** *** Post-processing of the handle *)

Lemma endswith_iff s suf : endswith s suf = true <-> exists p, s = p +:+ suf.
Proof.
  split; [apply endswith_inv|]. intros [p ->]. apply endswith_app.
Qed.

(** What the handle is before the [.git] suffix is looked at. *)
Definition before_git (raw : string) : string :=
  lower (replace " " "-" (lstrip "@" raw)).

Lemma normalize_slug_unfold raw :
  normalize_slug raw
  = if endswith (before_git raw) ".git" then drop_last 4 (before_git raw)
    else before_git raw.
Proof. reflexivity. Qed.

Lemma before_git_lower raw : lower (before_git raw) = before_git raw.
Proof. apply lower_idem. Qed.

Lemma before_git_no_at raw : starts_with_char "@" (before_git raw) = false.
Proof.
  unfold before_git.
  by rewrite starts_with_at_lower, starts_with_at_replace, starts_with_lstrip.
Qed.

Lemma before_git_no_space raw : mem_char " " (before_git raw) = false.
Proof.
  unfold before_git. by rewrite mem_char_lower_space, mem_char_replace_space.
Qed.

Lemma normalize_slug_lower raw : lower (normalize_slug raw) = normalize_slug raw.
Proof.
  rewrite normalize_slug_unfold. destruct (endswith _ _).
  - unfold drop_last. by rewrite lower_substring, before_git_lower.
  - apply before_git_lower.
Qed.

Lemma normalize_slug_no_at raw : String.prefix "@" (normalize_slug raw) = false.
Proof.
  rewrite prefix_char, normalize_slug_unfold. destruct (endswith _ _).
  - apply starts_with_substring, before_git_no_at.
  - apply before_git_no_at.
Qed.

Lemma normalize_slug_no_space raw : contains " " (normalize_slug raw) = false.
Proof.
  rewrite contains_char, normalize_slug_unfold. destruct (endswith _ _).
  - apply mem_char_substring, before_git_no_space.
  - apply before_git_no_space.
Qed.

(** Exactly one [.git] is taken off. *)
Lemma normalize_slug_git raw :
  endswith (normalize_slug raw) ".git" = endswith (before_git raw) ".git.git".
Proof.
  rewrite normalize_slug_unfold.
  destruct (endswith (before_git raw) ".git") eqn:E.
  - apply endswith_iff in E as [p Hp]. rewrite Hp.
    change 4%nat with (String.length ".git"). rewrite drop_last_app.
    apply eq_true_iff_eq. rewrite !endswith_iff. split.
    + intros [q ->]. exists q. by rewrite append_assoc.
    + intros [q Hq]. exists q.
      change ".git.git" with (".git" +:+ ".git") in Hq.
      rewrite <- append_assoc in Hq. by apply append_inj_r in Hq.
  - rewrite E. symmetry. apply not_true_is_false. intros [q Hq]%endswith_iff.
    apply not_true_iff_false in E. apply E, endswith_iff.
    exists (q +:+ ".git"). by rewrite append_assoc.
Qed.

(** The rows the loop runs over are rows of the table. *)
Lemma insert_asc_elem {A} (key : A -> Z) (x y : A) (l : list A) :
  y ∈ PySort.insert_asc key x l -> y = x \/ y ∈ l.
Proof.
  induction l as [|z l IH]; cbn [PySort.insert_asc].
  - intros ->%list_elem_of_singleton. by left.
  - destruct (key x <=? key z).
    + intros [->|H]%elem_of_cons; [by left|by right].
    + intros [->|H]%elem_of_cons; [right; apply list_elem_of_here|].
      destruct (IH H) as [->|H']; [by left|right; by apply list_elem_of_further].
Qed.

Lemma sort_asc_elem {A} (key : A -> Z) (y : A) (l : list A) :
  y ∈ PySort.sort_asc key l -> y ∈ l.
Proof.
  induction l as [|x l IH]; [done|].
  cbn [PySort.sort_asc foldr]. fold (PySort.sort_asc key l).
  intros [->|H]%insert_asc_elem; [apply list_elem_of_here|].
  by apply list_elem_of_further, IH.
Qed.

Lemma queried_row_in_table start table r : r ∈ query_orgs start table -> r ∈ table.
Proof.
  unfold query_orgs. intros H%sort_asc_elem.
  destruct start; [by apply list_elem_of_filter in H as [_ H]|done].
Qed.

(** The entry [o] was made from a row of [rows]: the row has the entry's id,
    the identifier derived from it (lines 35-40) is [raw], and the entry's
    handle is [raw] post-processed (lines 43-45). *)
Definition derived_from (urlparse : string -> parsed_url) (rows : list gsoc_row)
    (o : org) (raw : string) : Prop :=
  exists r, r ∈ rows /\ row_id r = id o /\ raw_slug urlparse r = Some raw
            /\ github_slug o = normalize_slug raw.

Lemma step_derived urlparse rows a r :
  r ∈ rows ->
  Forall (fun o => exists raw, derived_from urlparse rows o raw) (normalized_orgs a) ->
  Forall (fun o => exists raw, derived_from urlparse rows o raw)
    (normalized_orgs (step urlparse a r)).
Proof.
  intros Hr Ha. unfold step.
  destruct (raw_slug urlparse r) as [raw|] eqn:Eraw; cbn [truthy]; [|done].
  destruct (nonempty raw) eqn:Hraw; cbn [fmap option_fmap option_map].
  - destruct (negb (nonempty (normalize_slug raw))); [done|].
    case_bool_decide; [done|]. cbn [normalized_orgs].
    apply Forall_app. split; [done|].
    apply Forall_singleton. exists raw, r. by repeat split.
  - by rewrite Hraw.
Qed.

Lemma foldl_step_derived urlparse rows part : forall a,
  part ⊆ rows ->
  Forall (fun o => exists raw, derived_from urlparse rows o raw) (normalized_orgs a) ->
  Forall (fun o => exists raw, derived_from urlparse rows o raw)
    (normalized_orgs (foldl (step urlparse) a part)).
Proof.
  induction part as [|r part IH]; intros a Hsub Ha; [done|].
  simpl. apply IH; [set_solver|]. apply step_derived; [set_solver|done].
Qed.

Lemma get_organization_list_derived urlparse start table :
  Forall (fun o => exists raw, derived_from urlparse table o raw)
    (get_organization_list urlparse start table).
Proof.
  unfold get_organization_list.
  assert (Forall (fun o => exists raw, derived_from urlparse table o raw)
            (normalized_orgs
               (foldl (step urlparse)
                  {| normalized_orgs := []; skipped_without_identifier := 0;
                     seen_slugs := ∅ |} (query_orgs start table)))) as H.
  { apply foldl_step_derived; [|constructor].
    intros r. apply queried_row_in_table. }
  destruct start; [|done].
  rewrite Forall_forall in H. apply Forall_forall.
  intros o [_ Ho]%list_elem_of_filter. by apply H.
Qed.

(** The one [.git] that is taken off, if any, is the last four characters
    of the lower-cased handle. *)
Lemma normalize_slug_cases raw :
  before_git raw = normalize_slug raw +:+ ".git"
  \/ (endswith (before_git raw) ".git" = false /\ normalize_slug raw = before_git raw).
Proof.
  rewrite normalize_slug_unfold.
  destruct (endswith (before_git raw) ".git") eqn:E; [left|by right].
  apply endswith_iff in E as [p Hp]. rewrite Hp.
  change 4%nat with (String.length ".git"). by rewrite drop_last_app.
Qed.

(** C7, as the code has it. Every handle emitted by [get_organization_list]
    is lower case, does not start with [@] and contains no space.  It comes
    from a row of the table with the entry's id: writing [raw] for the
    identifier derived from that row and [before_git raw] for [raw] without
    its leading [@]s, with spaces turned into hyphens and lower-cased,
    exactly one trailing [.git] has been removed, that is, either
    [before_git raw] is the handle followed by [.git], or [before_git raw]
    does not end with [.git] and is the handle.  So the handle ends with
    [.git] only when [before_git raw] ended with [.git.git]. *)
Theorem emitted_handle_normal_form (urlparse : string -> parsed_url)
    (start_from_id : option Z) (table : list gsoc_row) (o : org) :
  o ∈ get_organization_list urlparse start_from_id table ->
  lower (github_slug o) = github_slug o
  /\ String.prefix "@" (github_slug o) = false
  /\ contains " " (github_slug o) = false
  /\ exists r raw,
       r ∈ table /\ row_id r = id o /\ raw_slug urlparse r = Some raw
       /\ github_slug o = normalize_slug raw
       /\ (before_git raw = github_slug o +:+ ".git"
           \/ (endswith (before_git raw) ".git" = false
               /\ github_slug o = before_git raw))
       /\ endswith (github_slug o) ".git" = endswith (before_git raw) ".git.git".
Proof.
  intros Ho.
  pose proof (get_organization_list_derived urlparse start_from_id table) as H.
  rewrite Forall_forall in H.
  destruct (H o Ho) as (raw & r & Hr & Hid & Hraw & Hslug).
  rewrite Hslug. split; [apply normalize_slug_lower|].
  split; [apply normalize_slug_no_at|].
  split; [apply normalize_slug_no_space|].
  exists r, raw. split; [done|]. split; [done|]. split; [done|]. split; [done|].
  split; [apply normalize_slug_cases|apply normalize_slug_git].
Qed.

Definition sample_table : list gsoc_row :=
  [ {| row_id := 7; row_name := Some "Open Lab";
       row_github_url := Some "https://github.com/orgs/@Open Lab.GIT/people";
       row_slug := None |} ].

Definition sample_org : org :=
  {| id := 7; display_name := "Open Lab"; github_slug := "open-lab" |}.

Lemma emitted_handle_normal_form_witness :
  sample_org ∈ get_organization_list sample_urlparse None sample_table
  /\ lower (github_slug sample_org) = github_slug sample_org
  /\ exists r raw,
       r ∈ sample_table /\ row_id r = id sample_org
       /\ raw_slug sample_urlparse r = Some raw
       /\ github_slug sample_org = normalize_slug raw
       /\ (before_git raw = github_slug sample_org +:+ ".git"
           \/ (endswith (before_git raw) ".git" = false
               /\ github_slug sample_org = before_git raw))
       /\ endswith (github_slug sample_org) ".git"
          = endswith (before_git raw) ".git.git".
Proof.
  assert (sample_org ∈ get_organization_list sample_urlparse None sample_table) as H.
  { vm_compute. apply list_elem_of_here. }
  split; [exact H|].
  destruct (emitted_handle_normal_form sample_urlparse None sample_table
              sample_org H) as (Hlower & _ & _ & Hrow).
  split; [exact Hlower|exact Hrow].
Defined.

(** C7 as stated fails: a record whose slug is [x.git.git] is emitted with the
    handle [x.git]. *)
Lemma emitted_handle_git_counterexample :
  let table := [ {| row_id := 1; row_name := Some "X"; row_github_url := None;
                    row_slug := Some "x.git.git" |} ] in
  github_slug <$> get_organization_list sample_urlparse None table = ["x.git"]
  /\ endswith "x.git" ".git" = true.
Proof. split; vm_compute; reflexivity. Qed.

End NormalizerProps.

(** ** The paginated fetchers *)
Module FetcherProps.
Import PyStr Http Py GithubService FetchMergeDates.

(** A status that is neither success, nor rate limit, nor not-found. *)
Definition other_status (st : Z) : Prop := st <> 200 /\ st <> 403 /\ st <> 404.

Lemma other_status_tests st :
  other_status st ->
  (st =? 403) = false /\ (st =? 404) = false /\ (st =? 200) = false.
Proof. intros (H200 & H403 & H404). repeat split; by apply Z.eqb_neq. Qed.

Section WalkFacts.
Context {Item : Type} (max_pages : nat) (on_exit : list Item -> list Item).

Local Abbreviation run_walk := (walk (Item:=Item) max_pages on_exit).

(** If the walk, having consumed [pre], is about to issue another request
    and that request meets an other status, the walk returns the empty list
    and consumes nothing further. *)
Lemma walk_other_status pre : forall url page_count items tr st data next rest,
  run_walk pre url page_count items tr = None ->
  other_status st ->
  exists tr',
    run_walk (pre ++ Response st data next :: rest) url page_count items tr
    = Some (Run [] rest tr').
Proof.
  induction pre as [|o pre IH]; intros url pc items tr st data next rest Hnone Hst;
    apply other_status_tests in Hst as Htests; destruct Htests as (E403 & E404 & E200);
    cbn [walk app] in *;
    destruct url as [u|]; try discriminate;
    destruct (nonempty u && (pc <? max_pages)%nat); try discriminate.
  - rewrite E403, E404, E200. cbn. by eexists.
  - destruct o as [st' data' next'| |]; try discriminate.
    destruct (st' =? 403); [by apply IH|].
    destruct (st' =? 404); [discriminate|].
    destruct (negb (st' =? 200)); [discriminate|]. by apply IH.
Qed.

(** A rate-limit response is paid for with one unit of the page budget. *)
Lemma walk_403_step s u page_count items tr data next :
  nonempty u = true -> (page_count < max_pages)%nat ->
  run_walk (Response 403 data next :: s) (Some u) page_count items tr
  = run_walk s (Some u) (S page_count) items (tr ++ [Get u; Sleep 60]).
Proof.
  intros Hu Hpc. cbn [walk]. rewrite Hu.
  destruct (Nat.ltb_spec page_count max_pages); [|lia].
  cbn. by rewrite <- app_assoc.
Qed.

(** The walk returns once the script offers as many responses as the
    budget has units left. *)
Lemma walk_returns s : forall url page_count items tr,
  (max_pages - page_count <= length s)%nat ->
  is_Some (run_walk s url page_count items tr).
Proof.
  induction s as [|o s IH]; intros url pc items tr Hlen; cbn [walk];
    destruct url as [u|]; try done;
    destruct (nonempty u); cbn [andb]; try done;
    destruct (Nat.ltb_spec pc max_pages); try done.
  - simpl in Hlen. lia.
  - simpl in Hlen.
    destruct o as [st data next| |]; try done.
    destruct (st =? 403); [apply IH; lia|].
    destruct (st =? 404); [done|].
    destruct (negb (st =? 200)); [done|]. apply IH; lia.
Qed.

(** It never issues more requests than the budget has units left. *)
Lemma walk_requests s : forall url page_count items tr r,
  run_walk s url page_count items tr = Some r ->
  (requests (effects r) + page_count <= requests tr + Nat.max max_pages page_count)%nat.
Proof.
  assert (forall tr e, requests (tr ++ [e]) = (requests tr + if is_get e then 1 else 0)%nat)
    as Hsnoc.
  { intros tr e. unfold requests. rewrite filter_app, length_app.
    destruct e; reflexivity. }
  induction s as [|o s IH]; intros url pc items tr r; cbn [walk];
    destruct url as [u|];
    try (intros [= <-]; cbn [effects]; rewrite ?Hsnoc; cbn [is_get]; lia);
    destruct (nonempty u); cbn [andb];
    try (intros [= <-]; cbn [effects]; rewrite ?Hsnoc; cbn [is_get]; lia);
    destruct (Nat.ltb_spec pc max_pages);
    try (intros [= <-]; cbn [effects]; rewrite ?Hsnoc; cbn [is_get]; lia);
    try discriminate.
  destruct o as [st data next| |];
    try (intros [= <-]; cbn [effects]; rewrite ?Hsnoc; cbn [is_get]; lia).
  destruct (st =? 403).
  { intros Hr%IH. rewrite !Hsnoc in Hr. cbn [is_get] in Hr. lia. }
  destruct (st =? 404);
    [intros [= <-]; cbn [effects]; rewrite ?Hsnoc; cbn [is_get]; lia|].
  destruct (negb (st =? 200));
    [intros [= <-]; cbn [effects]; rewrite ?Hsnoc; cbn [is_get]; lia|].
  intros Hr%IH. rewrite !Hsnoc in Hr. cbn [is_get] in Hr. lia.
Qed.

End WalkFacts.

Definition rate_limited {Item} : outcome Item := Response 403 [] None.

Lemma without_403_nil {Item} : without_403 (@nil (outcome Item)) = [].
Proof. reflexivity. Qed.

Lemma without_403_cons {Item} (o : outcome Item) s :
  without_403 (o :: s) = if is_403 o then without_403 s else o :: without_403 s.
Proof.
  unfold without_403. rewrite filter_cons.
  destruct (is_403 o); cbn [negb]; by case_decide.
Qed.

Section PagesFacts.
Variable fromisoformat : string -> option datetime.
Variables (cutoff_date : datetime) (url repo_name : string).

Local Abbreviation loop := (pages_loop fromisoformat cutoff_date url repo_name).

Lemma pages_other_status pre : forall page merged_prs tr st prs next rest,
  loop pre page merged_prs tr = None ->
  other_status st ->
  exists tr',
    loop (pre ++ Response st prs next :: rest) page merged_prs tr
    = Some (Run [] rest tr').
Proof.
  induction pre as [|o pre IH]; intros page merged tr st prs next rest Hnone Hst;
    apply other_status_tests in Hst as Htests; destruct Htests as (E403 & E404 & E200);
    cbn [pages_loop app] in *;
    destruct (page <=? max_pages)%nat; try discriminate.
  - rewrite E403, E404, E200. cbn. by eexists.
  - destruct o as [st' prs' next'| |]; try discriminate.
    destruct (st' =? 403); [by apply IH|].
    destruct (st' =? 404); [discriminate|].
    destruct (negb (st' =? 200)); [discriminate|].
    destruct prs' as [|pr prs']; [discriminate|].
    destruct (scan_page _ _ _ _ _) as [merged' stop].
    destruct stop; [discriminate|].
    destruct next'; [|discriminate]. by apply IH.
Qed.

(** A rate-limit response leaves the page number and the list alone. *)
Lemma pages_403_step s page merged_prs tr data next :
  (page <= max_pages)%nat ->
  loop (Response 403 data next :: s) page merged_prs tr
  = loop s page merged_prs (tr ++ [Get (page_url url page); Sleep 60]).
Proof.
  intros Hpage. cbn [pages_loop].
  destruct (Nat.leb_spec page max_pages); [|lia].
  cbn. by rewrite <- app_assoc.
Qed.

(** The value returned does not depend on the rate-limit responses. *)
Lemma pages_403_free s : forall page merged_prs tr tr',
  returned <$> loop s page merged_prs tr
  = returned <$> loop (without_403 s) page merged_prs tr'.
Proof.
  induction s as [|o s IH]; intros page merged tr tr'.
  - rewrite without_403_nil. cbn [pages_loop]. by destruct (page <=? max_pages)%nat.
  - rewrite without_403_cons.
    destruct o as [st prs next| |]; cbn [is_403].
    + destruct (st =? 403) eqn:E.
      * cbn [pages_loop]. rewrite E.
        destruct (page <=? max_pages)%nat eqn:Ep; [apply IH|].
        destruct (without_403 s); cbn [pages_loop]; by rewrite Ep.
      * cbn [pages_loop]. rewrite E.
        destruct (page <=? max_pages)%nat; [|done].
        destruct (st =? 404); [done|].
        destruct (negb (st =? 200)); [done|].
        destruct prs as [|pr prs]; [done|].
        destruct (scan_page _ _ _ _ _) as [merged' stop].
        destruct stop; [done|]. destruct next; [apply IH|done].
    + cbn [pages_loop]. by destruct (page <=? max_pages)%nat.
    + cbn [pages_loop]. by destruct (page <=? max_pages)%nat.
Qed.

(** The loop returns once the script holds enough responses that are not
    rate limits. *)
Lemma pages_returns s : forall page merged_prs tr,
  (S max_pages - page <= length (without_403 s))%nat ->
  is_Some (loop s page merged_prs tr).
Proof.
  induction s as [|o s IH]; intros page merged tr Hlen; cbn [pages_loop];
    destruct (Nat.leb_spec page max_pages); try done.
  - rewrite without_403_nil in Hlen. cbn in Hlen. lia.
  - rewrite without_403_cons in Hlen.
    destruct o as [st prs next| |]; try done. cbn [is_403] in Hlen.
    destruct (st =? 403); [by apply IH|].
    destruct (st =? 404); [done|].
    destruct (negb (st =? 200)); [done|].
    destruct prs as [|pr prs]; [done|].
    destruct (scan_page _ _ _ _ _) as [merged' stop].
    destruct stop; [done|]. destruct next; [|done].
    apply IH. cbn [length] in Hlen. lia.
Qed.

(** On rate limits alone the loop never returns. *)
Lemma pages_403_forever n : forall page merged_prs tr,
  (page <= max_pages)%nat ->
  loop (replicate n rate_limited) page merged_prs tr = None.
Proof.
  induction n as [|n IH]; intros page merged tr Hpage; cbn [replicate pages_loop];
    destruct (Nat.leb_spec page max_pages); try lia; [done|].
  cbn. by apply IH.
Qed.

(** *** The scan of one page *)

(** [pr] is merged inside the window and is recorded as [e]. *)
Definition recent_as (pr : pull) (e : merged_pr) : Prop :=
  exists s dt,
    merged_at pr = Some s /\ nonempty s = true
    /\ fromisoformat (replace "Z" "+00:00" s) = Some dt
    /\ instant (ensure_aware cutoff_date) <= instant (ensure_aware dt)
    /\ e = {| pr_merged_at := ensure_aware dt; pr_number := number pr;
              pr_title := title pr; pr_repo := repo_name |}.

(** [pr] is merged before the cutoff. *)
Definition too_old (pr : pull) : Prop :=
  exists s dt,
    merged_at pr = Some s /\ nonempty s = true
    /\ fromisoformat (replace "Z" "+00:00" s) = Some dt
    /\ instant (ensure_aware dt) < instant (ensure_aware cutoff_date).

Lemma scan_page_stops recent entries :
  Forall2 recent_as recent entries ->
  forall old rest merged_prs,
    too_old old ->
    scan_page fromisoformat cutoff_date repo_name (recent ++ old :: rest) merged_prs
    = (merged_prs ++ entries, true).
Proof.
  induction 1 as [|pr e recent entries (s & dt & Hs & Hne & Hdt & Hle & ->) _ IH];
    intros old rest merged (s' & dt' & Hs' & Hne' & Hdt' & Hlt).
  - cbn [app scan_page]. rewrite Hs', Hne', Hdt'.
    destruct (Z.leb_spec (instant (ensure_aware cutoff_date))
                (instant (ensure_aware dt'))); [lia|].
    by rewrite app_nil_r.
  - cbn [app scan_page]. rewrite Hs, Hne, Hdt.
    destruct (Z.leb_spec (instant (ensure_aware cutoff_date))
                (instant (ensure_aware dt))); [|lia].
    rewrite (IH old rest) by (by exists s', dt').
    by rewrite <- app_assoc.
Qed.

End PagesFacts.

(** *** C5 *)

(** C5. When a page lists pull requests merged inside the window (five of
    them in the claim, any number here) followed by one merged before the
    cutoff, the extractor returns the entries of exactly those first pull
    requests and returns at once: whatever follows on the page is not looked
    at and no further request is issued. *)
Theorem extractor_returns_at_first_old
    (fromisoformat : string -> option datetime) (utcnow : datetime)
    (org_name repo_name : string) (days : Z)
    (recent : list pull) (entries : list merged_pr) (old : pull)
    (rest : list pull) (next : option string) (s : script pull) :
  Forall2 (recent_as fromisoformat (minus_days utcnow days) repo_name) recent entries ->
  too_old fromisoformat (minus_days utcnow days) old ->
  fetch_merged_prs_for_repo fromisoformat utcnow org_name repo_name days
    (Response 200 (recent ++ old :: rest) next :: s)
  = Some (Run entries s [Get (page_url (FetchMergeDates.updated_pulls_url org_name repo_name) 1)]).
Proof.
  intros Hrecent Hold. unfold fetch_merged_prs_for_repo. cbn [pages_loop].
  change (1 <=? max_pages)%nat with true. cbn [Z.eqb Pos.eqb negb app].
  rewrite (scan_page_stops _ _ _ _ _ Hrecent old rest [] Hold).
  by destruct recent.
Qed.

(** A run of the extractor on the last day of May 2024, looking back thirty
    days. *)
Definition utc (day seconds : Z) : datetime :=
  {| dt_day := day; dt_time := seconds * 1000000; tzinfo := Some 0 |}.

Definition sample_calendar : list (string * datetime) :=
  [ ("2024-05-30T10:00:00+00:00", utc 19873 36000);
    ("2024-05-25T10:00:00+00:00", utc 19868 36000);
    ("2024-05-20T10:00:00+00:00", utc 19863 36000);
    ("2024-05-15T10:00:00+00:00", utc 19858 36000);
    ("2024-05-10T10:00:00+00:00", utc 19853 36000);
    ("2024-04-20T10:00:00+00:00", utc 19833 36000);
    ("2024-05-29T10:00:00+00:00", utc 19872 36000) ].

Fixpoint lookup_stamp (s : string) (l : list (string * datetime)) : option datetime :=
  match l with
  | [] => None
  | (stamp, d) :: l' => if String.eqb stamp s then Some d else lookup_stamp s l'
  end.

Definition sample_fromisoformat (s : string) : option datetime :=
  lookup_stamp s sample_calendar.

Definition sample_now : datetime :=
  {| dt_day := 19874; dt_time := 0; tzinfo := None |}.

Definition sample_pull (n : Z) (stamp : string) : pull :=
  {| number := Some n; title := Some "change"; merged_at := Some stamp |}.

Definition sample_entry (n : Z) (day : Z) : merged_pr :=
  {| pr_merged_at := utc day 36000; pr_number := Some n;
     pr_title := Some "change"; pr_repo := "tool" |}.

Definition sample_recent : list pull :=
  [ sample_pull 60 "2024-05-30T10:00:00Z"; sample_pull 59 "2024-05-25T10:00:00Z";
    sample_pull 58 "2024-05-20T10:00:00Z"; sample_pull 57 "2024-05-15T10:00:00Z";
    sample_pull 56 "2024-05-10T10:00:00Z" ].

Definition sample_entries : list merged_pr :=
  [ sample_entry 60 19873; sample_entry 59 19868; sample_entry 58 19863;
    sample_entry 57 19858; sample_entry 56 19853 ].

Definition sample_old : pull := sample_pull 41 "2024-04-20T10:00:00Z".

Definition sample_late : pull := sample_pull 61 "2024-05-29T10:00:00Z".

Lemma extractor_returns_at_first_old_witness :
  fetch_merged_prs_for_repo sample_fromisoformat sample_now "acme" "tool" 30
    [Response 200 (sample_recent ++ sample_old :: [sample_late]) (Some "page2")]
  = Some (Run sample_entries []
            [Get (page_url (FetchMergeDates.updated_pulls_url "acme" "tool") 1)]).
Proof.
  apply extractor_returns_at_first_old.
  - repeat (constructor;
            [eexists _, _; repeat split; try reflexivity; vm_compute; discriminate|]).
    constructor.
  - eexists _, _. repeat split; try reflexivity.
Defined.

(** *** C2 *)

Definition sample_repo : repo :=
  {| repo_name := "tool"; owner_login := "acme"; stargazers_count := Some 12 |}.

Definition sample_repo_page : outcome repo :=
  Response 200 [sample_repo] (Some "https://api.github.com/organizations/1/repos?page=2").

Definition sample_pull_page : outcome pull :=
  Response 200 [sample_pull 60 "2024-05-30T10:00:00Z"]
    (Some "https://api.github.com/repositories/1/pulls?page=2").

(** C2 as stated fails: after a first page that delivered one item, a 500 on
    the second page makes each fetcher return the empty list, not the item
    it had accumulated. *)
Lemma other_status_keeps_partial_counterexample :
  (returned <$> fetch_org_repos "acme" [sample_repo_page; Response 500 [] None]
   = Some []
   /\ returned <$> fetch_org_repos "acme" [sample_repo_page; TimeoutExc]
      = Some [sample_repo])
  /\ (returned <$> fetch_repo_pr_data "acme" "tool" [sample_pull_page; Response 500 [] None]
      = Some []
      /\ returned <$> fetch_repo_pr_data "acme" "tool" [sample_pull_page; TimeoutExc]
         = Some [sample_pull 60 "2024-05-30T10:00:00Z"])
  /\ (returned <$> fetch_merged_prs_for_repo sample_fromisoformat sample_now
                     "acme" "tool" 30 [sample_pull_page; Response 500 [] None]
      = Some []
      /\ returned <$> fetch_merged_prs_for_repo sample_fromisoformat sample_now
                        "acme" "tool" 30 [sample_pull_page; TimeoutExc]
         = Some [sample_entry 60 19873]).
Proof. repeat split; vm_compute; reflexivity. Qed.

(** C2, as the code has it. In each of the three paginated fetchers, when
    the walk has consumed the responses [pre] and is about to issue another
    request, and that request meets a status other than 200, 403 and 404, the
    fetcher returns the empty list whatever it had accumulated, and consumes
    no further response. *)
Theorem other_status_returns_empty (st : Z) :
  other_status st ->
  (forall org_name pre data next rest,
      fetch_org_repos org_name pre = None ->
      exists tr, fetch_org_repos org_name (pre ++ Response st data next :: rest)
                 = Some (Run [] rest tr))
  /\ (forall org_name repo_name pre data next rest,
        fetch_repo_pr_data org_name repo_name pre = None ->
        exists tr, fetch_repo_pr_data org_name repo_name
                     (pre ++ Response st data next :: rest)
                   = Some (Run [] rest tr))
  /\ (forall fromisoformat utcnow org_name repo_name days pre data next rest,
        fetch_merged_prs_for_repo fromisoformat utcnow org_name repo_name days pre = None ->
        exists tr, fetch_merged_prs_for_repo fromisoformat utcnow org_name repo_name days
                     (pre ++ Response st data next :: rest)
                   = Some (Run [] rest tr)).
Proof.
  intros Hst. repeat split.
  - intros org pre data next rest Hpre. by apply walk_other_status.
  - intros org repo_name pre data next rest Hpre. by apply walk_other_status.
  - intros fromiso utcnow org repo_name days pre data next rest Hpre.
    by apply pages_other_status.
Qed.

Lemma other_status_returns_empty_witness :
  other_status 500
  /\ exists tr, fetch_org_repos "acme" ([sample_repo_page] ++ Response 500 [] None :: [])
                = Some (Run [] [] tr).
Proof.
  assert (other_status 500) as H by (repeat split; discriminate).
  split; [exact H|].
  apply (proj1 (other_status_returns_empty 500 H)). reflexivity.
Defined.

(** *** C3 *)

(** C3 as stated fails for the two fetchers of [github_service.py]: ten rate
    limits use up the whole page budget of [fetch_org_repos], and the page
    that follows is never requested. *)
Lemma rate_limit_budget_counterexample :
  returned <$> fetch_org_repos "acme"
                 (replicate 10 rate_limited ++ [Response 200 [sample_repo] None])
  = Some []
  /\ returned <$> fetch_org_repos "acme" [Response 200 [sample_repo] None]
     = Some [sample_repo]
  /\ returned <$> fetch_repo_pr_data "acme" "tool"
                    (replicate 20 rate_limited ++ [sample_pull_page; TimeoutExc])
     = Some []
  /\ returned <$> fetch_repo_pr_data "acme" "tool" [sample_pull_page; TimeoutExc]
     = Some [sample_pull 60 "2024-05-30T10:00:00Z"].
Proof. repeat split; vm_compute; reflexivity. Qed.

(** C3, as the code has it. In [fetch_merged_prs_for_repo] a 403 is followed
    by a 60 second sleep and a retry of the same page, the page number and
    the list built so far are unchanged, and the value returned is the one
    obtained on the script with every 403 taken out.  In [fetch_org_repos]
    and [fetch_repo_pr_data] a 403 is followed by the same sleep and a retry
    of the same URL, but it uses up one unit of the page budget: the walk
    issues at most 10 (resp. 20) requests, rate-limited ones included. *)
Theorem rate_limit_retry :
  (forall fromisoformat utcnow org_name repo_name days s,
      returned <$> fetch_merged_prs_for_repo fromisoformat utcnow org_name repo_name days s
      = returned <$> fetch_merged_prs_for_repo fromisoformat utcnow org_name repo_name days
                       (without_403 s))
  /\ (forall fromisoformat cutoff_date url repo_name s page merged_prs tr data next,
        (page <= FetchMergeDates.max_pages)%nat ->
        pages_loop fromisoformat cutoff_date url repo_name
          (Response 403 data next :: s) page merged_prs tr
        = pages_loop fromisoformat cutoff_date url repo_name s page merged_prs
            (tr ++ [Get (page_url url page); Sleep 60]))
  /\ (forall (Item : Type) max_pages on_exit (s : script Item) u page_count items tr data next,
        nonempty u = true -> (page_count < max_pages)%nat ->
        walk max_pages on_exit (Response 403 data next :: s) (Some u) page_count items tr
        = walk max_pages on_exit s (Some u) (S page_count) items
            (tr ++ [Get u; Sleep 60]))
  /\ (forall org_name s r,
        fetch_org_repos org_name s = Some r -> (requests (effects r) <= 10)%nat)
  /\ (forall org_name repo_name s r,
        fetch_repo_pr_data org_name repo_name s = Some r ->
        (requests (effects r) <= 20)%nat).
Proof.
  split; [|split; [|split; [|split]]].
  - intros. apply pages_403_free.
  - intros. by apply pages_403_step.
  - intros. by apply walk_403_step.
  - intros org s r Hr. apply walk_requests in Hr. cbn in Hr. lia.
  - intros org repo_name s r Hr. apply walk_requests in Hr. cbn in Hr. lia.
Qed.

(** *** C4 *)

(** C4 asks that every paginated fetch return on every sequence of responses,
    the 403 retries being bounded by the page cap.
    [fetch_merged_prs_for_repo] does not: against a source that answers 403
    to every request there is no number of responses after which it has
    returned.  (Its [continue] on 403 comes before [page += 1], so
    [page <= max_pages] stays true.) *)
Theorem extractor_retries_rate_limit_forever
    (fromisoformat : string -> option datetime) (utcnow : datetime)
    (org_name repo_name : string) (days : Z) :
  ~ exists n r,
      fetch_merged_prs_for_repo fromisoformat utcnow org_name repo_name days
        (replicate n rate_limited) = Some r.
Proof.
  intros (n & r & H). unfold fetch_merged_prs_for_repo in H.
  rewrite pages_403_forever in H; [discriminate|]. unfold FetchMergeDates.max_pages. lia.
Qed.

(** The first requests of such a run: page 1 again and again, 60 seconds
    apart. *)
Example extractor_rate_limited_thrice :
  pages_loop sample_fromisoformat sample_now "u" "tool"
    (replicate 3 rate_limited ++ [TimeoutExc]) 1 [] []
  = Some (Run [] []
            [Get "u&page=1"; Sleep 60; Get "u&page=1"; Sleep 60;
             Get "u&page=1"; Sleep 60; Get "u&page=1"]).
Proof. reflexivity. Qed.

(** What does hold: [fetch_org_repos] and [fetch_repo_pr_data] return on
    every script of at least 10 (resp. 20) responses, 403s included, having
    issued at most that many requests; [fetch_merged_prs_for_repo] returns on
    every script that holds at least 10 responses other than 403. *)
Theorem fetchers_return :
  (forall org_name s,
      (10 <= length s)%nat ->
      exists r, fetch_org_repos org_name s = Some r /\ (requests (effects r) <= 10)%nat)
  /\ (forall org_name repo_name s,
        (20 <= length s)%nat ->
        exists r, fetch_repo_pr_data org_name repo_name s = Some r
                  /\ (requests (effects r) <= 20)%nat)
  /\ (forall fromisoformat utcnow org_name repo_name days s,
        (10 <= length (without_403 s))%nat ->
        exists r, fetch_merged_prs_for_repo fromisoformat utcnow org_name repo_name days s
                  = Some r).
Proof.
  split; [|split].
  - intros org s Hlen.
    destruct (walk_returns 10 (fun repos => take 5 (PySort.sorted_reverse stars repos))
                s (Some (repos_url org)) 0 [] []) as [r Hr]; [simpl; lia|].
    exists r. split; [done|]. apply walk_requests in Hr. cbn in Hr. lia.
  - intros org repo_name s Hlen.
    destruct (walk_returns 20 (fun prs => prs) s
                (Some (GithubService.pulls_url org repo_name)) 0 [] []) as [r Hr];
      [simpl; lia|].
    exists r. split; [done|]. apply walk_requests in Hr. cbn in Hr. lia.
  - intros fromiso utcnow org repo_name days s Hlen.
    apply pages_returns. unfold FetchMergeDates.max_pages. lia.
Qed.

End FetcherProps.

(** ** The metrics *)
Module MetricsProps.
Import PyStr Http GithubService FetcherProps.

Lemma count_merged_bounds prs : 0 <= count_merged prs <= Z.of_nat (length prs).
Proof.
  unfold count_merged. split; [lia|].
  apply inj_le, length_filter.
Qed.

(** Rounding to thousandths keeps a fraction between 0 and 1 there. *)
Lemma round3_bounds (x : Q) : (0 <= x)%Q -> (x <= 1)%Q -> (0 <= round3 x)%Q /\ (round3 x <= 1)%Q.
Proof.
  destruct x as [n d]. unfold Qle, round3. cbn [Qnum Qden].
  intros H0 H1. rewrite Z.mul_1_r in *. rewrite Z.mul_1_l in H1. cbn [Z.mul] in H0.
  pose proof (Pos2Z.is_pos d) as Hd.
  pose proof (Z.div_mod (n * 1000) (Z.pos d) ltac:(lia)) as Hdm.
  pose proof (Z.mod_pos_bound (n * 1000) (Z.pos d) ltac:(lia)) as Hr.
  assert (0 <= n * 1000 / Z.pos d) as Hq0 by (apply Z.div_pos; lia).
  assert (n * 1000 / Z.pos d <= 1000) as Hq1.
  { apply Z.div_le_upper_bound; lia. }
  destruct (2 * ((n * 1000) mod Z.pos d) <? Z.pos d) eqn:E1; [lia|].
  apply Z.ltb_ge in E1.
  assert (n * 1000 / Z.pos d <= 999) by nia.
  destruct (Z.pos d <? 2 * ((n * 1000) mod Z.pos d)); [lia|].
  destruct (Z.even (n * 1000 / Z.pos d)); lia.
Qed.

(** The loop keeps [0 <= merged_prs <= total_prs]. *)
Lemma metrics_loop_bounds repos : forall s total merged tr r,
  0 <= merged <= total ->
  metrics_loop repos s total merged tr = Some r ->
  0 <= snd (returned r) <= fst (returned r).
Proof.
  induction repos as [|repo repos IH]; intros s total merged tr r Hb; cbn [metrics_loop].
  - by intros [= <-].
  - destruct (fetch_repo_pr_data _ _ s) as [f|]; [|discriminate].
    apply IH. pose proof (count_merged_bounds (returned f)). lia.
Qed.

(** A walk consumes at most as many responses as its budget has units left. *)
Lemma walk_consumes {Item} max_pages on_exit (s : script Item) :
  forall url page_count items tr r,
    walk max_pages on_exit s url page_count items tr = Some r ->
    (length s <= length (remaining r) + (max_pages - page_count))%nat.
Proof.
  induction s as [|o s IH]; intros url pc items tr r; cbn [walk];
    destruct url as [u|]; try (intros [= <-]; cbn [remaining length]; lia);
    destruct (nonempty u); cbn [andb];
    try (intros [= <-]; cbn [remaining length]; lia);
    destruct (Nat.ltb_spec pc max_pages);
    try (intros [= <-]; cbn [remaining length]; lia);
    try discriminate.
  destruct o as [st data next| |];
    try (intros [= <-]; cbn [remaining length]; lia).
  destruct (st =? 403).
  { intros Hr%IH. cbn [length]. lia. }
  destruct (st =? 404); [intros [= <-]; cbn [remaining length]; lia|].
  destruct (negb (st =? 200)); [intros [= <-]; cbn [remaining length]; lia|].
  intros Hr%IH. cbn [length]. lia.
Qed.

Lemma metrics_loop_returns repos : forall s total merged tr,
  (20 * length repos <= length s)%nat ->
  is_Some (metrics_loop repos s total merged tr).
Proof.
  induction repos as [|repo repos IH]; intros s total merged tr Hlen; cbn [metrics_loop].
  - done.
  - cbn [length] in Hlen.
    destruct (walk_returns 20 (fun prs => prs) s
                (Some (GithubService.pulls_url (owner_login repo) (repo_name repo)))
                0 [] []) as [f Hf]; [lia|].
    unfold fetch_repo_pr_data. rewrite Hf.
    apply IH. apply walk_consumes in Hf. lia.
Qed.

(** C10. Whenever [calculate_metrics] returns, [merged_prs <= total_prs] and
    the merge frequency (the exact quotient rounded to thousandths) lies
    between 0 and 1; and it does return on every script that holds 20
    responses per repository. *)
Theorem calculate_metrics_bounds (repos : list repo) (s : script pull) :
  (forall r, calculate_metrics repos s = Some r ->
     0 <= merged_prs (returned r) <= total_prs (returned r)
     /\ (0 <= merge_frequency (returned r))%Q
     /\ (merge_frequency (returned r) <= 1)%Q)
  /\ ((20 * length repos <= length s)%nat -> is_Some (calculate_metrics repos s)).
Proof.
  unfold calculate_metrics. split.
  - intros r. destruct (metrics_loop repos s 0 0 []) as [l|] eqn:El; [|discriminate].
    apply metrics_loop_bounds in El; [|lia].
    destruct (returned l) as [total merged]. cbn [fst snd] in El.
    intros [= <-]. cbn [returned total_prs merged_prs merge_frequency].
    split; [done|]. apply round3_bounds.
    + destruct (Z.ltb_spec 0 total); [|done].
      unfold Qle. cbn [Qnum Qden]. lia.
    + destruct (Z.ltb_spec 0 total); [|done].
      unfold Qle. cbn [Qnum Qden]. rewrite Z2Pos.id by lia. lia.
  - intros Hlen. destruct (metrics_loop_returns repos s 0 0 [] Hlen) as [l ->].
    by destruct (returned l).
Qed.

End MetricsProps.

(** ** Storing merge dates *)
Module MergeDateProps.
Import PyStr Http Py Models FetchMergeDates FetcherProps.

(** The natural key under which a fetched pull request is looked up. *)
Definition lookup_key (org_slug : string) (pr : merged_pr) : natural_key :=
  (org_slug, date (pr_merged_at pr), pr_number pr, pr_repo pr).

(** The natural keys of a fetched batch. *)
Definition batch_keys (org_slug : string) (prs : list merged_pr) : gset natural_key :=
  list_to_set (lookup_key org_slug <$> prs).

(** The row written for a fetched pull request. *)
Definition row_of (utcnow : datetime) (org_slug org_name : string) (pr : merged_pr)
  : MergeDate :=
  {| organization_slug := org_slug;
     organization_name := org_name;
     merge_date := date (pr_merged_at pr);
     merged_at := pr_merged_at pr;
     repository_name := pr_repo pr;
     pull_request_number := pr_number pr;
     created_at := utcnow |}.

(** The pull requests of a batch whose key the table does not hold. *)
Definition absent (org_slug : string) (table : list MergeDate) (prs : list merged_pr)
  : list merged_pr :=
  filter (fun pr => Is_true (negb (existing table (lookup_key org_slug pr)))) prs.

Lemma key_of_row_of utcnow org_slug org_name pr :
  key_of (row_of utcnow org_slug org_name pr) = lookup_key org_slug pr.
Proof. reflexivity. Qed.

Lemma existing_spec table k : existing table k = true <-> k ∈ keys table.
Proof.
  unfold existing, keys. rewrite existsb_exists, elem_of_list_to_set, list_elem_of_fmap.
  split.
  - intros (m & Hm & Hk). apply bool_decide_eq_true in Hk.
    exists m. split; [done|]. by apply list_elem_of_In.
  - intros (m & -> & Hm). exists m. split; [by apply list_elem_of_In|].
    by apply bool_decide_eq_true.
Qed.

Lemma keys_app t1 t2 : keys (t1 ++ t2) = keys t1 ∪ keys t2.
Proof. unfold keys. rewrite fmap_app. apply list_to_set_app_L. Qed.

(** Without storage faults the loop adds the absent pull requests, in order. *)
Lemma check_and_add_fair utcnow org_slug org_name table prs : forall i pending count,
  check_and_add utcnow org_slug org_name fair table prs i pending count
  = Ret (pending ++ (row_of utcnow org_slug org_name <$> absent org_slug table prs),
         count + Z.of_nat (length (absent org_slug table prs))).
Proof.
  induction prs as [|pr prs IH]; intros i pending count; cbn [check_and_add].
  - cbn. by rewrite app_nil_r, Z.add_0_r.
  - cbn [fair lookup_fault]. unfold absent. rewrite filter_cons.
    fold (absent org_slug table prs). fold (lookup_key org_slug pr).
    destruct (existing table (lookup_key org_slug pr)); cbn [negb].
    + destruct (decide (Is_true false)) as [[]|_]. apply IH.
    + destruct (decide (Is_true true)) as [_|[]]; [|done].
      rewrite IH. cbn [fmap list_fmap length]. rewrite <- app_assoc. f_equal. f_equal. lia.
Qed.

(** The table a fault-free session leaves. *)
Lemma store_fair utcnow org_slug org_name table prs :
  store_merge_dates utcnow org_slug org_name fair table prs
  = (Ret (Z.of_nat (length (absent org_slug table prs))),
     table ++ (row_of utcnow org_slug org_name <$> absent org_slug table prs)).
Proof.
  unfold store_merge_dates. rewrite check_and_add_fair. cbn [app fair commit_fault].
  rewrite Z.add_0_l.
  destruct (absent org_slug table prs) as [|pr l]; cbn [length].
  - cbn. by rewrite app_nil_r.
  - destruct (Z.ltb_spec 0 (Z.of_nat (S (length l)))); [done|lia].
Qed.

(** Whatever the faults, a session leaves the table as it was or as the
    fault-free session leaves it. *)
Lemma store_all_or_nothing utcnow org_slug org_name wth table prs :
  let table' := snd (store_merge_dates utcnow org_slug org_name wth table prs) in
  table' = table
  \/ table' = snd (store_merge_dates utcnow org_slug org_name fair table prs).
Proof.
  cbn zeta. rewrite store_fair. cbn [snd]. unfold store_merge_dates.
  destruct (check_and_add utcnow org_slug org_name wth table prs 0 [] 0)
    as [[pending count]|e] eqn:E; [|by left].
  destruct (0 <? count); [|by left].
  destruct (commit_fault wth); [by left|]. right. cbn [snd]. f_equal.
  assert (forall prs i pending0 count0 pending1 count1,
             check_and_add utcnow org_slug org_name wth table prs i pending0 count0
             = Ret (pending1, count1) ->
             pending1 = pending0 ++ (row_of utcnow org_slug org_name
                                       <$> absent org_slug table prs)) as Hgen.
  { clear. induction prs as [|pr prs IH]; intros i p0 c0 p1 c1; cbn [check_and_add].
    - intros [= <- _]. cbn. by rewrite app_nil_r.
    - destruct (lookup_fault wth i); [discriminate|].
      unfold absent. rewrite filter_cons. fold (absent org_slug table prs).
      fold (lookup_key org_slug pr).
      destruct (existing table (lookup_key org_slug pr)); cbn [negb].
      + destruct (decide (Is_true false)) as [[]|_]. apply IH.
      + destruct (decide (Is_true true)) as [_|[]]; [|done].
        intros H%IH. rewrite H. cbn [fmap list_fmap]. by rewrite <- app_assoc. }
  by apply Hgen in E.
Qed.

Lemma keys_absent utcnow org_slug org_name table prs :
  keys table ∪ keys (row_of utcnow org_slug org_name <$> absent org_slug table prs)
  = keys table ∪ batch_keys org_slug prs.
Proof.
  apply set_eq. intros k. rewrite !elem_of_union.
  unfold keys at 2, batch_keys.
  rewrite !elem_of_list_to_set, !list_elem_of_fmap. split.
  - intros [?|(m & -> & (pr & -> & Hpr)%list_elem_of_fmap)]; [by left|right].
    apply list_elem_of_filter in Hpr as [_ Hpr]. by exists pr.
  - intros [?|(pr & -> & Hpr)]; [by left|].
    destruct (existing table (lookup_key org_slug pr)) eqn:E.
    + left. by apply existing_spec.
    + right. exists (row_of utcnow org_slug org_name pr). split; [done|].
      apply list_elem_of_fmap. exists pr. split; [done|].
      apply list_elem_of_filter. split; [|done]. by rewrite E.
Qed.

(** The keys stored after a fault-free session. *)
Lemma keys_store_fair utcnow org_slug org_name table prs :
  keys (snd (store_merge_dates utcnow org_slug org_name fair table prs))
  = keys table ∪ batch_keys org_slug prs.
Proof. rewrite store_fair. cbn [snd]. rewrite keys_app. apply keys_absent. Qed.

Lemma absent_nil_of_subset org_slug table prs :
  batch_keys org_slug prs ⊆ keys table -> absent org_slug table prs = [].
Proof.
  intros Hsub. unfold absent. induction prs as [|pr prs IH]; [done|].
  rewrite filter_cons.
  assert (existing table (lookup_key org_slug pr) = true) as ->.
  { apply existing_spec, Hsub. unfold batch_keys. cbn. set_solver. }
  cbn [negb]. destruct (decide (Is_true false)) as [[]|_].
  apply IH. intros k Hk. apply Hsub. unfold batch_keys in *. cbn. set_solver.
Qed.

(** The batch a run fetches: what lines 119-142 leave in [all_merged_prs]
    (nothing when no repository is found). *)
Definition fetched_batch (fromisoformat : string -> option datetime)
    (utcnow : datetime) (org_slug org_name : string) (days : Z) (w : world)
  : list merged_pr :=
  match GithubService.fetch_org_repos org_slug (repo_net w) with
  | None => []
  | Some rr =>
      match returned rr with
      | [] => []
      | _ =>
          match fetch_repos_prs fromisoformat utcnow org_slug days
                  (take 5 (returned rr)) (pull_net w) []
                  ((trace w ++ [Print (fetching_line org_slug org_name)]) ++ effects rr)
          with
          | None => []
          | Some pr => returned pr
          end
      end
  end.

(** No two pull requests of the batch have the same natural key. *)
Definition distinct_keys (org_slug : string) (prs : list merged_pr) : Prop :=
  NoDup (lookup_key org_slug <$> prs).

(** What a whole run does to the table: nothing, or what a fault-free
    session does with the batch it fetched. *)
Lemma run_table fromisoformat utcnow org_slug org_name days w res w' :
  fetch_merge_dates_for_organization fromisoformat utcnow org_slug org_name days w
  = Some (res, w') ->
  merge_dates w' = merge_dates w
  \/ merge_dates w'
     = snd (store_merge_dates utcnow org_slug org_name fair (merge_dates w)
              (fetched_batch fromisoformat utcnow org_slug org_name days w)).
Proof.
  unfold fetch_merge_dates_for_organization, fetched_batch.
  destruct (GithubService.fetch_org_repos org_slug (repo_net w)) as [rr|]; [|discriminate].
  destruct (returned rr) as [|repo repos]; [intros [= _ <-]; by left|].
  destruct (fetch_repos_prs _ _ _ _ _ _ _ _) as [pr|]; [|discriminate].
  destruct (returned pr) as [|p prs] eqn:Eprs; [intros [= _ <-]; by left|].
  destruct (store_merge_dates _ _ _ _ _ _) as [res0 table] eqn:Estore.
  intros [= _ <-]. cbn [merge_dates].
  pose proof (store_all_or_nothing utcnow org_slug org_name
                (default fair (head (weather w))) (merge_dates w) (p :: prs)) as H.
  cbn zeta in H. rewrite Estore in H. cbn [snd] in H.
  destruct H as [->| ->]; [by left|by right].
Qed.

(** The rows a session queues have the keys of the pull requests they come
    from; on a batch with distinct keys they are distinct, and none of them
    is in the table. *)
Lemma queued_keys utcnow org_slug org_name table prs :
  key_of <$> (row_of utcnow org_slug org_name <$> absent org_slug table prs)
  = lookup_key org_slug <$> absent org_slug table prs.
Proof. rewrite <- list_fmap_compose. by apply list_fmap_ext. Qed.

Lemma queued_keys_distinct utcnow org_slug org_name table prs :
  distinct_keys org_slug prs ->
  NoDup (key_of <$> (row_of utcnow org_slug org_name <$> absent org_slug table prs)).
Proof.
  intros Hd. rewrite queued_keys.
  refine (sublist_NoDup _ _ Hd _). apply fmap_sublist, sublist_filter.
Qed.

Lemma queued_keys_fresh utcnow org_slug org_name table prs :
  Forall (fun m => key_of m ∉ keys table)
    (row_of utcnow org_slug org_name <$> absent org_slug table prs).
Proof.
  apply Forall_forall. intros m (pr & -> & Hpr)%list_elem_of_fmap.
  apply list_elem_of_filter in Hpr as [Hpr _].
  rewrite key_of_row_of, <- existing_spec.
  by destruct (existing table (lookup_key org_slug pr)).
Qed.

Lemma elem_of_keys table k : k ∈ keys table <-> k ∈ key_of <$> table.
Proof. unfold keys. apply elem_of_list_to_set. Qed.

(** Appending rows with distinct keys that the table does not hold keeps
    the keys of the table distinct. *)
Lemma unique_keys_app table new :
  NoDup (key_of <$> table) ->
  Forall (fun m => key_of m ∉ keys table) new ->
  NoDup (key_of <$> new) ->
  NoDup (key_of <$> (table ++ new)).
Proof.
  intros Ht Hfresh Hnew. rewrite fmap_app. apply NoDup_app.
  split; [done|]. split; [|done].
  intros k Hk (m & -> & Hm)%list_elem_of_fmap.
  rewrite Forall_forall in Hfresh. apply (Hfresh m Hm). by apply elem_of_keys.
Qed.

(** A fault-free session on a batch with distinct keys keeps the keys of
    the table distinct. *)
Lemma store_fair_unique utcnow org_slug org_name table prs :
  distinct_keys org_slug prs ->
  NoDup (key_of <$> table) ->
  NoDup (key_of <$> snd (store_merge_dates utcnow org_slug org_name fair table prs)).
Proof.
  intros Hd Ht. rewrite store_fair. cbn [snd].
  apply unique_keys_app; [done|apply queued_keys_fresh|by apply queued_keys_distinct].
Qed.

(** C1, as the code has it, for runs whose fetched batch holds no two pull
    requests with the same natural key.

    Whatever the storage faults, such a run adds a row only under a natural
    key that no row has, neither a row of the table before the run nor
    another row the run adds; so a table whose natural keys are distinct
    keeps them distinct.

    When the commits succeed, the set of natural keys stored after two such
    runs is the union of the sets stored after each run alone, and the keys
    are still distinct.  When the two runs fetched pull requests with the
    same natural keys, the second run inserts nothing: the table after both
    runs is the table after the first, and it holds the same keys, each
    once, as the table after the second run alone.  Running again on the
    pull requests already fetched inserts no row. *)
Theorem merge_date_ingestion_idempotent :
  (forall fromisoformat utcnow org_slug org_name days w res w',
      fetch_merge_dates_for_organization fromisoformat utcnow org_slug org_name days w
      = Some (res, w') ->
      distinct_keys org_slug
        (fetched_batch fromisoformat utcnow org_slug org_name days w) ->
      exists new,
        merge_dates w' = merge_dates w ++ new
        /\ Forall (fun m => key_of m ∉ keys (merge_dates w)) new
        /\ NoDup (key_of <$> new)
        /\ (NoDup (key_of <$> merge_dates w) -> NoDup (key_of <$> merge_dates w')))
  /\ (forall utcnow1 utcnow2 org_slug name1 name2 table batch1 batch2,
        distinct_keys org_slug batch1 ->
        distinct_keys org_slug batch2 ->
        NoDup (key_of <$> table) ->
        let after1 := snd (store_merge_dates utcnow1 org_slug name1 fair table batch1) in
        let after2 := snd (store_merge_dates utcnow2 org_slug name2 fair table batch2) in
        let after_both :=
          snd (store_merge_dates utcnow2 org_slug name2 fair after1 batch2) in
        keys after_both = keys after1 ∪ keys after2
        /\ NoDup (key_of <$> after_both)
        /\ (batch_keys org_slug batch1 = batch_keys org_slug batch2 ->
            after_both = after1
            /\ keys after_both = keys after1
            /\ keys after_both = keys after2
            /\ key_of <$> after_both ≡ₚ key_of <$> after2)
        /\ store_merge_dates utcnow2 org_slug name2 fair after1 batch1 = (Ret 0, after1)).
Proof.
  split.
  - intros fromiso utcnow org_slug org_name days w res w' Hrun Hd.
    apply run_table in Hrun as [->| ->].
    + exists []. rewrite app_nil_r. repeat split; try done; constructor.
    + rewrite store_fair. cbn [snd]. eexists. split; [done|].
      split; [apply queued_keys_fresh|].
      split; [by apply queued_keys_distinct|].
      intros Ht. apply unique_keys_app;
        [done|apply queued_keys_fresh|by apply queued_keys_distinct].
  - intros u1 u2 org_slug n1 n2 table b1 b2 Hd1 Hd2 Ht. cbn zeta.
    assert (NoDup (key_of <$> snd (store_merge_dates u1 org_slug n1 fair table b1)))
      as H1 by (by apply store_fair_unique).
    assert (NoDup (key_of <$> snd (store_merge_dates u2 org_slug n2 fair table b2)))
      as H2 by (by apply store_fair_unique).
    split; [rewrite !keys_store_fair; set_solver|].
    split; [by apply store_fair_unique|].
    split.
    + intros Hsame.
      assert (snd (store_merge_dates u2 org_slug n2 fair
                     (snd (store_merge_dates u1 org_slug n1 fair table b1)) b2)
              = snd (store_merge_dates u1 org_slug n1 fair table b1)) as Hboth.
      { rewrite (store_fair u2). cbn [snd].
        rewrite (absent_nil_of_subset org_slug _ b2); [by rewrite app_nil_r|].
        rewrite keys_store_fair. set_solver. }
      rewrite Hboth. split; [done|]. split; [done|].
      assert (keys (snd (store_merge_dates u1 org_slug n1 fair table b1))
              = keys (snd (store_merge_dates u2 org_slug n2 fair table b2))) as Hk.
      { rewrite !keys_store_fair. by rewrite Hsame. }
      split; [done|].
      apply NoDup_Permutation; [done|done|].
      intros k. rewrite <- !elem_of_keys. by rewrite Hk.
    + rewrite store_fair.
      rewrite (absent_nil_of_subset org_slug _ b1).
      * cbn. by rewrite app_nil_r.
      * rewrite keys_store_fair. set_solver.
Qed.

(** Two runs on the last day of May 2024 against the same repository, the
    first looking back 3 days, the second 10 days. *)
Definition sample_world (table : list MergeDate) : world :=
  {| repo_net := [Response 200 [sample_repo] None];
     pull_net := [Response 200 [sample_pull 60 "2024-05-30T10:00:00Z";
                                sample_pull 59 "2024-05-25T10:00:00Z"] None];
     merge_dates := table;
     weather := [];
     trace := [] |}.

(** The table a run leaves. *)
Definition table_after (out : option (result Z * world)) : list MergeDate :=
  match out with
  | Some (_, w) => merge_dates w
  | None => []
  end.

Definition after_first : list MergeDate :=
  table_after (fetch_merge_dates_for_organization sample_fromisoformat sample_now
                 "acme" "Acme" 3 (sample_world [])).

Definition after_both : list MergeDate :=
  table_after (fetch_merge_dates_for_organization sample_fromisoformat sample_now
                 "acme" "Acme" 10 (sample_world after_first)).

(** C1 as stated fails: the second run, whose window overlaps the first and
    holds one more pull request, stores a key that the first run alone does
    not. *)
Lemma overlapping_windows_counterexample :
  key_of <$> after_first = [("acme", 19873, Some 60, "tool")]
  /\ key_of <$> after_both
     = [("acme", 19873, Some 60, "tool"); ("acme", 19868, Some 59, "tool")]
  /\ keys after_both <> keys after_first.
Proof.
  split; [reflexivity|]. split; [reflexivity|].
  replace after_both
    with (after_first
          ++ [row_of sample_now "acme" "Acme" (sample_entry 59 19868)])
    by reflexivity.
  rewrite keys_app. intros H.
  assert (key_of (row_of sample_now "acme" "Acme" (sample_entry 59 19868))
            ∈ keys after_first) as Hin.
  { rewrite <- H. apply elem_of_union_r. unfold keys. cbn. set_solver. }
  unfold keys in Hin. apply elem_of_list_to_set in Hin.
  replace (key_of <$> after_first) with [("acme", 19873, Some 60, "tool")] in Hin
    by reflexivity.
  apply list_elem_of_singleton in Hin. discriminate.
Qed.

(** The second of the two runs, on the table the first one left: its batch
    has distinct keys, it adds the one row that was missing, and the keys
    of the table stay distinct. *)
Lemma merge_date_ingestion_idempotent_witness :
  exists res w' new,
    fetch_merge_dates_for_organization sample_fromisoformat sample_now
      "acme" "Acme" 10 (sample_world after_first) = Some (res, w')
    /\ distinct_keys "acme"
         (fetched_batch sample_fromisoformat sample_now "acme" "Acme" 10
            (sample_world after_first))
    /\ merge_dates w' = after_first ++ new
    /\ Forall (fun m => key_of m ∉ keys after_first) new
    /\ NoDup (key_of <$> new)
    /\ NoDup (key_of <$> merge_dates w').
Proof.
  destruct (fetch_merge_dates_for_organization sample_fromisoformat sample_now
              "acme" "Acme" 10 (sample_world after_first)) as [[res w']|] eqn:E;
    [|vm_compute in E; discriminate].
  assert (distinct_keys "acme"
            (fetched_batch sample_fromisoformat sample_now "acme" "Acme" 10
               (sample_world after_first))) as Hd.
  { apply (bool_decide_unpack _). vm_compute. exact I. }
  assert (NoDup (key_of <$> merge_dates (sample_world after_first))) as Ht.
  { apply (bool_decide_unpack _). vm_compute. exact I. }
  destruct (proj1 merge_date_ingestion_idempotent sample_fromisoformat sample_now
              "acme" "Acme" 10 (sample_world after_first) res w' E Hd)
    as (new & Hnew & Hfresh & Hdist & Hkeep).
  exists res, w', new. split; [reflexivity|]. split; [exact Hd|].
  split; [exact Hnew|]. split; [exact Hfresh|]. split; [exact Hdist|exact (Hkeep Ht)].
Defined.

(** The batches left out above.  The duplicate check reads the table only
    (the session is built with [autoflush=False], so the rows added earlier
    in the session are not seen): a pull request that occurs twice in one
    fetched batch is stored twice. *)
Lemma duplicate_within_batch :
  key_of <$> snd (store_merge_dates sample_now "acme" "Acme" fair []
                    [sample_entry 60 19873; sample_entry 60 19873])
  = [("acme", 19873, Some 60, "tool"); ("acme", 19873, Some 60, "tool")].
Proof. reflexivity. Qed.

End MergeDateProps.

(** ** The metrics updater *)
Module UpdaterProps.
Import PyStr Http Py Models Stmt UpdateGithubMetrics.

(** The exception a fault raises. *)
Definition fault_exn (f : attempt_fault) : option exn :=
  match f with
  | NoFault => None
  | QueryFault e => Some e
  | CommitFault e => Some e
  end.

(** The fault that meets the [i]-th attempt from now. *)
Definition nth_fault (w : updater_world) (i : nat) : attempt_fault :=
  default NoFault (faults w !! i).

(** The effects of [n] failed attempts that are retried. *)
Definition retried (n : nat) : list event :=
  concat (replicate n [Sleep 5; Print "Retrying..."]).

Definition gave_up (display_name : string) : list event :=
  [Sleep 5; Print ("ERROR: Failed to update " +:+ display_name +:+ " after retries.")].

(** What the persist step of one organization does, as a function of the
    faults that meet its attempts. *)
Definition persist_outcome (utcnow : datetime) (github_slug display_name : string)
    (data : org_data) (w w' : updater_world) (k : nat) : Prop :=
  match fault_exn (nth_fault w (k - 1)) with
  | None =>
      github_metrics w' = upsert github_slug display_name data (github_metrics w)
      /\ historical_metrics w'
         = historical_metrics w ++ [historical_entry utcnow github_slug display_name data]
      /\ journal w' = journal w ++ retried (k - 1) ++ [Print ("Updated " +:+ display_name)]
  | Some OperationalError =>
      k = 3%nat
      /\ github_metrics w' = github_metrics w
      /\ historical_metrics w' = historical_metrics w
      /\ journal w' = journal w ++ retried 2 ++ gave_up display_name
  | Some _ =>
      github_metrics w' = github_metrics w
      /\ historical_metrics w' = historical_metrics w
      /\ journal w' = journal w ++ retried (k - 1)
  end.

(** Close one case of the analysis on the faults, with [k] attempts made. *)
Ltac settle k :=
  split; [done|]; exists k;
  split; [lia|]; split; [done|]; split;
  [ intros i Hi; destruct i as [|[|i]]; try lia; done
  | unfold persist_outcome; cbn; repeat split; try done;
    rewrite <- ?app_assoc, ?app_nil_r; done ].

(** C9. The persist step of one organization never raises and makes [k]
    attempts with [1 <= k <= 3]: every attempt but the last met an
    [OperationalError] and was followed by a 5 second sleep and a retry; if
    the last attempt met no fault, the [github_metrics] upsert and the
    [historical_metrics] row are committed together; if it met another error,
    no further attempt is made and both tables are as before; if it met an
    [OperationalError], it was the third attempt, the step sleeps 5 seconds
    once more and gives up with both tables as before. *)
Theorem persist_step (utcnow : datetime) (github_slug display_name : string)
    (data : org_data) (w : updater_world) :
  let out := retry_loop utcnow github_slug display_name data 3 (seq 0 3) w in
  fst out = Ret tt
  /\ exists k,
       (1 <= k <= 3)%nat
       /\ faults (snd out) = drop k (faults w)
       /\ (forall i, (i < k - 1)%nat -> fault_exn (nth_fault w i) = Some OperationalError)
       /\ persist_outcome utcnow github_slug display_name data w (snd out) k.
Proof.
  destruct w as [gm hm fs tr]. cbn zeta.
  destruct fs as [|f1 fs]; [settle 1%nat|].
  destruct f1 as [|e1|e1]; try destruct e1; try settle 1%nat.
  all: destruct fs as [|f2 fs]; [settle 2%nat|].
  all: destruct f2 as [|e2|e2]; try destruct e2; try settle 2%nat.
  all: destruct fs as [|f3 fs]; [settle 3%nat|].
  all: destruct f3 as [|e3|e3]; try destruct e3; settle 3%nat.
Qed.

(** *** The batch *)

Definition is_processing (e : event) : bool :=
  match e with
  | Print line => String.prefix "Processing " line
  | _ => false
  end.

(** The progress lines of a journal. *)
Definition progress (tr : list event) : list event :=
  filter (fun e => Is_true (is_processing e)) tr.

Definition processing_line (o : Helper.org) : event :=
  Print ("Processing [" +:+ str_of_Z (Helper.id o) +:+ "] " +:+ Helper.display_name o
         +:+ " (" +:+ Helper.github_slug o +:+ ")...").

(** The organizations the loop of [update_github_data] runs over. *)
Definition selected urlparse (start_from_id : option Z) (table : list Helper.gsoc_row)
  : list Helper.org :=
  let orgs := Helper.get_organization_list urlparse start_from_id table in
  match start_from_id with
  | Some k => if k =? 0 then orgs else filter (fun o => k ≤ Helper.id o) orgs
  | None => orgs
  end.

Lemma prefix_append s t : String.prefix s (s +:+ t) = true.
Proof.
  induction s as [|a s IH].
  - by destruct t.
  - rewrite PyStrFacts.append_cons. cbn [String.prefix].
    by destruct (ascii_dec a a).
Qed.

Lemma is_processing_line org : is_processing (processing_line org) = true.
Proof.
  apply (prefix_append "Processing "
           ("[" +:+ str_of_Z (Helper.id org) +:+ "] " +:+ Helper.display_name org
            +:+ " (" +:+ Helper.github_slug org +:+ ")...")).
Qed.

Lemma progress_snoc tr e :
  progress (tr ++ [e]) = progress tr ++ (if is_processing e then [e] else []).
Proof.
  unfold progress. rewrite filter_app. f_equal.
  rewrite filter_cons, filter_nil. destruct (is_processing e); by case_decide.
Qed.

Lemma emit_run e w :
  emit e w = (Ret tt, {| github_metrics := github_metrics w;
                         historical_metrics := historical_metrics w;
                         faults := faults w;
                         journal := journal w ++ [e] |}).
Proof. reflexivity. Qed.

(** One iteration of the retry loop, by the fault that meets it. *)
Lemma retry_loop_cons utcnow github_slug display_name data retries attempt attempts w :
  retry_loop utcnow github_slug display_name data retries (attempt :: attempts) w
  = match fault_exn (default NoFault (head (faults w))) with
    | None =>
        (Ret tt,
         {| github_metrics := upsert github_slug display_name data (github_metrics w);
            historical_metrics :=
              historical_metrics w
              ++ [historical_entry utcnow github_slug display_name data];
            faults := tail (faults w);
            journal := journal w ++ [Print ("Updated " +:+ display_name)] |})
    | Some OperationalError =>
        retry_loop utcnow github_slug display_name data retries attempts
          {| github_metrics := github_metrics w;
             historical_metrics := historical_metrics w;
             faults := tail (faults w);
             journal := (journal w ++ [Sleep 5])
                      ++ [if (attempt <? retries - 1)%nat
                          then Print "Retrying..."
                          else Print ("ERROR: Failed to update "
                                      +:+ display_name +:+ " after retries.")] |}
    | Some _ =>
        (Ret tt,
         {| github_metrics := github_metrics w;
            historical_metrics := historical_metrics w;
            faults := tail (faults w);
            journal := journal w |})
    end.
Proof.
  destruct w as [gm hm [|f fs] tr]; [reflexivity|].
  destruct f as [|e|e]; try destruct e; try reflexivity;
    cbn -[Nat.ltb Nat.sub]; destruct (attempt <? retries - 1)%nat; reflexivity.
Qed.

(** The persist step never raises and prints no progress line. *)
Lemma retry_loop_quiet utcnow github_slug display_name data retries attempts :
  forall w,
    let out := retry_loop utcnow github_slug display_name data retries attempts w in
    fst out = Ret tt /\ progress (journal (snd out)) = progress (journal w).
Proof.
  induction attempts as [|attempt attempts IH]; intros w; cbn zeta; [done|].
  rewrite retry_loop_cons.
  destruct (fault_exn (default NoFault (head (faults w)))) as [[| |]|]; cbn [fst snd journal].
  - specialize (IH {| github_metrics := github_metrics w;
                      historical_metrics := historical_metrics w;
                      faults := tail (faults w);
                      journal := (journal w ++ [Sleep 5])
                               ++ [if (attempt <? retries - 1)%nat
                                   then Print "Retrying..."
                                   else Print ("ERROR: Failed to update "
                                               +:+ display_name +:+ " after retries.")] |}).
    cbn zeta in IH. destruct IH as [-> ->]. split; [done|]. cbn [journal].
    rewrite !progress_snoc.
    destruct (attempt <? retries - 1)%nat; cbn; by rewrite !app_nil_r.
  - done.
  - done.
  - split; [done|]. rewrite progress_snoc. cbn. by rewrite app_nil_r.
Qed.

Section Batch.
Variable urlparse : string -> GithubUrl.parsed_url.
Variable future_result : string -> fetch_outcome.
Variable utcnow : datetime.

(** The loop body, by the outcome of the guarded fetch. *)
Lemma process_org_unfold org w :
  process_org future_result utcnow org w
  = let w1 := {| github_metrics := github_metrics w;
                 historical_metrics := historical_metrics w;
                 faults := faults w;
                 journal := journal w ++ [processing_line org] |} in
    match future_result (Helper.github_slug org) with
    | Returned (Some data) =>
        retry_loop utcnow (Helper.github_slug org) (Helper.display_name org)
          data 3 (seq 0 3) w1
    | _ => (Ret tt, w1)
    end.
Proof.
  unfold process_org, bind, try_except, fetch_with_timeout.
  rewrite emit_run.
  by destruct (future_result (Helper.github_slug org)) as [|e|[data|]].
Qed.

(** Whatever the guarded fetch and the storage do, the loop body returns
    normally, having printed the organization's progress line. *)
Lemma process_org_returns org w :
  let out := process_org future_result utcnow org w in
  fst out = Ret tt
  /\ progress (journal (snd out)) = progress (journal w) ++ [processing_line org].
Proof.
  cbn zeta. rewrite process_org_unfold. cbn zeta.
  set (w1 := {| github_metrics := github_metrics w;
                historical_metrics := historical_metrics w;
                faults := faults w;
                journal := journal w ++ [processing_line org] |}).
  assert (progress (journal w1) = progress (journal w) ++ [processing_line org]) as Hw1.
  { unfold w1. cbn [journal]. by rewrite progress_snoc, is_processing_line. }
  destruct (future_result (Helper.github_slug org)) as [|e|[data|]]; try done.
  pose proof (retry_loop_quiet utcnow (Helper.github_slug org)
                (Helper.display_name org) data 3 (seq 0 3) w1) as Hq.
  cbn zeta in Hq. destruct Hq as [Hret Hprog].
  split; [exact Hret|]. by rewrite Hprog.
Qed.

Lemma for_each_org_returns orgs : forall w,
  let out := for_each_org future_result utcnow orgs w in
  fst out = Ret tt
  /\ progress (journal (snd out)) = progress (journal w) ++ (processing_line <$> orgs).
Proof.
  induction orgs as [|org orgs IH]; intros w; cbn zeta.
  - cbn. by rewrite app_nil_r.
  - cbn [for_each_org]. unfold bind.
    pose proof (process_org_returns org w) as Hp. cbn zeta in Hp.
    destruct (process_org future_result utcnow org w) as [res w1].
    cbn [fst snd] in Hp. destruct Hp as [-> Hp].
    specialize (IH w1). cbn zeta in IH. destruct IH as [Hret Hprog].
    split; [exact Hret|]. rewrite Hprog, Hp. cbn. by rewrite <- app_assoc.
Qed.

(** On a table whose URLs parse, the updater returns normally whatever the
    guarded fetches and the storage do, having run its loop body for every
    organization of its list, in order. *)
Lemma update_github_data_returns start_from_id table w :
  let out := update_github_data urlparse future_result utcnow start_from_id table w in
  fst out = Ret tt
  /\ progress (journal (snd out))
     = progress (journal w) ++ (processing_line <$> selected urlparse start_from_id table).
Proof.
  cbn zeta. unfold update_github_data. fold (selected urlparse start_from_id table).
  unfold bind.
  pose proof (for_each_org_returns (selected urlparse start_from_id table) w) as Hf.
  cbn zeta in Hf.
  destruct (for_each_org _ _ _ w) as [res w1]. cbn [fst snd] in Hf.
  destruct Hf as [-> Hf]. rewrite emit_run. cbn [fst snd journal].
  split; [done|]. by rewrite progress_snoc, app_nil_r.
Qed.

End Batch.

(** Three organizations: the fetch of the first times out, the second
    succeeds, the third yields no data.  One row is written to each table. *)
Definition three_rows : list Helper.gsoc_row :=
  [ {| Helper.row_id := 1; Helper.row_name := Some "Alpha";
       Helper.row_github_url := Some "https://github.com/alpha";
       Helper.row_slug := None |};
    {| Helper.row_id := 2; Helper.row_name := Some "Beta";
       Helper.row_github_url := Some "https://github.com/orgs/Beta/people";
       Helper.row_slug := None |};
    {| Helper.row_id := 3; Helper.row_name := Some "Gamma";
       Helper.row_github_url := None;
       Helper.row_slug := Some "/gamma/" |} ].

Definition beta_data : org_data :=
  {| followers := Some 10; public_repos := Some 4; bio := None;
     data_fetched_at := {| dt_day := 19874; dt_time := 0; tzinfo := None |};
     data_total_prs := 8; data_merged_prs := 6;
     data_merge_frequency := (750 # 1000)%Q |}.

Definition three_outcomes (github_slug : string) : fetch_outcome :=
  if String.eqb github_slug "alpha" then TimedOut
  else if String.eqb github_slug "beta" then Returned (Some beta_data)
  else Returned None.

Example three_organizations :
  let out :=
    update_github_data NormalizerProps.sample_urlparse three_outcomes
      {| dt_day := 19874; dt_time := 0; tzinfo := None |} None three_rows
      {| github_metrics := []; historical_metrics := []; faults := [];
         journal := [] |} in
  fst out = Ret tt
  /\ gm_slug <$> github_metrics (snd out) = ["beta"]
  /\ hm_organization_slug <$> historical_metrics (snd out) = ["beta"]
  /\ journal (snd out)
     = [ Print "Processing [1] Alpha (alpha)...";
         Print "Processing [2] Beta (beta)...";
         Print "Updated Beta";
         Print "Processing [3] Gamma (gamma)...";
         Print "All organizations processed." ].
Proof. repeat split; reflexivity. Qed.

End UpdaterProps.

(** ** The merge-date batch *)
Module MergeDateBatchProps.
Import PyStr Http Py Models GithubService FetchMergeDates FetcherProps MetricsProps.

Definition is_print (e : event) : bool :=
  match e with
  | Print _ => true
  | _ => false
  end.

(** The lines a trace prints. *)
Definition prints (tr : list event) : list event :=
  filter (fun e => Is_true (is_print e)) tr.

Lemma prints_app tr1 tr2 : prints (tr1 ++ tr2) = prints tr1 ++ prints tr2.
Proof. apply filter_app. Qed.

Lemma prints_snoc_quiet tr e : is_print e = false -> prints (tr ++ [e]) = prints tr.
Proof.
  intros He. rewrite prints_app. unfold prints at 2.
  rewrite filter_cons, filter_nil, He.
  case_decide; [done|]. apply app_nil_r.
Qed.

(** The fetchers print nothing. *)
Lemma walk_prints {Item} max_pages on_exit (s : script Item) :
  forall url page_count items tr r,
    walk max_pages on_exit s url page_count items tr = Some r ->
    prints (effects r) = prints tr.
Proof.
  induction s as [|o s IH]; intros url pc items tr r; cbn [walk];
    destruct url as [u|]; try (by intros [= <-]);
    destruct (nonempty u && (pc <? max_pages)%nat); try (by intros [= <-]);
    try discriminate.
  destruct o as [st data next| |];
    try (intros [= <-]; cbn [effects]; by rewrite prints_snoc_quiet).
  destruct (st =? 403).
  { intros ->%IH. by rewrite !prints_snoc_quiet. }
  destruct (st =? 404); [intros [= <-]; cbn [effects]; by rewrite prints_snoc_quiet|].
  destruct (negb (st =? 200));
    [intros [= <-]; cbn [effects]; by rewrite prints_snoc_quiet|].
  intros ->%IH. by rewrite !prints_snoc_quiet.
Qed.

Section WithParser.
Variable fromisoformat : string -> option datetime.

Lemma pages_loop_prints cutoff_date url repo_name s :
  forall page merged_prs tr r,
    pages_loop fromisoformat cutoff_date url repo_name s page merged_prs tr = Some r ->
    prints (effects r) = prints tr.
Proof.
  induction s as [|o s IH]; intros page merged tr r; cbn [pages_loop];
    destruct (page <=? max_pages)%nat; try (by intros [= <-]); try discriminate.
  destruct o as [st prs next| |];
    try (intros [= <-]; cbn [effects]; by rewrite prints_snoc_quiet).
  destruct (st =? 403).
  { intros ->%IH. by rewrite !prints_snoc_quiet. }
  destruct (st =? 404); [intros [= <-]; cbn [effects]; by rewrite prints_snoc_quiet|].
  destruct (negb (st =? 200));
    [intros [= <-]; cbn [effects]; by rewrite prints_snoc_quiet|].
  destruct prs as [|pr prs];
    [intros [= <-]; cbn [effects]; by rewrite prints_snoc_quiet|].
  destruct (scan_page _ _ _ _ _) as [merged' stop].
  destruct stop; [intros [= <-]; cbn [effects]; by rewrite prints_snoc_quiet|].
  destruct next; [|intros [= <-]; cbn [effects]; by rewrite prints_snoc_quiet].
  intros ->%IH. by rewrite !prints_snoc_quiet.
Qed.

(** A page loop consumes at most as many responses other than 403 as it has
    pages left. *)
Lemma pages_loop_consumes cutoff_date url repo_name s :
  forall page merged_prs tr r,
    pages_loop fromisoformat cutoff_date url repo_name s page merged_prs tr = Some r ->
    (length (without_403 s)
     <= length (without_403 (remaining r)) + (S max_pages - page))%nat.
Proof.
  induction s as [|o s IH]; intros page merged tr r; cbn [pages_loop];
    destruct (Nat.leb_spec page max_pages);
    try (intros [= <-]; cbn [remaining]; lia); try discriminate.
  rewrite without_403_cons.
  destruct o as [st prs next| |]; cbn [is_403];
    try (intros [= <-]; cbn [remaining length]; lia).
  destruct (st =? 403).
  { intros Hr%IH. lia. }
  destruct (st =? 404); [intros [= <-]; cbn [remaining length]; lia|].
  destruct (negb (st =? 200)); [intros [= <-]; cbn [remaining length]; lia|].
  destruct prs as [|pr prs]; [intros [= <-]; cbn [remaining length]; lia|].
  destruct (scan_page _ _ _ _ _) as [merged' stop].
  destruct stop; [intros [= <-]; cbn [remaining length]; lia|].
  destruct next; [|intros [= <-]; cbn [remaining length]; lia].
  intros Hr%IH. cbn [length]. lia.
Qed.

Lemma fetch_repos_prs_prints utcnow org_slug days repos :
  forall s all_merged_prs tr r,
    fetch_repos_prs fromisoformat utcnow org_slug days repos s all_merged_prs tr = Some r ->
    prints (effects r) = prints tr.
Proof.
  induction repos as [|repo repos IH]; intros s acc tr r; cbn [fetch_repos_prs].
  - by intros [= <-].
  - destruct (fetch_merged_prs_for_repo _ _ _ _ _ s) as [f|] eqn:Ef; [|discriminate].
    intros ->%IH. apply pages_loop_prints in Ef.
    rewrite app_assoc, prints_snoc_quiet by done.
    by rewrite prints_app, Ef, app_nil_r.
Qed.

Lemma fetch_repos_prs_returns utcnow org_slug days repos :
  forall s all_merged_prs tr,
    (10 * length repos <= length (without_403 s))%nat ->
    exists r,
      fetch_repos_prs fromisoformat utcnow org_slug days repos s all_merged_prs tr = Some r
      /\ (length (without_403 s)
          <= length (without_403 (remaining r)) + 10 * length repos)%nat.
Proof.
  induction repos as [|repo repos IH]; intros s acc tr Hlen; cbn [fetch_repos_prs].
  - eexists. split; [done|]. cbn [remaining length]. lia.
  - cbn [length] in Hlen.
    destruct (pages_returns fromisoformat (minus_days utcnow days)
                (FetchMergeDates.updated_pulls_url org_slug (repo_name repo)) (repo_name repo)
                s 1 [] []) as [f Hf]; [unfold max_pages; lia|].
    unfold fetch_merged_prs_for_repo. rewrite Hf.
    apply pages_loop_consumes in Hf as Hc. unfold max_pages in Hc.
    destruct (IH (remaining f) (acc ++ returned f) (tr ++ effects f ++ [Sleep 1]))
      as (r & Hr & Hrc); [lia|].
    exists r. split; [done|]. cbn [length]. lia.
Qed.

Definition fetching_event (org : string * string) : event :=
  Print (fetching_line (fst org) (snd org)).

(** The organizations the loop of [fetch_all_merge_dates] runs over. *)
Definition listed (start_from_id : option Z) (github_metrics : list GitHubMetrics)
  : list (string * string) :=
  (fun g => (gm_slug g, gm_name g))
  <$> match start_from_id with
      | Some k =>
          if k =? 0 then github_metrics
          else filter (fun g => k ≤ gm_id g) github_metrics
      | None => github_metrics
      end.

(** A run for one organization prints its progress line and nothing else. *)
Lemma org_run_prints utcnow org_slug org_name days w res w' :
  fetch_merge_dates_for_organization fromisoformat utcnow org_slug org_name days w
  = Some (res, w') ->
  prints (trace w') = prints (trace w) ++ [fetching_event (org_slug, org_name)].
Proof.
  unfold fetch_merge_dates_for_organization.
  assert (prints (trace w ++ [Print (fetching_line org_slug org_name)])
          = prints (trace w) ++ [fetching_event (org_slug, org_name)]) as H0.
  { by rewrite prints_app. }
  destruct (fetch_org_repos org_slug (repo_net w)) as [rr|] eqn:Err; [|discriminate].
  apply walk_prints in Err. cbn [prints filter] in Err.
  assert (prints ((trace w ++ [Print (fetching_line org_slug org_name)]) ++ effects rr)
          = prints (trace w) ++ [fetching_event (org_slug, org_name)]) as H1.
  { rewrite prints_app, H0, Err. apply app_nil_r. }
  destruct (returned rr) as [|repo repos]; [by intros [= _ <-]|].
  destruct (fetch_repos_prs _ _ _ _ _ _ _ _) as [pr|] eqn:Epr; [|discriminate].
  apply fetch_repos_prs_prints in Epr. rewrite H1 in Epr.
  destruct (returned pr) as [|p prs]; [by intros [= _ <-]|].
  destruct (store_merge_dates _ _ _ _ _ _) as [res0 table].
  by intros [= _ <-].
Qed.

(** It returns when ten repository responses and fifty pull-request
    responses other than 403 are at hand, and consumes no more than that. *)
Lemma org_run_returns utcnow org_slug org_name days w :
  (10 <= length (repo_net w))%nat ->
  (50 <= length (without_403 (pull_net w)))%nat ->
  exists res w',
    fetch_merge_dates_for_organization fromisoformat utcnow org_slug org_name days w
    = Some (res, w')
    /\ (length (repo_net w) <= length (repo_net w') + 10)%nat
    /\ (length (without_403 (pull_net w))
        <= length (without_403 (pull_net w')) + 50)%nat.
Proof.
  intros Hrepo Hpull. unfold fetch_merge_dates_for_organization.
  destruct (walk_returns 10 (fun repos => take 5 (PySort.sorted_reverse stars repos))
              (repo_net w) (Some (repos_url org_slug)) 0 [] []) as [rr Hrr]; [lia|].
  unfold fetch_org_repos. rewrite Hrr. apply walk_consumes in Hrr as Hc.
  destruct (returned rr) as [|repo repos] eqn:Erepos.
  { eexists _, _. split; [done|]. cbn [repo_net pull_net]. lia. }
  assert (length (take 5 (repo :: repos)) <= 5)%nat as H5
      by (rewrite length_take; lia).
  destruct (fetch_repos_prs_returns utcnow org_slug days (take 5 (repo :: repos))
              (pull_net w) []
              ((trace w ++ [Print (fetching_line org_slug org_name)]) ++ effects rr))
    as (pr & Hpr & Hpc); [lia|].
  rewrite Hpr.
  destruct (returned pr) as [|p prs].
  { eexists _, _. split; [done|]. cbn [repo_net pull_net]. lia. }
  destruct (store_merge_dates _ _ _ _ _ _) as [res0 table].
  eexists _, _. split; [done|]. cbn [repo_net pull_net]. lia.
Qed.

(** The batch loop never raises and visits every organization. *)
Lemma merge_dates_loop_visits utcnow days orgs : forall total w res w',
  merge_dates_loop fromisoformat utcnow days orgs total w = Some (res, w') ->
  (exists n, res = Ret n)
  /\ prints (trace w') = prints (trace w) ++ (fetching_event <$> orgs).
Proof.
  induction orgs as [|[slug name] orgs IH]; intros total w res w'; cbn [merge_dates_loop].
  - intros [= <- <-]. split; [by eexists|]. cbn. by rewrite app_nil_r.
  - destruct (fetch_merge_dates_for_organization _ _ _ _ _ w) as [[r w1]|] eqn:E;
      [|discriminate].
    apply org_run_prints in E.
    destruct r as [count|e]; intros [Hres Hpr]%IH; (split; [done|]);
      rewrite Hpr, E; cbn; by rewrite <- app_assoc.
Qed.

Lemma merge_dates_loop_returns utcnow days orgs : forall total w,
  (10 * length orgs <= length (repo_net w))%nat ->
  (50 * length orgs <= length (without_403 (pull_net w)))%nat ->
  is_Some (merge_dates_loop fromisoformat utcnow days orgs total w).
Proof.
  induction orgs as [|[slug name] orgs IH]; intros total w Hrepo Hpull;
    cbn [merge_dates_loop]; [done|].
  cbn [length] in Hrepo, Hpull.
  destruct (org_run_returns utcnow slug name days w) as (res & w1 & -> & Hr & Hp);
    [lia|lia|].
  destruct res; apply IH; lia.
Qed.

End WithParser.

End MergeDateBatchProps.

(** ** The two batch entry points *)
Module BatchProps.
Import PyStr Http Py Models GithubService FetchMergeDates FetcherProps.

Lemma insert_desc_cons {A} (key : A -> Z) (x : A) (l : list A) :
  exists y l', PySort.insert_desc key x l = y :: l'.
Proof. destruct l as [|z l]; cbn; [|destruct (_ <=? _)]; by eexists _, _. Qed.

(** A listing answered in one page with at least one repository gives
    [fetch_org_repos] something to return. *)
Lemma one_page_listing org_name repo repos more :
  exists r0 rest tr,
    fetch_org_repos org_name (Response 200 (repo :: repos) None :: more)
    = Some (Run (r0 :: rest) more tr).
Proof.
  unfold fetch_org_repos. cbn [walk].
  assert (nonempty (repos_url org_name) = true) as ->.
  { unfold repos_url. by rewrite PyStrFacts.append_cons. }
  cbn [andb Nat.ltb Nat.leb Z.eqb Pos.eqb negb app].
  destruct (insert_desc_cons stars repo (PySort.sorted_reverse stars repos))
    as (y & l' & Hy).
  exists y, (take 4 l'). eexists.
  destruct more; cbn [walk];
    change (PySort.sorted_reverse stars (repo :: repos))
      with (PySort.insert_desc stars repo (PySort.sorted_reverse stars repos));
    rewrite Hy; reflexivity.
Qed.

(** C8 asks that one organization's failure never halt the rest of the
    batch.  [fetch_all_merge_dates] does not ensure it: when the first
    organization has a repository and the pulls endpoint answers 403 to
    every request, there is no number of responses after which the batch
    has returned, whatever organizations come later and whatever is in
    store for them.  (The run for the first organization is inside
    [fetch_merged_prs_for_repo], whose [continue] on 403 comes before
    [page += 1]; the [try] of lines 224-229 only catches what is
    raised.) *)
Theorem one_organization_stalls_the_batch
    (fromisoformat : string -> option datetime) (utcnow : datetime) (days : Z)
    (first : GitHubMetrics) (later : list GitHubMetrics)
    (r : repo) (repos : list repo) (more : script repo)
    (table : list MergeDate) (wth : list db_weather) (tr : list event) :
  ~ exists n out,
      fetch_all_merge_dates fromisoformat utcnow days None (first :: later)
        {| repo_net := Response 200 (r :: repos) None :: more;
           pull_net := replicate n rate_limited;
           merge_dates := table; weather := wth; trace := tr |}
      = Some out.
Proof.
  intros (n & out & H). unfold fetch_all_merge_dates in H.
  cbn [fmap list_fmap merge_dates_loop] in H.
  unfold fetch_merge_dates_for_organization in H. cbn [repo_net pull_net] in H.
  destruct (one_page_listing (gm_slug first) r repos more) as (r0 & rest & tr0 & Hrr).
  rewrite Hrr in H. cbn [returned take fetch_repos_prs] in H.
  unfold fetch_merged_prs_for_repo in H.
  rewrite pages_403_forever in H; [discriminate|].
  unfold FetchMergeDates.max_pages. lia.
Qed.

(** Two organizations; the first has one repository whose pulls endpoint is
    rate-limited throughout.  However many responses are at hand, the batch
    has not returned, and so has not reached the second. *)
Definition stalled_first : GitHubMetrics :=
  {| gm_id := 1; gm_name := "One"; gm_slug := "one";
     github_followers := None; github_repos := None; github_bio := None;
     fetched_at := None; pull_requests := None; gm_merged_prs := None;
     gm_merge_frequency := None |}.

Definition waiting_second : GitHubMetrics :=
  {| gm_id := 2; gm_name := "Two"; gm_slug := "two";
     github_followers := None; github_repos := None; github_bio := None;
     fetched_at := None; pull_requests := None; gm_merged_prs := None;
     gm_merge_frequency := None |}.

Lemma second_organization_not_reached :
  ~ exists n out,
      fetch_all_merge_dates sample_fromisoformat sample_now 30 None
        [stalled_first; waiting_second]
        {| repo_net := [Response 200 [sample_repo] None; Response 200 [sample_repo] None];
           pull_net := replicate n rate_limited;
           merge_dates := []; weather := []; trace := [] |}
      = Some out.
Proof.
  exact (one_organization_stalls_the_batch sample_fromisoformat sample_now 30
           stalled_first [waiting_second] sample_repo []
           [Response 200 [sample_repo] None] [] [] []).
Defined.

End BatchProps.

(* ===================================================================== *)
(** * Part III: further properties of the code                            *)
(* ===================================================================== *)

From Stdlib Require Import Sorted.

(** ** Sorting *)
Module PySortFacts.
Import PySort.

Section ByKey.
Context {A : Type} (key : A -> Z).

Lemma insert_asc_perm x l : insert_asc key x l ≡ₚ x :: l.
Proof.
  induction l as [|y l IH]; cbn [insert_asc]; [done|].
  destruct (key x <=? key y); [done|].
  rewrite IH. apply Permutation_swap.
Qed.

Lemma sort_asc_perm l : sort_asc key l ≡ₚ l.
Proof.
  induction l as [|x l IH]; [done|].
  cbn [sort_asc foldr]. fold (sort_asc key l).
  by rewrite insert_asc_perm, IH.
Qed.

Lemma insert_desc_perm x l : insert_desc key x l ≡ₚ x :: l.
Proof.
  induction l as [|y l IH]; cbn [insert_desc]; [done|].
  destruct (key y <=? key x); [done|].
  rewrite IH. apply Permutation_swap.
Qed.

Lemma sorted_reverse_perm l : sorted_reverse key l ≡ₚ l.
Proof.
  induction l as [|x l IH]; [done|].
  cbn [sorted_reverse foldr]. fold (sorted_reverse key l).
  by rewrite insert_desc_perm, IH.
Qed.

Definition ascending (a b : A) : Prop := key a <= key b.
Definition descending (a b : A) : Prop := key b <= key a.

Lemma insert_asc_sorted x l :
  StronglySorted ascending l -> StronglySorted ascending (insert_asc key x l).
Proof.
  induction 1 as [|y l Hl IH Hy]; cbn [insert_asc].
  - repeat constructor.
  - destruct (Z.leb_spec (key x) (key y)).
    + constructor; [by constructor|]. constructor; [done|].
      eapply Forall_impl; [exact Hy|]. unfold ascending. intros; lia.
    + constructor; [done|].
      rewrite insert_asc_perm. constructor; [unfold ascending; lia|done].
Qed.

Lemma sort_asc_sorted l : StronglySorted ascending (sort_asc key l).
Proof.
  induction l as [|x l IH]; [constructor|].
  cbn [sort_asc foldr]. by apply insert_asc_sorted.
Qed.

Lemma insert_desc_sorted x l :
  StronglySorted descending l -> StronglySorted descending (insert_desc key x l).
Proof.
  induction 1 as [|y l Hl IH Hy]; cbn [insert_desc].
  - repeat constructor.
  - destruct (Z.leb_spec (key y) (key x)).
    + constructor; [by constructor|]. constructor; [done|].
      eapply Forall_impl; [exact Hy|]. unfold descending. intros; lia.
    + constructor; [done|].
      rewrite insert_desc_perm. constructor; [unfold descending; lia|done].
Qed.

Lemma sorted_reverse_sorted l : StronglySorted descending (sorted_reverse key l).
Proof.
  induction l as [|x l IH]; [constructor|].
  cbn [sorted_reverse foldr]. by apply insert_desc_sorted.
Qed.

End ByKey.

(** A sublist of a sorted list is sorted. *)
Lemma StronglySorted_sublist {A} (R : relation A) l1 l2 :
  l1 `sublist_of` l2 -> StronglySorted R l2 -> StronglySorted R l1.
Proof.
  induction 1 as [|x l1 l2 Hsub IH|x l1 l2 Hsub IH]; intros Hs.
  - constructor.
  - apply StronglySorted_inv in Hs as [Hs Hx]. constructor; [by apply IH|].
    rewrite Forall_forall in *. intros y Hy. apply Hx.
    by eapply sublist_subseteq.
  - apply StronglySorted_inv in Hs as [Hs _]. by apply IH.
Qed.

End PySortFacts.

(** ** More on the identifier normaliser *)
Module NormalizerMore.
Import PyStr PyStrFacts SegmentFacts GithubUrl Helper NormalizerProps PySortFacts.

(** No segment of a split contains the separator. *)
Lemma split_segments_clean c s : Forall (fun seg => mem_char c seg = false) (split c s).
Proof.
  induction s as [|a s IH]; cbn [split].
  - by repeat constructor.
  - destruct (Ascii.eqb a c) eqn:E; [by constructor|].
    destruct (split c s) as [|h t].
    { repeat constructor. cbn. by rewrite E. }
    apply Forall_cons in IH as [Hh Ht]. constructor; [|done].
    cbn. by rewrite E, Hh.
Qed.

Lemma path_parts_clean p :
  Forall (fun seg => seg <> "" /\ mem_char "/" seg = false) (path_parts p).
Proof.
  unfold path_parts. apply Forall_forall. intros seg [Hne Hin]%list_elem_of_filter.
  split.
  - intros ->. done.
  - pose proof (split_segments_clean "/" (strip "/" p)) as H.
    rewrite Forall_forall in H. by apply H.
Qed.

(** Whatever [extract_org_name_from_url] returns is one of the path's
    segments. *)
Lemma extract_in_path_parts urlparse u h :
  extract_org_name_from_url urlparse (Some u) = Some h ->
  h ∈ path_parts (path (urlparse u)).
Proof.
  unfold extract_org_name_from_url.
  destruct (negb (nonempty u)); [discriminate|].
  destruct (path_parts (path (urlparse u))) as [|p0 rest] eqn:E; [discriminate|].
  destruct (negb (contains "github.com" (lower (netloc (urlparse u))))).
  - unfold last_item. intros H. by apply last_Some_elem_of.
  - destruct (String.eqb (lower p0) "orgs" && (2 <=? length (p0 :: rest))%nat).
    + destruct rest as [|p1 rest]; intros [= <-]; set_solver.
    + intros [= <-]. set_solver.
Qed.

(** X1. A handle derived from a URL is never empty and never contains a
    slash: it is one non-empty segment of the URL's path. *)
Theorem extracted_handle_is_a_segment (urlparse : string -> parsed_url)
    (url : option string) (h : string) :
  extract_org_name_from_url urlparse url = Some h ->
  h <> "" /\ mem_char "/" h = false
  /\ exists u, url = Some u /\ h ∈ non_empty (split "/" (path (urlparse u))).
Proof.
  destruct url as [u|]; [|discriminate]. intros H%extract_in_path_parts.
  pose proof (path_parts_clean (path (urlparse u))) as Hc.
  rewrite Forall_forall in Hc. destruct (Hc h H) as [Hne Hsep].
  split; [done|]. split; [done|]. exists u. split; [done|].
  by rewrite <- path_parts_non_empty.
Qed.

Lemma extracted_handle_is_a_segment_witness :
  extract_org_name_from_url sample_urlparse (Some "https://github.com//Apache/") = Some "Apache"
  /\ "Apache" <> "".
Proof.
  assert (extract_org_name_from_url sample_urlparse (Some "https://github.com//Apache/")
          = Some "Apache") as H by reflexivity.
  split; [exact H|].
  exact (proj1 (extracted_handle_is_a_segment sample_urlparse _ _ H)).
Defined.

(** X2. No handle is derived exactly when the URL is missing or empty, or
    its path has no non-empty segment. *)
Theorem extract_none_iff (urlparse : string -> parsed_url) (url : option string) :
  extract_org_name_from_url urlparse url = None
  <-> truthy url = false
      \/ exists u, url = Some u /\ non_empty (split "/" (path (urlparse u))) = [].
Proof.
  assert (extract_org_name_from_url urlparse url = None
          <-> truthy url = false
              \/ exists u, url = Some u /\ path_parts (path (urlparse u)) = []) as H.
  { unfold extract_org_name_from_url. destruct url as [u|]; [|by split; [left|]].
    cbn [truthy].
    destruct (nonempty u) eqn:Eu; cbn [negb]; [|by split; [left|]].
    destruct (path_parts (path (urlparse u))) as [|p0 rest] eqn:E.
    - split; [|done]. intros _. right. by exists u.
    - split.
      + destruct (negb (contains "github.com" (lower (netloc (urlparse u))))).
        * unfold last_item. rewrite last_cons.
          by destruct (last rest).
        * destruct (String.eqb (lower p0) "orgs" && (2 <=? length (p0 :: rest))%nat);
            [by destruct rest|done].
      + intros [?|(u' & [= <-] & H)]; [done|]. by rewrite E in H. }
  rewrite H. split; (intros [?|(u & -> & Hu)]; [by left|right; exists u]);
    (split; [done|]); by rewrite ?path_parts_non_empty in *.
Qed.

(** *** The list of organizations *)

(** What the loop keeps true of its state. *)
Record well_formed (a : acc) : Prop := {
  slugs_distinct : NoDup (github_slug <$> normalized_orgs a);
  slugs_seen : forall o, o ∈ normalized_orgs a -> github_slug o ∈ seen_slugs a;
  slugs_named :
    Forall (fun o => github_slug o <> "" /\ display_name o <> "") (normalized_orgs a)
}.

Lemma display_name_nonempty name slug :
  default "Unknown" (py_or (py_or name slug) (Some "Unknown")) <> "".
Proof.
  unfold py_or.
  destruct name as [[|c n]|], slug as [[|c' s]|]; cbn; discriminate.
Qed.

Lemma step_well_formed urlparse a r :
  well_formed a -> well_formed (step urlparse a r).
Proof.
  intros [Hd Hs Hn]. unfold step.
  destruct (raw_slug urlparse r) as [raw|]; cbn [truthy]; [|by split].
  destruct (nonempty raw) eqn:Hraw; cbn [fmap option_fmap option_map];
    [|rewrite Hraw; by split].
  destruct (nonempty (normalize_slug raw)) eqn:Hnorm; cbn [negb]; [|by split].
  case_bool_decide as Hseen; [by split|].
  split; cbn [normalized_orgs seen_slugs].
  - rewrite fmap_app. apply NoDup_app. split; [done|]. split.
    + intros s (o & -> & Ho)%list_elem_of_fmap Hin. cbn in Hin.
      apply list_elem_of_singleton in Hin. apply Hseen. rewrite <- Hin. by apply Hs.
    + cbn. apply NoDup_singleton.
  - intros o [Ho|Ho]%elem_of_app.
    + apply elem_of_union_r. by apply Hs.
    + apply list_elem_of_singleton in Ho as ->. cbn. set_solver.
  - apply Forall_app. split; [done|]. apply Forall_singleton. cbn. split.
    + intros E. by rewrite E in Hnorm.
    + apply display_name_nonempty.
Qed.

Lemma foldl_step_well_formed urlparse rows : forall a,
  well_formed a -> well_formed (foldl (step urlparse) a rows).
Proof.
  induction rows as [|r rows IH]; intros a Ha; [done|].
  cbn. by apply IH, step_well_formed.
Qed.

Definition start_acc : acc :=
  {| normalized_orgs := []; skipped_without_identifier := 0; seen_slugs := ∅ |}.

Lemma start_acc_well_formed : well_formed start_acc.
Proof. split; cbn; [constructor|set_solver|constructor]. Qed.

(** X3. The handles of the list returned by [get_organization_list] are
    pairwise distinct, and every entry has a non-empty handle and a non-empty
    display name. *)
Theorem organization_list_distinct (urlparse : string -> parsed_url)
    (start_from_id : option Z) (table : list gsoc_row) :
  NoDup (github_slug <$> get_organization_list urlparse start_from_id table)
  /\ Forall (fun o => github_slug o <> "" /\ display_name o <> "")
       (get_organization_list urlparse start_from_id table).
Proof.
  unfold get_organization_list. fold start_acc.
  destruct (foldl_step_well_formed urlparse (query_orgs start_from_id table)
              start_acc start_acc_well_formed) as [Hd _ Hn].
  destruct start_from_id as [k|]; [|done]. split.
  - refine (sublist_NoDup _ _ Hd _). apply fmap_sublist, sublist_filter.
  - rewrite Forall_forall in *. intros o [_ Ho]%list_elem_of_filter. by apply Hn.
Qed.

(** *** Order and provenance *)

Lemma step_appends urlparse a r :
  normalized_orgs (step urlparse a r) = normalized_orgs a
  \/ exists o, normalized_orgs (step urlparse a r) = normalized_orgs a ++ [o]
              /\ id o = row_id r.
Proof.
  unfold step.
  destruct (if truthy (raw_slug urlparse r)
            then normalize_slug <$> raw_slug urlparse r
            else raw_slug urlparse r) as [s|]; [|by left].
  destruct (negb (nonempty s)); [by left|].
  case_bool_decide; [by left|]. right. by eexists.
Qed.

Lemma foldl_step_appends urlparse rows : forall a,
  exists l,
    normalized_orgs (foldl (step urlparse) a rows) = normalized_orgs a ++ l
    /\ (id <$> l) `sublist_of` (row_id <$> rows).
Proof.
  induction rows as [|r rows IH]; intros a.
  - exists []. by rewrite app_nil_r.
  - cbn [foldl]. destruct (IH (step urlparse a r)) as (l & -> & Hl).
    destruct (step_appends urlparse a r) as [->|(o & -> & Ho)].
    + exists l. split; [done|]. cbn. by apply sublist_cons.
    + exists (o :: l). rewrite <- app_assoc. split; [done|].
      cbn. rewrite Ho. by apply sublist_skip.
Qed.

Lemma sorted_keys {A} (key : A -> Z) l :
  StronglySorted (ascending key) l -> StronglySorted Z.le (key <$> l).
Proof.
  induction 1 as [|x l Hl IH Hx]; cbn; constructor; [done|].
  by apply Forall_fmap.
Qed.

Lemma query_orgs_sorted start table :
  StronglySorted Z.le (row_id <$> query_orgs start table).
Proof. apply sorted_keys, sort_asc_sorted. Qed.

Lemma query_orgs_elem start table r :
  r ∈ query_orgs start table ->
  r ∈ table /\ forall k, start = Some k -> k <= row_id r.
Proof.
  unfold query_orgs. rewrite sort_asc_perm.
  destruct start as [k|].
  - intros [Hk Hr]%list_elem_of_filter. split; [done|]. by intros ? [= <-].
  - intros Hr. by split.
Qed.

(** The ids of the organizations collected by the loop, in order, are ids
    of queried rows, in order. *)
Lemma collected_ids urlparse start table :
  (id <$> normalized_orgs (foldl (step urlparse) start_acc (query_orgs start table)))
  `sublist_of` (row_id <$> query_orgs start table).
Proof.
  destruct (foldl_step_appends urlparse (query_orgs start table) start_acc)
    as (l & -> & Hl).
  done.
Qed.

(** Every entry of the list carries the id of a queried row. *)
Lemma organization_ids (urlparse : string -> parsed_url)
    (start_from_id : option Z) (table : list gsoc_row) :
  forall o, o ∈ get_organization_list urlparse start_from_id table ->
    (exists r, r ∈ table /\ row_id r = id o)
    /\ forall k, start_from_id = Some k -> k <= id o.
Proof.
  pose proof (collected_ids urlparse start_from_id table) as Hsub.
  assert (forall o,
             o ∈ normalized_orgs (foldl (step urlparse) start_acc
                                    (query_orgs start_from_id table)) ->
             (exists r, r ∈ table /\ row_id r = id o)
             /\ forall k, start_from_id = Some k -> k <= id o) as Hall.
  { intros o Ho.
    assert (id o ∈ row_id <$> query_orgs start_from_id table) as Hin.
    { eapply sublist_subseteq; [exact Hsub|]. by apply list_elem_of_fmap_2. }
    apply list_elem_of_fmap in Hin as (r & Hid & Hr).
    apply query_orgs_elem in Hr as [Hr Hk]. split; [by exists r|].
    intros k Hs. rewrite Hid. by apply Hk. }
  unfold get_organization_list. fold start_acc.
  intros o Ho. apply Hall.
  destruct start_from_id; [|done]. by apply list_elem_of_filter in Ho as [_ Ho].
Qed.

(** X4. The list returned by [get_organization_list] is in ascending order
    of id; every entry carries the id of a row of the table, and that id is
    at least [start_from_id] when one is given. *)
Theorem organization_list_ordered (urlparse : string -> parsed_url)
    (start_from_id : option Z) (table : list gsoc_row) :
  StronglySorted Z.le (id <$> get_organization_list urlparse start_from_id table)
  /\ forall o, o ∈ get_organization_list urlparse start_from_id table ->
       (exists r, r ∈ table /\ row_id r = id o)
       /\ forall k, start_from_id = Some k -> k <= id o.
Proof.
  split; [|apply organization_ids].
  pose proof (collected_ids urlparse start_from_id table) as Hsub.
  unfold get_organization_list. fold start_acc.
  eapply StronglySorted_sublist; [|apply query_orgs_sorted].
  etrans; [|exact Hsub].
  destruct start_from_id; [apply fmap_sublist, sublist_filter|done].
Qed.

Lemma filter_all {A} (P : A -> Prop) `{!forall x, Decision (P x)} l :
  Forall P l -> filter P l = l.
Proof.
  induction 1 as [|x l Hx Hl IH]; [done|].
  rewrite filter_cons, decide_True by done. by rewrite IH.
Qed.

(** X5. Both safety filters are idle: the filter that [get_organization_list]
    applies after normalisation removes nothing, and neither does the one
    [update_github_data] applies to the list it gets back. *)
Theorem id_filters_remove_nothing (urlparse : string -> parsed_url)
    (start_from_id : option Z) (table : list gsoc_row) :
  get_organization_list urlparse start_from_id table
  = normalized_orgs (foldl (step urlparse) start_acc (query_orgs start_from_id table))
  /\ UpdaterProps.selected urlparse start_from_id table
     = get_organization_list urlparse start_from_id table.
Proof.
  assert (forall k, start_from_id = Some k ->
            Forall (fun o => k <= id o)
              (get_organization_list urlparse start_from_id table)) as Hge.
  { intros k Hk. apply Forall_forall. intros o Ho.
    by apply (organization_ids urlparse start_from_id table). }
  split.
  - unfold get_organization_list. fold start_acc.
    destruct start_from_id as [k|]; [|done]. apply filter_all.
    apply Forall_forall. intros o Ho.
    assert (id o ∈ row_id <$> query_orgs (Some k) table) as Hin.
    { eapply sublist_subseteq; [apply collected_ids|]. by apply list_elem_of_fmap_2. }
    apply list_elem_of_fmap in Hin as (r & -> & Hr).
    apply query_orgs_elem in Hr as [_ Hr]. by apply Hr.
  - unfold UpdaterProps.selected.
    destruct start_from_id as [k|]; [|done].
    destruct (k =? 0); [done|]. apply filter_all. by apply Hge.
Qed.

End NormalizerMore.

(** ** More on the paginated fetchers of [github_service.py] *)
Module WalkMore.
Import PyStr Http Py GithubService FetcherProps PySortFacts.

(** A page that was delivered: its items and the URL of its [next] link. *)
Abbreviation page Item := (list Item * string)%type.

Definition delivered {Item} (p : page Item) : outcome Item :=
  Response 200 (fst p) (Some (snd p)).

(** The URL requested after the pages [ps], starting from [u]. *)
Definition url_after {Item} (u : string) (ps : list (page Item)) : string :=
  default u (last (snd <$> ps)).

(** The effects of fetching the pages [ps], starting from [u]. *)
Fixpoint page_effects {Item} (u : string) (ps : list (page Item)) : list event :=
  match ps with
  | [] => []
  | p :: ps' => Get u :: Sleep 1 :: page_effects (snd p) ps'
  end.

Definition linked {Item} (ps : list (page Item)) : Prop :=
  Forall (fun p => nonempty (snd p) = true) ps.

Lemma url_after_cons {Item} u (p : page Item) ps :
  url_after u (p :: ps) = url_after (snd p) ps.
Proof.
  unfold url_after. cbn [fmap list_fmap]. rewrite last_cons.
  by destruct (last (snd <$> ps)).
Qed.

Lemma url_after_nonempty {Item} u (ps : list (page Item)) :
  nonempty u = true -> linked ps -> nonempty (url_after u ps) = true.
Proof.
  intros Hu Hps. revert u Hu. induction Hps as [|p ps Hp Hps IH]; intros u Hu; [done|].
  rewrite url_after_cons. by apply IH.
Qed.

Section Walk.
Context {Item : Type} (max_pages : nat) (on_exit : list Item -> list Item).

(** Delivered pages are walked one by one: their items are appended in
    order and each request goes to the [next] link of the page before. *)
Lemma walk_delivered (ps : list (page Item)) : forall s u page_count items tr,
  nonempty u = true -> linked ps ->
  (page_count + length ps <= max_pages)%nat ->
  walk max_pages on_exit ((delivered <$> ps) ++ s) (Some u) page_count items tr
  = walk max_pages on_exit s (Some (url_after u ps)) (page_count + length ps)
      (items ++ concat (fst <$> ps)) (tr ++ page_effects u ps).
Proof.
  induction ps as [|p ps IH]; intros s u pc items tr Hu Hps Hlen.
  - cbn. by rewrite Nat.add_0_r, !app_nil_r.
  - apply Forall_cons in Hps as [Hp Hps]. cbn [length] in Hlen.
    cbn [fmap list_fmap app walk delivered]. rewrite Hu.
    destruct (Nat.ltb_spec pc max_pages); [|lia].
    cbn [andb Z.eqb Pos.eqb negb].
    rewrite (IH s (snd p) (S pc) _ _ Hp Hps) by lia.
    rewrite url_after_cons. cbn [fmap list_fmap concat page_effects length].
    f_equal; [lia|by rewrite <- app_assoc|].
    by rewrite <- !app_assoc.
Qed.

(** The walk after the pages [ps] and a last page without a [next] link. *)
Lemma walk_to_last_page (ps : list (page Item)) last s u :
  nonempty u = true -> linked ps -> (length ps < max_pages)%nat ->
  walk max_pages on_exit ((delivered <$> ps) ++ Response 200 last None :: s)
    (Some u) 0 [] []
  = Some (Run (on_exit (concat (fst <$> ps) ++ last)) s
            (page_effects u ps ++ [Get (url_after u ps); Sleep 1])).
Proof.
  intros Hu Hps Hlen. rewrite (walk_delivered ps _ u 0 _ _ Hu Hps) by lia.
  cbn [walk]. rewrite (url_after_nonempty u ps Hu Hps).
  destruct (Nat.ltb_spec (0 + length ps) max_pages); [|lia].
  cbn. destruct s; cbn; by rewrite <- app_assoc.
Qed.

(** The walk when the budget is used up by delivered pages. *)
Lemma walk_to_cap (ps : list (page Item)) s u :
  nonempty u = true -> linked ps -> length ps = max_pages ->
  walk max_pages on_exit ((delivered <$> ps) ++ s) (Some u) 0 [] []
  = Some (Run (on_exit (concat (fst <$> ps))) s (page_effects u ps)).
Proof.
  intros Hu Hps Hlen. rewrite (walk_delivered ps _ u 0 _ _ Hu Hps) by lia.
  destruct s as [|o s]; cbn [walk];
    rewrite (url_after_nonempty u ps Hu Hps);
    destruct (Nat.ltb_spec (0 + length ps) max_pages); try lia; done.
Qed.

(** The walk when a request raises after the pages [ps]. *)
Lemma walk_to_exception (ps : list (page Item)) o s u :
  nonempty u = true -> linked ps -> (length ps < max_pages)%nat ->
  o = TimeoutExc \/ o = RequestExc ->
  walk max_pages on_exit ((delivered <$> ps) ++ o :: s) (Some u) 0 [] []
  = Some (Run (on_exit (concat (fst <$> ps))) s
            (page_effects u ps ++ [Get (url_after u ps)])).
Proof.
  intros Hu Hps Hlen Ho. rewrite (walk_delivered ps _ u 0 _ _ Hu Hps) by lia.
  cbn [walk]. rewrite (url_after_nonempty u ps Hu Hps).
  destruct (Nat.ltb_spec (0 + length ps) max_pages); [|lia].
  by destruct Ho as [-> | ->].
Qed.

(** A 404 at any point of the walk returns the empty list. *)
Lemma walk_not_found pre : forall url page_count items tr data next rest,
  walk max_pages on_exit pre url page_count items tr = None ->
  exists tr',
    walk max_pages on_exit (pre ++ Response 404 data next :: rest) url page_count items tr
    = Some (Run [] rest tr').
Proof.
  induction pre as [|o pre IH]; intros url pc items tr data next rest Hnone;
    cbn [walk app] in *;
    destruct url as [u|]; try discriminate;
    destruct (nonempty u && (pc <? max_pages)%nat); try discriminate.
  - cbn. by eexists.
  - destruct o as [st' data' next'| |]; try discriminate.
    destruct (st' =? 403); [by apply IH|].
    destruct (st' =? 404); [discriminate|].
    destruct (negb (st' =? 200)); [discriminate|]. by apply IH.
Qed.

(** Every item the walk holds or returns was delivered by a 200 response. *)
Definition delivered_by (s : script Item) (x : Item) : Prop :=
  exists data next, Response 200 data next ∈ s /\ x ∈ data.

Lemma walk_provenance (P : Item -> Prop) s : forall url page_count items tr r,
  (forall x, delivered_by s x -> P x) ->
  (forall l, Forall P l -> Forall P (on_exit l)) ->
  Forall P items ->
  walk max_pages on_exit s url page_count items tr = Some r ->
  Forall P (returned r).
Proof.
  induction s as [|o s IH]; intros url pc items tr r HP Hexit Hitems; cbn [walk];
    destruct url as [u|]; try (intros [= <-]; by apply Hexit);
    destruct (nonempty u && (pc <? max_pages)%nat);
    try (intros [= <-]; by apply Hexit); try discriminate.
  assert (forall x, delivered_by s x -> P x) as HP'.
  { intros x (data & next & Hin & Hx). apply HP. exists data, next.
    split; [by apply list_elem_of_further|done]. }
  destruct o as [st data next| |]; try (intros [= <-]; by apply Hexit).
  destruct (st =? 403); [by apply IH|].
  destruct (st =? 404); [by intros [= <-]|].
  destruct (Z.eqb_spec st 200) as [->|]; cbn [negb]; [|by intros [= <-]].
  apply IH; [done|done|]. apply Forall_app. split; [done|].
  apply Forall_forall. intros x Hx. apply HP. exists data, next.
  split; [apply list_elem_of_here|done].
Qed.

(** Whatever the walk returns is [[]] or went through [on_exit]. *)
Lemma walk_exit (Q : list Item -> Prop) s : forall url page_count items tr r,
  Q [] -> (forall l, Q (on_exit l)) ->
  walk max_pages on_exit s url page_count items tr = Some r ->
  Q (returned r).
Proof.
  induction s as [|o s IH]; intros url pc items tr r Hnil Hexit; cbn [walk];
    destruct url as [u|]; try (intros [= <-]; by apply Hexit);
    destruct (nonempty u && (pc <? max_pages)%nat);
    try (intros [= <-]; by apply Hexit); try discriminate.
  destruct o as [st data next| |]; try (intros [= <-]; by apply Hexit).
  destruct (st =? 403); [by apply IH|].
  destruct (st =? 404); [by intros [= <-]|].
  destruct (negb (st =? 200)); [by intros [= <-]|]. by apply IH.
Qed.

End Walk.

(** *** [fetch_repo_pr_data] *)

Lemma strongly_sorted_app {A} (R : relation A) l1 l2 x1 x2 :
  StronglySorted R (l1 ++ l2) -> x1 ∈ l1 -> x2 ∈ l2 -> R x1 x2.
Proof.
  induction l1 as [|y l1 IH]; intros Hs H1 H2; [by apply elem_of_nil in H1|].
  cbn in Hs. apply StronglySorted_inv in Hs as [Hs Hy].
  apply elem_of_cons in H1 as [->|H1]; [|by apply IH].
  rewrite Forall_forall in Hy. apply Hy. apply elem_of_app. by right.
Qed.

(** The five most starred of a list of repositories. *)
Definition top_five (repos : list repo) : list repo :=
  take 5 (PySort.sorted_reverse stars repos).

Lemma top_five_spec repos :
  (length (top_five repos) <= 5)%nat
  /\ StronglySorted (descending stars) (top_five repos)
  /\ top_five repos ⊆ repos
  /\ forall x y, x ∈ repos -> y ∈ top_five repos ->
       x ∈ top_five repos \/ stars x <= stars y.
Proof.
  unfold top_five. set (L := PySort.sorted_reverse stars repos).
  assert (StronglySorted (descending stars) L) as Hs by apply sorted_reverse_sorted.
  assert (L ≡ₚ repos) as Hp by apply sorted_reverse_perm.
  split; [rewrite length_take; lia|]. split.
  { eapply StronglySorted_sublist; [apply sublist_take|done]. } split.
  { intros x Hx. rewrite <- Hp. by eapply subseteq_take. }
  intros x y Hx Hy. rewrite <- Hp in Hx.
  rewrite <- (take_drop 5 L) in Hx, Hs.
  apply elem_of_app in Hx as [Hx|Hx]; [by left|right].
  by apply (strongly_sorted_app _ _ _ y x Hs).
Qed.

Lemma pulls_url_nonempty org_name repo_name :
  nonempty (pulls_url org_name repo_name) = true.
Proof. unfold pulls_url. by rewrite PyStrFacts.append_cons. Qed.

Lemma repos_url_nonempty org_name : nonempty (repos_url org_name) = true.
Proof. unfold repos_url. by rewrite PyStrFacts.append_cons. Qed.

(** X6. When the pulls endpoint delivers pages linked by [next] and then a
    page without a [next] link (fewer than 20 pages before it),
    [fetch_repo_pr_data] returns the items of all pages in order, having
    requested the first URL and then each page's [next] link, with a one
    second sleep after every page. *)
Theorem fetch_repo_pr_data_collects (org_name repo_name : string)
    (ps : list (page pull)) (last_page : list pull) (rest : script pull) :
  linked ps -> (length ps < 20)%nat ->
  fetch_repo_pr_data org_name repo_name
    ((delivered <$> ps) ++ Response 200 last_page None :: rest)
  = Some (Run (concat (fst <$> ps) ++ last_page) rest
            (page_effects (pulls_url org_name repo_name) ps
             ++ [Get (url_after (pulls_url org_name repo_name) ps); Sleep 1])).
Proof.
  intros Hps Hlen. unfold fetch_repo_pr_data.
  by apply (walk_to_last_page 20 (fun prs => prs)); [apply pulls_url_nonempty|..].
Qed.

Definition pull_a : pull := sample_pull 60 "2024-05-30T10:00:00Z".
Definition pull_b : pull := sample_pull 59 "2024-05-25T10:00:00Z".
Definition pull_c : pull := sample_pull 58 "2024-05-20T10:00:00Z".

Definition two_pages : list (page pull) :=
  [([pull_a], "https://api.github.com/repositories/1/pulls?page=2");
   ([pull_b], "https://api.github.com/repositories/1/pulls?page=3")].

Lemma two_pages_linked : linked two_pages.
Proof. repeat constructor. Qed.

Lemma fetch_repo_pr_data_collects_witness :
  returned <$> fetch_repo_pr_data "acme" "tool"
                 ((delivered <$> two_pages) ++ Response 200 [pull_c] None :: [])
  = Some [pull_a; pull_b; pull_c].
Proof.
  rewrite (fetch_repo_pr_data_collects "acme" "tool" two_pages [pull_c] []
             two_pages_linked ltac:(cbn; lia)).
  reflexivity.
Defined.

(** X7. The page cap: when the endpoint keeps delivering linked pages,
    [fetch_repo_pr_data] returns the items of the first 20 pages after
    exactly 20 requests and leaves every later response unconsumed;
    [fetch_org_repos] does the same after 10 pages, returning the five most
    starred repositories of those pages. *)
Theorem page_cap (org_name repo_name : string) :
  (forall (ps : list (page pull)) rest,
      linked ps -> length ps = 20%nat ->
      exists r,
        fetch_repo_pr_data org_name repo_name ((delivered <$> ps) ++ rest) = Some r
        /\ returned r = concat (fst <$> ps) /\ remaining r = rest
        /\ requests (effects r) = 20%nat)
  /\ (forall (ps : list (page repo)) rest,
        linked ps -> length ps = 10%nat ->
        exists r,
          fetch_org_repos org_name ((delivered <$> ps) ++ rest) = Some r
          /\ returned r = take 5 (PySort.sorted_reverse stars (concat (fst <$> ps)))
          /\ remaining r = rest
          /\ requests (effects r) = 10%nat).
Proof.
  assert (forall Item u (ps : list (page Item)),
             requests (page_effects u ps) = length ps) as Hreq.
  { intros Item u ps. revert u. induction ps as [|p ps IH]; intros u; [done|].
    cbn [page_effects length]. unfold requests in *.
    rewrite filter_cons_True by done. rewrite filter_cons_False by (cbn; tauto).
    cbn [length]. by rewrite IH. }
  split; intros ps rest Hps Hlen; eexists.
  - split; [unfold fetch_repo_pr_data;
            by apply (walk_to_cap 20 (fun prs => prs)); [apply pulls_url_nonempty|..]|].
    cbn [returned remaining effects]. by rewrite Hreq.
  - split; [unfold fetch_org_repos;
            by apply (walk_to_cap 10 top_five); [apply repos_url_nonempty|..]|].
    cbn [returned remaining effects]. by rewrite Hreq.
Qed.

(** X8. A timeout or another request exception keeps the partial result:
    after linked pages, [fetch_repo_pr_data] returns the items of those
    pages, and [fetch_org_repos] the five most starred repositories among
    them. *)
Theorem exception_keeps_partial_result (org_name repo_name : string)
    (o_pull : outcome pull) (o_repo : outcome repo) :
  o_pull = TimeoutExc \/ o_pull = RequestExc ->
  o_repo = TimeoutExc \/ o_repo = RequestExc ->
  (forall (ps : list (page pull)) rest,
      linked ps -> (length ps < 20)%nat ->
      exists tr,
        fetch_repo_pr_data org_name repo_name ((delivered <$> ps) ++ o_pull :: rest)
        = Some (Run (concat (fst <$> ps)) rest tr))
  /\ (forall (ps : list (page repo)) rest,
        linked ps -> (length ps < 10)%nat ->
        exists tr,
          fetch_org_repos org_name ((delivered <$> ps) ++ o_repo :: rest)
          = Some (Run (take 5 (PySort.sorted_reverse stars (concat (fst <$> ps))))
                    rest tr)).
Proof.
  intros Hp Hr. split; intros ps rest Hps Hlen; eexists.
  - unfold fetch_repo_pr_data.
    by apply (walk_to_exception 20 (fun prs => prs)); [apply pulls_url_nonempty|..].
  - unfold fetch_org_repos.
    by apply (walk_to_exception 10 top_five); [apply repos_url_nonempty|..].
Qed.

Lemma exception_keeps_partial_result_witness :
  exists tr,
    fetch_repo_pr_data "acme" "tool" ((delivered <$> two_pages) ++ TimeoutExc :: [])
    = Some (Run [pull_a; pull_b] [] tr).
Proof.
  exact (proj1 (exception_keeps_partial_result "acme" "tool" TimeoutExc RequestExc
                  (or_introl eq_refl) (or_intror eq_refl))
           two_pages [] two_pages_linked ltac:(cbn; lia)).
Defined.

(** *** [fetch_org_repos] *)

(** X9. Whatever the responses, what [fetch_org_repos] returns has at most
    five repositories, is in descending order of star count (absent counts
    as 0), and holds only repositories delivered by a 200 response. *)
Theorem fetch_org_repos_result (org_name : string) (s : script repo)
    (r : run repo (list repo)) :
  fetch_org_repos org_name s = Some r ->
  (length (returned r) <= 5)%nat
  /\ StronglySorted (descending stars) (returned r)
  /\ Forall (delivered_by s) (returned r).
Proof.
  intros Hr. split; [|split].
  - apply (walk_exit 10 top_five (fun l => (length l <= 5)%nat)) in Hr; [done|cbn; lia|].
    intros l. apply (top_five_spec l).
  - apply (walk_exit 10 top_five (StronglySorted (descending stars))) in Hr;
      [done|constructor|].
    intros l. apply (top_five_spec l).
  - eapply (walk_provenance 10 _ (delivered_by s)); [done| |constructor|exact Hr].
    intros l Hl. rewrite Forall_forall in *. intros x Hx. apply Hl.
    by apply (top_five_spec l).
Qed.

Definition three_repos : list repo :=
  [ {| repo_name := "a"; owner_login := "acme"; stargazers_count := Some 3 |};
    {| repo_name := "b"; owner_login := "acme"; stargazers_count := None |};
    {| repo_name := "c"; owner_login := "acme"; stargazers_count := Some 9 |} ].

Lemma fetch_org_repos_result_witness :
  (returned <$> fetch_org_repos "acme" [Response 200 three_repos None]
   = Some [ {| repo_name := "c"; owner_login := "acme"; stargazers_count := Some 9 |};
            {| repo_name := "a"; owner_login := "acme"; stargazers_count := Some 3 |};
            {| repo_name := "b"; owner_login := "acme"; stargazers_count := None |} ])
  /\ (3 <= 5)%nat.
Proof.
  split; [reflexivity|].
  exact (proj1 (fetch_org_repos_result "acme" [Response 200 three_repos None] _
                  eq_refl)).
Defined.

(** X10. When the listing is delivered in full (linked pages and a last page
    without [next], fewer than 10 pages before it), [fetch_org_repos]
    returns the five most starred repositories of the listing: every listed
    repository that is not returned has no more stars than any returned
    one. *)
Theorem fetch_org_repos_best_five (org_name : string)
    (ps : list (page repo)) (last_page : list repo) (rest : script repo) :
  linked ps -> (length ps < 10)%nat ->
  exists r,
    fetch_org_repos org_name ((delivered <$> ps) ++ Response 200 last_page None :: rest)
    = Some r
    /\ remaining r = rest
    /\ returned r ⊆ concat (fst <$> ps) ++ last_page
    /\ (length (returned r)
        = Nat.min 5 (length (concat (fst <$> ps) ++ last_page)))
    /\ forall x y, x ∈ concat (fst <$> ps) ++ last_page -> y ∈ returned r ->
         x ∈ returned r \/ stars x <= stars y.
Proof.
  intros Hps Hlen. eexists.
  split; [unfold fetch_org_repos;
          by apply (walk_to_last_page 10 top_five); [apply repos_url_nonempty|..]|].
  cbn [returned remaining]. fold (top_five (concat (fst <$> ps) ++ last_page)).
  destruct (top_five_spec (concat (fst <$> ps) ++ last_page)) as (_ & _ & Hsub & Htop).
  split; [done|]. split; [done|]. split; [|done].
  unfold top_five. rewrite length_take.
  by rewrite (Permutation_length (sorted_reverse_perm stars _)).
Qed.

Lemma fetch_org_repos_best_five_witness :
  exists r,
    fetch_org_repos "acme" ((delivered <$> []) ++ Response 200 three_repos None :: [])
    = Some r
    /\ length (returned r) = 3%nat.
Proof.
  destruct (fetch_org_repos_best_five "acme" [] three_repos []
              ltac:(constructor) ltac:(cbn; lia)) as (r & Hr & _ & _ & Hl & _).
  exists r. split; [exact Hr|exact Hl].
Defined.

End WalkMore.

(** ** The merge-date extractor on any run of responses *)

Module ExtractorMore.
Import PyStr Http Py GithubService FetchMergeDates FetcherProps WalkMore.

Section Extractor.
Variable fromisoformat : string -> option datetime.
Variables (cutoff_date : datetime) (url repo_name : string).

Local Abbreviation loop := (pages_loop fromisoformat cutoff_date url repo_name).
Local Abbreviation scan := (scan_page fromisoformat cutoff_date repo_name).
Local Abbreviation recent := (recent_as fromisoformat cutoff_date repo_name).
Local Abbreviation old := (too_old fromisoformat cutoff_date).

(** A 404 empties the result, as any other failure status does. *)
Lemma pages_not_found pre : forall page merged_prs tr prs next rest,
  loop pre page merged_prs tr = None ->
  exists tr',
    loop (pre ++ Response 404 prs next :: rest) page merged_prs tr
    = Some (Run [] rest tr').
Proof.
  induction pre as [|o pre IH]; intros page merged tr prs next rest Hnone;
    cbn [pages_loop app] in *;
    destruct (page <=? max_pages)%nat; try discriminate.
  - cbn. by eexists.
  - destruct o as [st' prs' next'| |]; try discriminate.
    destruct (st' =? 403); [by apply IH|].
    destruct (st' =? 404); [discriminate|].
    destruct (negb (st' =? 200)); [discriminate|].
    destruct prs' as [|pr prs']; [discriminate|].
    destruct (scan_page _ _ _ _ _) as [merged' stop].
    destruct stop; [discriminate|].
    destruct next'; [|discriminate]. by apply IH.
Qed.

(** Every entry the [for] loop appends records a pull request of the page
    that is merged inside the window. *)
Lemma scan_page_recorded (P : merged_pr -> Prop) prs : forall merged_prs,
  (forall pr e, pr ∈ prs -> recent pr e -> P e) ->
  Forall P merged_prs -> Forall P (fst (scan prs merged_prs)).
Proof.
  induction prs as [|pr prs IH]; intros merged HP Hm; [done|].
  assert (forall pr' e, pr' ∈ prs -> recent pr' e -> P e) as HP'.
  { intros pr' e Hin. apply HP. by apply list_elem_of_further. }
  cbn [scan_page].
  destruct (merged_at pr) as [s|] eqn:Hs; [|by apply IH].
  destruct (nonempty s) eqn:Hne; [|by apply IH].
  destruct (fromisoformat (replace "Z" "+00:00" s)) as [dt|] eqn:Hdt; [|by apply IH].
  destruct (Z.leb_spec (instant (ensure_aware cutoff_date))
              (instant (ensure_aware dt))) as [Hle|Hlt]; [|done].
  apply IH; [done|]. apply Forall_app. split; [done|].
  constructor; [|constructor].
  apply (HP pr); [apply list_elem_of_here|]. by exists s, dt.
Qed.

Lemma pages_loop_recorded (P : merged_pr -> Prop) s : forall page merged_prs tr r,
  (forall pr e, delivered_by s pr -> recent pr e -> P e) ->
  Forall P merged_prs ->
  loop s page merged_prs tr = Some r -> Forall P (returned r).
Proof.
  induction s as [|o s IH]; intros page merged tr r HP Hm; cbn [pages_loop];
    destruct (page <=? max_pages)%nat; try (by intros [= <-]); try discriminate.
  assert (forall pr e, delivered_by s pr -> recent pr e -> P e) as HP'.
  { intros pr e (data & next & Hin & Hx). apply HP. exists data, next.
    split; [by apply list_elem_of_further|done]. }
  destruct o as [st prs next| |]; try (by intros [= <-]).
  destruct (st =? 403); [by apply IH|].
  destruct (st =? 404); [by intros [= <-]|].
  destruct (Z.eqb_spec st 200) as [->|]; cbn [negb]; [|by intros [= <-]].
  destruct prs as [|pr prs]; [by intros [= <-]|].
  pose proof (scan_page_recorded P (pr :: prs) merged) as Hscan.
  destruct (scan_page _ _ _ _ _) as [merged' stop]. cbn [fst] in Hscan.
  assert (Forall P merged') as Hm'.
  { apply Hscan; [|done]. intros pr' e Hin. apply HP.
    exists (pr :: prs), next. split; [apply list_elem_of_here|done]. }
  destruct stop; [by intros [= <-]|].
  destruct next; [by apply IH|by intros [= <-]].
Qed.

(** The entry recorded for one pull request: none when it is not merged,
    when its stamp does not parse, or when it is merged before the
    cutoff. *)
Definition entry_of (pr : pull) : option merged_pr :=
  match merged_at pr with
  | Some s =>
      if nonempty s then
        match fromisoformat (replace "Z" "+00:00" s) with
        | Some dt =>
            if instant (ensure_aware cutoff_date) <=? instant (ensure_aware dt) then
              Some {| pr_merged_at := ensure_aware dt; pr_number := number pr;
                      pr_title := title pr; pr_repo := repo_name |}
            else None
        | None => None
        end
      else None
  | None => None
  end.

(** On a page without a pull request merged before the cutoff, the [for]
    loop runs to the end: unmerged pull requests and stamps that do not
    parse are passed over. *)
Lemma scan_page_all prs : forall merged_prs,
  Forall (fun pr => ~ old pr) prs ->
  scan prs merged_prs = (merged_prs ++ omap entry_of prs, false).
Proof.
  induction prs as [|pr prs IH]; intros merged Hprs; [by rewrite app_nil_r|].
  apply Forall_cons in Hprs as [Hpr Hprs].
  cbn [scan_page omap list_omap]. unfold entry_of at 1.
  destruct (merged_at pr) as [s|] eqn:Hs; [|by apply IH].
  destruct (nonempty s) eqn:Hne; [|by apply IH].
  destruct (fromisoformat (replace "Z" "+00:00" s)) as [dt|] eqn:Hdt; [|by apply IH].
  destruct (Z.leb_spec (instant (ensure_aware cutoff_date))
              (instant (ensure_aware dt))) as [Hle|Hlt].
  - rewrite IH by done. by rewrite <- app_assoc.
  - destruct Hpr. by exists s, dt.
Qed.

(** A page that lets the extractor go on: it lists something, nothing of it
    merged before the cutoff, and it has a [next] link. *)
Definition going_on (p : page pull) : Prop :=
  fst p <> [] /\ Forall (fun pr => ~ old pr) (fst p).

(** The requests for [n] pages in a row from page number [first]. *)
Fixpoint numbered_effects (first n : nat) : list event :=
  match n with
  | O => []
  | S n' => Get (page_url url first) :: Sleep 1 :: numbered_effects (S first) n'
  end.

Lemma pages_loop_going_on (ps : list (page pull)) : forall s page merged_prs tr,
  Forall going_on ps -> (page + length ps <= S max_pages)%nat ->
  loop ((delivered <$> ps) ++ s) page merged_prs tr
  = loop s (page + length ps) (merged_prs ++ omap entry_of (concat (fst <$> ps)))
      (tr ++ numbered_effects page (length ps)).
Proof.
  induction ps as [|p ps IH]; intros s page merged tr Hps Hlen.
  - cbn. by rewrite Nat.add_0_r, !app_nil_r.
  - apply Forall_cons in Hps as [[Hne Hp] Hps]. cbn [length] in Hlen.
    cbn [fmap list_fmap app pages_loop delivered numbered_effects length].
    destruct (Nat.leb_spec page max_pages); [|lia].
    cbn [Z.eqb Pos.eqb negb].
    rewrite (scan_page_all (fst p) merged Hp).
    destruct (fst p) as [|pr prs] eqn:Hfst; [done|].
    rewrite (IH s (S page) _ _ Hps) by lia.
    cbn [concat]. rewrite omap_app, <- !app_assoc.
    f_equal. lia.
Qed.

End Extractor.

(** X11. An HTTP 404 makes each of the three paginated fetchers return the
    empty list at once, whatever the earlier pages had delivered, without
    consuming a further response. *)
Theorem not_found_returns_empty :
  (forall org_name pre data next rest,
      fetch_org_repos org_name pre = None ->
      exists tr, fetch_org_repos org_name (pre ++ Response 404 data next :: rest)
                 = Some (Run [] rest tr))
  /\ (forall org_name repo_name pre data next rest,
        fetch_repo_pr_data org_name repo_name pre = None ->
        exists tr, fetch_repo_pr_data org_name repo_name
                     (pre ++ Response 404 data next :: rest)
                   = Some (Run [] rest tr))
  /\ (forall fromisoformat utcnow org_name repo_name days pre data next rest,
        fetch_merged_prs_for_repo fromisoformat utcnow org_name repo_name days pre = None ->
        exists tr, fetch_merged_prs_for_repo fromisoformat utcnow org_name repo_name days
                     (pre ++ Response 404 data next :: rest)
                   = Some (Run [] rest tr)).
Proof.
  repeat split.
  - intros org pre data next rest Hpre. by apply walk_not_found.
  - intros org repo_name pre data next rest Hpre. by apply walk_not_found.
  - intros fromiso utcnow org repo_name days pre data next rest Hpre.
    by apply pages_not_found.
Qed.

(** X12. Whatever the responses, every entry the extractor returns records a
    pull request delivered by a 200 response: it carries that pull
    request's number and title and the repository name, its merge time is
    timezone-aware, parsed from the pull request's [merged_at] with [Z] read
    as [+00:00], and not earlier than the cutoff. *)
Theorem extractor_entries_in_window
    (fromisoformat : string -> option datetime) (utcnow : datetime)
    (org_name repo_name : string) (days : Z) (s : script pull)
    (r : run pull (list merged_pr)) :
  fetch_merged_prs_for_repo fromisoformat utcnow org_name repo_name days s = Some r ->
  Forall (fun e =>
            instant (ensure_aware (minus_days utcnow days)) <= instant (pr_merged_at e)
            /\ is_Some (tzinfo (pr_merged_at e))
            /\ pr_repo e = repo_name
            /\ exists pr stamp dt,
                 delivered_by s pr
                 /\ merged_at pr = Some stamp
                 /\ fromisoformat (replace "Z" "+00:00" stamp) = Some dt
                 /\ pr_merged_at e = ensure_aware dt
                 /\ pr_number e = number pr /\ pr_title e = title pr)
    (returned r).
Proof.
  unfold fetch_merged_prs_for_repo.
  apply pages_loop_recorded; [|constructor].
  intros pr e Hpr (stamp & dt & Hs & Hne & Hdt & Hle & ->). cbn.
  split; [done|]. split.
  { unfold ensure_aware. destruct (tzinfo dt) eqn:E; cbn; [by rewrite E|done]. }
  split; [done|]. by exists pr, stamp, dt.
Qed.

Lemma extractor_entries_in_window_witness :
  exists r,
    fetch_merged_prs_for_repo sample_fromisoformat sample_now "acme" "tool" 30
      [Response 200 (sample_recent ++ [sample_old]) None] = Some r
    /\ Forall (fun e => pr_repo e = "tool") (returned r).
Proof.
  eexists. split; [reflexivity|].
  eapply Forall_impl;
    [exact (extractor_entries_in_window sample_fromisoformat sample_now
              "acme" "tool" 30
              [Response 200 (sample_recent ++ [sample_old]) None] _ eq_refl)|].
  intros e (_ & _ & He & _). exact He.
Defined.

(** X13. When no listed pull request is merged before the cutoff, the
    extractor reads page after page by page number, [&page=1], [&page=2],
    ..., and returns the entries of all merged pull requests whose stamp
    parses, in order; unmerged pull requests and stamps that do not parse
    are passed over.  It stops at the first page without a [next] link. *)
Theorem extractor_collects_pages
    (fromisoformat : string -> option datetime) (utcnow : datetime)
    (org_name repo_name : string) (days : Z)
    (ps : list (page pull)) (last_page : list pull) (rest : script pull) :
  Forall (going_on fromisoformat (minus_days utcnow days)) ps ->
  (length ps < 10)%nat ->
  Forall (fun pr => ~ too_old fromisoformat (minus_days utcnow days) pr) last_page ->
  fetch_merged_prs_for_repo fromisoformat utcnow org_name repo_name days
    ((delivered <$> ps) ++ Response 200 last_page None :: rest)
  = Some (Run (omap (entry_of fromisoformat (minus_days utcnow days) repo_name)
                 (concat (fst <$> ps) ++ last_page))
            rest
            (numbered_effects (FetchMergeDates.updated_pulls_url org_name repo_name)
               1 (length ps)
             ++ [Get (page_url (FetchMergeDates.updated_pulls_url org_name repo_name)
                        (S (length ps)))])).
Proof.
  intros Hps Hlen Hlast. unfold fetch_merged_prs_for_repo.
  rewrite pages_loop_going_on by (done || (unfold max_pages; lia)).
  cbn [pages_loop app]. unfold max_pages.
  destruct (Nat.leb_spec (1 + length ps) 10); [|lia].
  cbn [Z.eqb Pos.eqb negb]. rewrite omap_app.
  destruct last_page as [|pr prs]; [by rewrite app_nil_r|].
  by rewrite (scan_page_all _ _ _ _ _ Hlast).
Qed.

(** Two pages with an open pull request and a stamp that does not parse
    among the merged ones. *)
Definition open_pull : pull :=
  {| number := Some 70; title := Some "draft"; merged_at := None |}.

Definition odd_pull : pull := sample_pull 71 "yesterday".

Lemma extractor_collects_pages_witness :
  returned <$> fetch_merged_prs_for_repo sample_fromisoformat sample_now "acme" "tool" 30
                 ((delivered <$> [([open_pull; pull_a], "")])
                  ++ Response 200 [odd_pull; pull_b] None :: [])
  = Some [sample_entry 60 19873; sample_entry 59 19868].
Proof.
  rewrite (extractor_collects_pages sample_fromisoformat sample_now "acme" "tool" 30
             [([open_pull; pull_a], "")] [odd_pull; pull_b] []).
  - reflexivity.
  - repeat constructor; try done;
      intros (s & dt & [= <-] & _ & [= <-] & Hlt); vm_compute in Hlt; discriminate.
  - cbn; lia.
  - repeat constructor;
      intros (s & dt & [= <-] & _ & Hdt & Hlt); vm_compute in Hdt;
      try discriminate; injection Hdt as <-; vm_compute in Hlt; discriminate.
Defined.

(** X14. The extractor stops early in three ways, each time keeping what the
    earlier pages gave: after ten pages it returns without an eleventh
    request; a timeout or another request exception ends the loop; and so
    does an empty page, even one with a [next] link. *)
Theorem extractor_stops_early
    (fromisoformat : string -> option datetime) (utcnow : datetime)
    (org_name repo_name : string) (days : Z)
    (ps : list (page pull)) (rest : script pull) :
  Forall (going_on fromisoformat (minus_days utcnow days)) ps ->
  (length ps = 10%nat ->
   exists r,
     fetch_merged_prs_for_repo fromisoformat utcnow org_name repo_name days
       ((delivered <$> ps) ++ rest) = Some r
     /\ returned r = omap (entry_of fromisoformat (minus_days utcnow days) repo_name)
                       (concat (fst <$> ps))
     /\ remaining r = rest
     /\ requests (effects r) = 10%nat)
  /\ ((length ps < 10)%nat ->
      forall o,
        o = TimeoutExc \/ o = RequestExc \/ (exists next, o = Response 200 [] next) ->
        exists tr,
          fetch_merged_prs_for_repo fromisoformat utcnow org_name repo_name days
            ((delivered <$> ps) ++ o :: rest)
          = Some (Run (omap (entry_of fromisoformat (minus_days utcnow days) repo_name)
                         (concat (fst <$> ps)))
                    rest tr)).
Proof.
  intros Hps. split.
  - intros Hlen. unfold fetch_merged_prs_for_repo.
    rewrite pages_loop_going_on by (done || (unfold max_pages; lia)).
    rewrite Hlen.
    assert (forall u first n, requests (numbered_effects u first n) = n) as Hreq.
    { intros u first n. revert first. induction n as [|n IH]; intros first; [done|].
      cbn [numbered_effects]. unfold requests in *.
      rewrite filter_cons_True by done. rewrite filter_cons_False by (cbn; tauto).
      cbn [length]. by rewrite IH. }
    destruct rest as [|o rest]; cbn [pages_loop]; change (1 + 10 <=? max_pages)%nat with false;
      eexists; (split; [reflexivity|]); cbn [returned remaining effects app];
      by rewrite Hreq.
  - intros Hlen o Ho. unfold fetch_merged_prs_for_repo.
    rewrite pages_loop_going_on by (done || (unfold max_pages; lia)).
    cbn [pages_loop app]. unfold max_pages.
    destruct (Nat.leb_spec (1 + length ps) 10); [|lia].
    destruct Ho as [-> | [-> | [next ->]]]; by eexists.
Qed.

Lemma extractor_stops_early_witness :
  exists tr,
    fetch_merged_prs_for_repo sample_fromisoformat sample_now "acme" "tool" 30
      ((delivered <$> [([open_pull; pull_a], "")]) ++ TimeoutExc :: [])
    = Some (Run [sample_entry 60 19873] [] tr).
Proof.
  assert (Forall (going_on sample_fromisoformat (minus_days sample_now 30))
            [([open_pull; pull_a], "")]) as H.
  { repeat constructor; try done;
      intros (s & dt & [= <-] & _ & [= <-] & Hlt); vm_compute in Hlt; discriminate. }
  exact (proj2 (extractor_stops_early sample_fromisoformat sample_now "acme" "tool" 30
                  [([open_pull; pull_a], "")] [] H)
           ltac:(cbn; lia) TimeoutExc (or_introl eq_refl)).
Defined.

End ExtractorMore.

(** ** The metrics of an organization *)

Module MetricsMore.
Import PyStr Http GithubService FetcherProps MetricsProps WalkMore.

Lemma count_merged_app prs1 prs2 :
  count_merged (prs1 ++ prs2) = count_merged prs1 + count_merged prs2.
Proof. unfold count_merged. rewrite filter_app, length_app. lia. Qed.

(** One repository of the loop: the responses its pull requests are read
    from, and the pull requests read. *)
Record visit := {
  visited : repo;
  segment : script pull;
  listing : list pull
}.

(** The responses [segment v] serve the request for [visited v]: whatever
    follows them, [fetch_repo_pr_data] consumes exactly them and returns
    [listing v]. *)
Definition served (v : visit) : Prop :=
  forall rest, exists tr,
    fetch_repo_pr_data (owner_login (visited v)) (repo_name (visited v))
      (segment v ++ rest)
    = Some (Run (listing v) rest tr).

Lemma metrics_loop_served vs : forall rest total merged tr,
  Forall served vs ->
  exists tr',
    metrics_loop (visited <$> vs) (concat (segment <$> vs) ++ rest) total merged tr
    = Some (Run (total + Z.of_nat (length (concat (listing <$> vs))),
                 merged + count_merged (concat (listing <$> vs)))
              rest tr').
Proof.
  induction vs as [|v vs IH]; intros rest total merged tr Hvs.
  - cbn. rewrite !Z.add_0_r. by eexists.
  - apply Forall_cons in Hvs as [Hv Hvs].
    cbn [fmap list_fmap concat metrics_loop]. rewrite <- app_assoc.
    destruct (Hv (concat (segment <$> vs) ++ rest)) as [tr1 ->].
    cbn [returned remaining effects].
    destruct (IH rest (total + Z.of_nat (length (listing v)))
                (merged + count_merged (listing v)) (tr ++ tr1) Hvs) as [tr' ->].
    exists tr'. rewrite length_app, count_merged_app, Nat2Z.inj_add.
    by rewrite !Z.add_assoc.
Qed.

(** X15. [calculate_metrics] reads the repositories one after the other from
    the same stream of responses, each request starting where the one
    before stopped; the totals are the number of pull requests read and the
    number of those with a [merged_at]. *)
Theorem calculate_metrics_totals (vs : list visit) (rest : script pull) :
  Forall served vs ->
  exists r,
    calculate_metrics (visited <$> vs) (concat (segment <$> vs) ++ rest) = Some r
    /\ remaining r = rest
    /\ total_prs (returned r) = Z.of_nat (length (concat (listing <$> vs)))
    /\ merged_prs (returned r) = count_merged (concat (listing <$> vs)).
Proof.
  intros Hvs. unfold calculate_metrics.
  destruct (metrics_loop_served vs rest 0 0 [] Hvs) as [tr ->].
  cbn [returned]. eexists. split; [reflexivity|]. by cbn.
Qed.

(** A repository whose first page is the whole listing, and one that is
    gone. *)
Definition first_visit : visit :=
  {| visited := sample_repo;
     segment := [Response 200 [pull_a; ExtractorMore.open_pull] None];
     listing := [pull_a; ExtractorMore.open_pull] |}.

Definition second_visit : visit :=
  {| visited := {| repo_name := "gone"; owner_login := "acme";
                   stargazers_count := None |};
     segment := [Response 404 [] None];
     listing := [] |}.

Lemma calculate_metrics_totals_witness :
  exists r,
    calculate_metrics [visited first_visit; visited second_visit]
      (segment first_visit ++ segment second_visit ++ []) = Some r
    /\ total_prs (returned r) = 2 /\ merged_prs (returned r) = 1.
Proof.
  assert (Forall served [first_visit; second_visit]) as H.
  { constructor; [|constructor; [|constructor]]; intros rest.
    - exists [Get (pulls_url "acme" "tool"); Sleep 1]. by destruct rest.
    - by exists [Get (pulls_url "acme" "gone")]. }
  destruct (calculate_metrics_totals [first_visit; second_visit] [] H)
    as (r & Hr & _ & Ht & Hm).
  exists r. split; [exact Hr|]. split; [exact Ht|exact Hm].
Defined.

End MetricsMore.

(** ** What a run writes to the [merge_dates] table *)

Module StorageMore.
Import PyStr Http Py Models GithubService FetchMergeDates FetcherProps MergeDateProps
  ExtractorMore.

(** The loop of lines 153-175 under any faults: if it gets through, it has
    queued the rows of the pull requests not in the table, and counted
    them. *)
Lemma check_and_add_through utcnow org_slug org_name wth table prs :
  forall i pending0 count0 pending1 count1,
    check_and_add utcnow org_slug org_name wth table prs i pending0 count0
    = Ret (pending1, count1) ->
    pending1 = pending0 ++ (row_of utcnow org_slug org_name <$> absent org_slug table prs)
    /\ count1 = count0 + Z.of_nat (length (absent org_slug table prs)).
Proof.
  induction prs as [|pr prs IH]; intros i p0 c0 p1 c1; cbn [check_and_add].
  - intros [= <- <-]. cbn. by rewrite app_nil_r, Z.add_0_r.
  - destruct (lookup_fault wth i); [discriminate|].
    unfold absent. rewrite filter_cons. fold (absent org_slug table prs).
    fold (lookup_key org_slug pr).
    destruct (existing table (lookup_key org_slug pr)); cbn [negb].
    + destruct (decide (Is_true false)) as [[]|_]. apply IH.
    + destruct (decide (Is_true true)) as [_|[]]; [|done].
      intros [-> ->]%IH. cbn [fmap list_fmap length]. rewrite <- app_assoc.
      split; [done|lia].
Qed.

(** A row written for the organization from one of the pull requests
    [prs], under a key the table [table] did not hold. *)
Definition fresh_row (utcnow : datetime) (org_slug org_name : string)
    (table : list MergeDate) (prs : list merged_pr) (m : MergeDate) : Prop :=
  exists pr, pr ∈ prs /\ m = row_of utcnow org_slug org_name pr
             /\ key_of m ∉ keys table.

Lemma absent_rows_fresh utcnow org_slug org_name table prs :
  Forall (fresh_row utcnow org_slug org_name table prs)
    (row_of utcnow org_slug org_name <$> absent org_slug table prs).
Proof.
  apply Forall_forall. intros m (pr & -> & Hpr)%list_elem_of_fmap.
  apply list_elem_of_filter in Hpr as [Habs Hpr].
  exists pr. split; [done|]. split; [done|].
  rewrite key_of_row_of, <- existing_spec.
  destruct (existing table (lookup_key org_slug pr)); [done|discriminate].
Qed.

(** The session of lines 151-193 under any faults: rows are only appended;
    the number returned is the number of rows appended; when it raises, or
    when the commit fails, nothing is appended. *)
Lemma store_accounting utcnow org_slug org_name wth table prs :
  exists added,
    snd (store_merge_dates utcnow org_slug org_name wth table prs) = table ++ added
    /\ (fst (store_merge_dates utcnow org_slug org_name wth table prs)
        = Ret (Z.of_nat (length added))
        \/ (exists e, fst (store_merge_dates utcnow org_slug org_name wth table prs)
                      = Raise e)
           /\ added = [])
    /\ Forall (fresh_row utcnow org_slug org_name table prs) added.
Proof.
  unfold store_merge_dates.
  destruct (check_and_add utcnow org_slug org_name wth table prs 0 [] 0)
    as [[pending count]|e] eqn:E.
  - apply check_and_add_through in E as [-> ->]. cbn [app]. rewrite Z.add_0_l.
    destruct (Z.ltb_spec 0 (Z.of_nat (length (absent org_slug table prs)))) as [Hpos|Hz].
    + destruct (commit_fault wth).
      * exists []. rewrite app_nil_r. split; [done|]. split; [by left|constructor].
      * eexists. split; [done|]. split; [left; by rewrite length_fmap|].
        apply absent_rows_fresh.
    + exists []. rewrite app_nil_r. split; [done|]. split; [|constructor].
      left. cbn [fst length]. f_equal. lia.
  - exists []. rewrite app_nil_r. split; [done|]. split; [|constructor].
    right. split; [by exists e|done].
Qed.

Section Runs.
Variable fromisoformat : string -> option datetime.
Variable utcnow : datetime.
Variable days : Z.

(** Merged at or after the cutoff, with a timezone. *)
Definition in_window (e : merged_pr) : Prop :=
  instant (ensure_aware (minus_days utcnow days)) <= instant (pr_merged_at e)
  /\ is_Some (tzinfo (pr_merged_at e)).

Lemma extractor_in_window org_name repo_name s r :
  fetch_merged_prs_for_repo fromisoformat utcnow org_name repo_name days s = Some r ->
  Forall in_window (returned r).
Proof.
  unfold fetch_merged_prs_for_repo.
  apply pages_loop_recorded; [|constructor].
  intros pr e _ (stamp & dt & Hs & Hne & Hdt & Hle & ->). split; [done|].
  cbn. unfold ensure_aware. destruct (tzinfo dt) eqn:E; cbn; [by rewrite E|done].
Qed.

Lemma fetch_repos_prs_in_window org_slug repos : forall s all_merged_prs tr r,
  Forall in_window all_merged_prs ->
  fetch_repos_prs fromisoformat utcnow org_slug days repos s all_merged_prs tr = Some r ->
  Forall in_window (returned r).
Proof.
  induction repos as [|repo repos IH]; intros s acc tr r Hacc; cbn [fetch_repos_prs].
  - by intros [= <-].
  - destruct (fetch_merged_prs_for_repo _ _ _ _ _ _) as [f|] eqn:Ef; [|discriminate].
    apply IH. apply Forall_app. split; [done|]. by eapply extractor_in_window.
Qed.

(** A row of the table written by a run for the organization. *)
Definition written_for (org_slug org_name : string) (m : MergeDate) : Prop :=
  organization_slug m = org_slug
  /\ organization_name m = org_name
  /\ merge_date m = date (Models.merged_at m)
  /\ created_at m = utcnow
  /\ instant (ensure_aware (minus_days utcnow days)) <= instant (Models.merged_at m)
  /\ is_Some (tzinfo (Models.merged_at m)).

(** One organization: rows are only appended, and counted. *)
Lemma org_run_accounting (org_slug org_name : string)
    (w w' : world) (res : result Z) :
  fetch_merge_dates_for_organization fromisoformat utcnow org_slug org_name days w
  = Some (res, w') ->
  exists added,
    merge_dates w' = merge_dates w ++ added
    /\ (res = Ret (Z.of_nat (length added)) \/ (exists e, res = Raise e) /\ added = [])
    /\ Forall (fun m => written_for org_slug org_name m
                        /\ key_of m ∉ keys (merge_dates w)) added.
Proof.
  unfold fetch_merge_dates_for_organization.
  destruct (GithubService.fetch_org_repos org_slug (repo_net w)) as [rr|]; [|discriminate].
  destruct (returned rr) as [|repo repos].
  { intros [= <- <-]. exists []. rewrite app_nil_r. by repeat split; [left|]. }
  destruct (fetch_repos_prs _ _ _ _ _ _ _ _) as [pr|] eqn:Epr; [|discriminate].
  apply fetch_repos_prs_in_window in Epr; [|constructor].
  destruct (returned pr) as [|p prs] eqn:Eprs.
  { intros [= <- <-]. exists []. rewrite app_nil_r. by repeat split; [left|]. }
  destruct (store_accounting utcnow org_slug org_name
              (default fair (head (weather w))) (merge_dates w) (p :: prs))
    as (added & Htable & Hres & Hrows).
  destruct (store_merge_dates _ _ _ _ _ _) as [res0 table].
  cbn [fst snd] in Htable, Hres. intros [= <- <-]. cbn [merge_dates].
  exists added. split; [done|]. split; [done|].
  eapply Forall_impl; [exact Hrows|].
  intros m (e & He & -> & Hkey). split; [|done].
  rewrite Forall_forall in Epr. destruct (Epr e He) as [Hwin Htz].
  by repeat split.
Qed.

(** X17. Whatever the responses and the storage faults, a run of
    [fetch_merge_dates_for_organization] only appends rows to the table.
    The number it returns is the number of rows appended; when it raises
    or the commit fails nothing is appended.  Every appended row carries
    the organization's slug and name, the date of its merge time, a merge
    time inside the window, and a natural key the table did not hold
    before the run. *)
Theorem organization_run_accounting (org_slug org_name : string)
    (w w' : world) (res : result Z) :
  fetch_merge_dates_for_organization fromisoformat utcnow org_slug org_name days w
  = Some (res, w') ->
  exists added,
    merge_dates w' = merge_dates w ++ added
    /\ (res = Ret (Z.of_nat (length added)) \/ (exists e, res = Raise e) /\ added = [])
    /\ Forall (fun m => written_for org_slug org_name m
                        /\ key_of m ∉ keys (merge_dates w)) added.
Proof. apply org_run_accounting. Qed.

Lemma merge_dates_loop_accounting orgs : forall total w res w',
  merge_dates_loop fromisoformat utcnow days orgs total w = Some (res, w') ->
  exists added,
    merge_dates w' = merge_dates w ++ added
    /\ res = Ret (total + Z.of_nat (length added))
    /\ Forall (fun m => exists o, o ∈ orgs /\ written_for (fst o) (snd o) m) added.
Proof.
  induction orgs as [|[slug name] orgs IH]; intros total w res w'; cbn [merge_dates_loop].
  - intros [= <- <-]. exists []. rewrite app_nil_r, Z.add_0_r. by repeat split.
  - destruct (fetch_merge_dates_for_organization _ _ _ _ _ _) as [[res1 w1]|] eqn:E1;
      [|discriminate].
    apply org_run_accounting in E1 as (added1 & Ht1 & Hres1 & Hrows1).
    assert (Forall (fun m => exists o, o ∈ (slug, name) :: orgs
                                       /\ written_for (fst o) (snd o) m) added1) as H1.
    { eapply Forall_impl; [exact Hrows1|]. intros m [Hm _].
      exists (slug, name). split; [apply list_elem_of_here|done]. }
    assert (forall l, Forall (fun m => exists o, o ∈ orgs
                                       /\ written_for (fst o) (snd o) m) l ->
                      Forall (fun m => exists o, o ∈ (slug, name) :: orgs
                                       /\ written_for (fst o) (snd o) m) l) as Hweak.
    { intros l Hl. eapply Forall_impl; [exact Hl|]. intros m (o & Ho & Hm).
      exists o. split; [by apply list_elem_of_further|done]. }
    destruct res1 as [count|e].
    + intros (added & Ht & -> & Hrows)%IH. exists (added1 ++ added).
      rewrite Ht, Ht1, <- app_assoc. split; [done|]. split.
      * destruct Hres1 as [[= ->]|[[e [=]] _]]. rewrite length_app. f_equal. lia.
      * apply Forall_app. split; [done|by apply Hweak].
    + intros (added & Ht & -> & Hrows)%IH. exists added.
      destruct Hres1 as [[=]|[_ ->]]. rewrite app_nil_r in Ht1. rewrite Ht, Ht1.
      split; [done|]. split; [done|by apply Hweak].
Qed.

(** X18. A run of [fetch_all_merge_dates] only appends rows to the table and
    the total it reports is the number of rows appended, whatever the
    responses and the storage faults: an organization whose session raises
    adds nothing to either.  Every appended row belongs to an organization
    of [github_metrics] and has its merge time inside the window. *)
Theorem batch_accounting (start_from_id : option Z)
    (github_metrics : list GitHubMetrics) (w w' : world) (res : result Z) :
  fetch_all_merge_dates fromisoformat utcnow days start_from_id github_metrics w
  = Some (res, w') ->
  exists added,
    merge_dates w' = merge_dates w ++ added
    /\ res = Ret (Z.of_nat (length added))
    /\ Forall (fun m => exists g, g ∈ github_metrics
                                  /\ written_for (gm_slug g) (gm_name g) m) added.
Proof.
  unfold fetch_all_merge_dates.
  intros (added & Ht & -> & Hrows)%merge_dates_loop_accounting.
  exists added. split; [done|]. split; [done|].
  eapply Forall_impl; [exact Hrows|].
  intros m (o & (g & -> & Hg)%list_elem_of_fmap & Hm).
  exists g. split; [|done].
  destruct start_from_id as [k|]; [|done].
  destruct (k =? 0); [done|]. by apply list_elem_of_filter in Hg as [_ Hg].
Qed.

End Runs.

Lemma organization_run_accounting_witness :
  exists res w' added,
    fetch_merge_dates_for_organization sample_fromisoformat sample_now "acme" "Acme" 30
      (sample_world []) = Some (res, w')
    /\ merge_dates w' = [] ++ added
    /\ (res = Ret (Z.of_nat (length added)) \/ (exists e, res = Raise e) /\ added = []).
Proof.
  destruct (fetch_merge_dates_for_organization sample_fromisoformat sample_now
              "acme" "Acme" 30 (sample_world [])) as [[res w']|] eqn:E;
    [|vm_compute in E; discriminate].
  destruct (organization_run_accounting sample_fromisoformat sample_now 30
              "acme" "Acme" (sample_world []) w' res E) as (added & Ht & Hres & _).
  exists res, w', added. split; [reflexivity|]. split; [exact Ht|exact Hres].
Defined.

Definition acme_metrics : GitHubMetrics :=
  {| gm_id := 1; gm_name := "Acme"; gm_slug := "acme";
     github_followers := None; github_repos := None; github_bio := None;
     fetched_at := None; pull_requests := None; gm_merged_prs := None;
     gm_merge_frequency := None |}.

Lemma batch_accounting_witness :
  exists res w' added,
    fetch_all_merge_dates sample_fromisoformat sample_now 30 None [acme_metrics]
      (sample_world []) = Some (res, w')
    /\ merge_dates w' = [] ++ added
    /\ res = Ret (Z.of_nat (length added)).
Proof.
  destruct (fetch_all_merge_dates sample_fromisoformat sample_now 30 None
              [acme_metrics] (sample_world [])) as [[res w']|] eqn:E;
    [|vm_compute in E; discriminate].
  destruct (batch_accounting sample_fromisoformat sample_now 30 None
              [acme_metrics] (sample_world []) w' res E) as (added & Ht & Hres & _).
  exists res, w', added. split; [reflexivity|]. split; [exact Ht|exact Hres].
Defined.

End StorageMore.

(** ** What the updater writes to its two tables *)

Module UpdaterMore.
Import PyStr Http Py Models Stmt UpdateGithubMetrics UpdaterProps.

Lemma update_first_some github_slug display_name data table : forall table',
  update_first github_slug display_name data table = Some table' ->
  gm_slug <$> table' = gm_slug <$> table
  /\ gm_id <$> table' = gm_id <$> table
  /\ github_slug ∈ gm_slug <$> table
  /\ filter (fun row => gm_slug row <> github_slug) table'
     = filter (fun row => gm_slug row <> github_slug) table
  /\ exists row, row ∈ table /\ gm_slug row = github_slug
                 /\ updated_row display_name data row ∈ table'.
Proof.
  induction table as [|row table IH]; intros table'; cbn [update_first]; [done|].
  destruct (String.eqb_spec (gm_slug row) github_slug) as [Heq|Hne].
  - intros [= <-]. cbn [fmap list_fmap updated_row gm_slug gm_id].
    split; [done|]. split; [done|]. split; [rewrite <- Heq; apply list_elem_of_here|].
    split.
    + rewrite !filter_cons. cbn [gm_slug]. by repeat case_decide.
    + exists row. split; [apply list_elem_of_here|]. split; [done|].
      apply list_elem_of_here.
  - destruct (update_first github_slug display_name data table) as [t|]; [|discriminate].
    intros [= <-]. destruct (IH t eq_refl) as (Hs & Hi & Hin & Hf & row' & Hr & Hrs & Hu).
    cbn [fmap list_fmap]. rewrite Hs, Hi. split; [done|]. split; [done|].
    split; [by apply list_elem_of_further|]. split.
    + rewrite !filter_cons. by rewrite Hf.
    + exists row'. split; [by apply list_elem_of_further|]. split; [done|].
      by apply list_elem_of_further.
Qed.

Lemma update_first_none github_slug display_name data table :
  update_first github_slug display_name data table = None ->
  github_slug ∉ gm_slug <$> table.
Proof.
  induction table as [|row table IH]; cbn [update_first fmap list_fmap].
  - intros _ H. by apply elem_of_nil in H.
  - destruct (String.eqb_spec (gm_slug row) github_slug) as [Heq|Hne]; [discriminate|].
    destruct (update_first github_slug display_name data table); [discriminate|].
    intros _ [H|H]%elem_of_cons; [done|]. by apply IH.
Qed.

(** The row that lines 61-68 and 71-81 leave for the organization. *)
Definition carries (github_slug display_name : string) (data : org_data)
    (row : GitHubMetrics) : Prop :=
  gm_slug row = github_slug
  /\ gm_name row = display_name
  /\ github_followers row = followers data
  /\ github_repos row = public_repos data
  /\ github_bio row = bio data
  /\ fetched_at row = Some (data_fetched_at data)
  /\ pull_requests row = Some (data_total_prs data)
  /\ gm_merged_prs row = Some (data_merged_prs data)
  /\ gm_merge_frequency row = Some (data_merge_frequency data).

(** The upsert of lines 57-82 on the slugs and rows of the table. *)
Lemma upsert_spec (github_slug display_name : string)
    (data : org_data) (table : list GitHubMetrics) :
  gm_slug <$> upsert github_slug display_name data table
  = (gm_slug <$> table)
    ++ (if decide (github_slug ∈ gm_slug <$> table) then [] else [github_slug])
  /\ filter (fun row => gm_slug row <> github_slug)
       (upsert github_slug display_name data table)
     = filter (fun row => gm_slug row <> github_slug) table
  /\ (exists row, row ∈ upsert github_slug display_name data table
                  /\ carries github_slug display_name data row)
  /\ (NoDup (gm_slug <$> table) ->
      NoDup (gm_slug <$> upsert github_slug display_name data table)).
Proof.
  unfold upsert.
  destruct (update_first github_slug display_name data table) as [t|] eqn:E.
  - apply update_first_some in E as (Hs & _ & Hin & Hf & row & Hr & Hrs & Hu).
    rewrite Hs. rewrite decide_True by done. rewrite app_nil_r.
    split; [done|]. split; [done|]. split; [|done].
    exists (updated_row display_name data row). split; [done|].
    by repeat split.
  - apply update_first_none in E. rewrite decide_False by done.
    rewrite fmap_app. cbn [fmap list_fmap new_entry gm_slug].
    split; [done|]. split; [|split].
    + rewrite filter_app, filter_cons. cbn [gm_slug].
      rewrite decide_False by (intros H; by apply H). by rewrite app_nil_r.
    + exists (new_entry display_name github_slug data table).
      split; [apply elem_of_app; right; apply list_elem_of_here|].
      by repeat split.
    + intros Hnd. apply NoDup_app. split; [done|]. split.
      * intros x Hx ->%list_elem_of_singleton. done.
      * apply NoDup_singleton.
Qed.

(** X19. The upsert of lines 57-82 leaves the rows of other organizations as
    they are, keeps the slugs of the table in place and appends the
    organization's slug only when the table did not hold it; afterwards a
    row of that slug carries the fetched data and the display name.  A
    table with one row per slug stays so. *)
Theorem upsert_one_row_per_slug (github_slug display_name : string)
    (data : org_data) (table : list GitHubMetrics) :
  gm_slug <$> upsert github_slug display_name data table
  = (gm_slug <$> table)
    ++ (if decide (github_slug ∈ gm_slug <$> table) then [] else [github_slug])
  /\ filter (fun row => gm_slug row <> github_slug)
       (upsert github_slug display_name data table)
     = filter (fun row => gm_slug row <> github_slug) table
  /\ (exists row, row ∈ upsert github_slug display_name data table
                  /\ carries github_slug display_name data row)
  /\ (NoDup (gm_slug <$> table) ->
      NoDup (gm_slug <$> upsert github_slug display_name data table)).
Proof. apply upsert_spec. Qed.

(** *** A whole run *)

Definition is_updated (e : event) : bool :=
  match e with
  | Print line => String.prefix "Updated " line
  | _ => false
  end.

(** The [Updated ...] lines of a journal. *)
Definition updates (tr : list event) : list event :=
  filter (fun e => Is_true (is_updated e)) tr.

Definition updated_line (h : HistoricalMetrics) : event :=
  Print ("Updated " +:+ hm_organization_name h).

Lemma updates_app tr1 tr2 : updates (tr1 ++ tr2) = updates tr1 ++ updates tr2.
Proof. apply filter_app. Qed.

Lemma updates_quiet e : is_updated e = false -> updates [e] = [].
Proof.
  intros H. unfold updates. rewrite filter_cons, filter_nil.
  rewrite H. by case_decide.
Qed.

Lemma updates_line h : updates [updated_line h] = [updated_line h].
Proof.
  unfold updates. rewrite filter_cons, filter_nil.
  cbn [updated_line is_updated]. rewrite prefix_append. by case_decide.
Qed.

(** How a stretch of a run may change the state: history rows are appended,
    one per [Updated ...] line and each [Q]; slugs of [github_metrics] are
    appended. *)
Definition extends (Q : HistoricalMetrics -> Prop) (w w' : updater_world) : Prop :=
  exists added delta new_slugs,
    historical_metrics w' = historical_metrics w ++ added
    /\ journal w' = journal w ++ delta
    /\ updates delta = updated_line <$> added
    /\ gm_slug <$> github_metrics w' = (gm_slug <$> github_metrics w) ++ new_slugs
    /\ (NoDup (gm_slug <$> github_metrics w) -> NoDup (gm_slug <$> github_metrics w'))
    /\ Forall (fun h => Q h /\ hm_organization_slug h ∈ gm_slug <$> github_metrics w')
         added.

Lemma extends_quiet Q w w' delta :
  historical_metrics w' = historical_metrics w ->
  github_metrics w' = github_metrics w ->
  journal w' = journal w ++ delta ->
  updates delta = [] ->
  extends Q w w'.
Proof.
  intros Hh Hg Hj Hd. exists [], delta, [].
  rewrite Hh, Hg, !app_nil_r. by repeat split.
Qed.

Lemma extends_trans Q w w1 w2 :
  extends Q w w1 -> extends Q w1 w2 -> extends Q w w2.
Proof.
  intros (a1 & d1 & n1 & Hh1 & Hj1 & Hu1 & Hg1 & Hn1 & Hq1)
         (a2 & d2 & n2 & Hh2 & Hj2 & Hu2 & Hg2 & Hn2 & Hq2).
  exists (a1 ++ a2), (d1 ++ d2), (n1 ++ n2).
  assert (gm_slug <$> github_metrics w2
          = (gm_slug <$> github_metrics w) ++ n1 ++ n2) as Hg.
  { by rewrite Hg2, Hg1, <- app_assoc. }
  split; [by rewrite Hh2, Hh1, <- app_assoc|].
  split; [by rewrite Hj2, Hj1, <- app_assoc|].
  split; [by rewrite updates_app, Hu1, Hu2, fmap_app|].
  split; [done|]. split; [auto|].
  apply Forall_app. split; [|done].
  eapply Forall_impl; [exact Hq1|]. intros h [Hq Hin]. split; [done|].
  rewrite Hg2. apply elem_of_app. by left.
Qed.

Lemma extends_weaken (Q Q' : HistoricalMetrics -> Prop) w w' :
  (forall h, Q h -> Q' h) -> extends Q w w' -> extends Q' w w'.
Proof.
  intros HQ (a & d & n & Hh & Hj & Hu & Hg & Hn & Hq).
  exists a, d, n. repeat split; try done.
  eapply Forall_impl; [exact Hq|]. intros h [H1 H2]. split; [by apply HQ|done].
Qed.

(** The persist step appends at most the organization's history row, and
    then also prints its [Updated ...] line and upserts its metrics row. *)
Lemma retry_loop_extends utcnow github_slug display_name data retries attempts :
  forall w,
    extends (fun h => h = historical_entry utcnow github_slug display_name data)
      w (snd (retry_loop utcnow github_slug display_name data retries attempts w)).
Proof.
  induction attempts as [|attempt attempts IH]; intros w.
  - apply (extends_quiet _ _ _ []); try done. by rewrite app_nil_r.
  - rewrite retry_loop_cons.
    destruct (fault_exn (default NoFault (head (faults w)))) as [[| |]|].
    + eapply extends_trans; [|apply IH].
      apply (extends_quiet _ _ _
               [Sleep 5;
                if (attempt <? retries - 1)%nat
                then Print "Retrying..."
                else Print ("ERROR: Failed to update "
                            +:+ display_name +:+ " after retries.")]); try done.
      * cbn [journal]. by rewrite <- app_assoc.
      * change [Sleep 5; ?x] with ([Sleep 5] ++ [x]).
        rewrite updates_app, (updates_quiet (Sleep 5)) by done.
        apply updates_quiet. destruct (attempt <? retries - 1)%nat; [done|].
        cbn [is_updated]. by rewrite PyStrFacts.append_cons.
    + apply (extends_quiet _ _ _ []); try done. cbn. by rewrite app_nil_r.
    + apply (extends_quiet _ _ _ []); try done. cbn. by rewrite app_nil_r.
    + destruct (upsert_spec github_slug display_name data
                  (github_metrics w)) as (Hs & _ & (row & Hrow & Hc) & Hnd).
      exists [historical_entry utcnow github_slug display_name data],
             [Print ("Updated " +:+ display_name)],
             (if decide (github_slug ∈ gm_slug <$> github_metrics w)
              then [] else [github_slug]).
      cbn [snd historical_metrics journal github_metrics].
      split; [done|]. split; [done|]. split.
      { apply (updates_line (historical_entry utcnow github_slug display_name data)). }
      split; [exact Hs|]. split; [exact Hnd|].
      constructor; [|constructor]. split; [done|].
      cbn [historical_entry hm_organization_slug].
      apply list_elem_of_fmap. exists row. split; [|done]. symmetry. apply Hc.
Qed.

Section Run.
Variable urlparse : string -> GithubUrl.parsed_url.
Variable future_result : string -> fetch_outcome.
Variable utcnow : datetime.

(** The history row of organization [o]: there is one only if its guarded
    fetch returned data, and it holds that data. *)
Definition snapshot_of (o : Helper.org) (h : HistoricalMetrics) : Prop :=
  exists data,
    future_result (Helper.github_slug o) = Returned (Some data)
    /\ h = historical_entry utcnow (Helper.github_slug o) (Helper.display_name o) data.

Lemma process_org_extends org w :
  extends (snapshot_of org) w (snd (process_org future_result utcnow org w)).
Proof.
  rewrite process_org_unfold. cbn zeta.
  set (w1 := {| github_metrics := github_metrics w;
                historical_metrics := historical_metrics w;
                faults := faults w;
                journal := journal w ++ [processing_line org] |}).
  assert (forall Q, extends Q w w1) as Hw1.
  { intros Q. by apply (extends_quiet Q w w1 [processing_line org]). }
  destruct (future_result (Helper.github_slug org)) as [|e|[data|]] eqn:E;
    try apply Hw1.
  eapply extends_trans; [apply Hw1|].
  eapply extends_weaken; [|apply retry_loop_extends].
  intros h ->. by exists data.
Qed.

Lemma for_each_org_extends orgs : forall w,
  extends (fun h => exists o, o ∈ orgs /\ snapshot_of o h)
    w (snd (for_each_org future_result utcnow orgs w)).
Proof.
  induction orgs as [|org orgs IH]; intros w.
  - apply (extends_quiet _ _ _ []); try done. cbn. by rewrite app_nil_r.
  - cbn [for_each_org]. unfold bind.
    pose proof (process_org_extends org w) as Hp.
    pose proof (process_org_returns future_result utcnow org w) as Hr.
    cbn zeta in Hr. destruct (process_org future_result utcnow org w) as [res w1].
    cbn [fst snd] in Hp, Hr. destruct Hr as [-> _].
    eapply extends_trans.
    + eapply extends_weaken; [|exact Hp]. intros h Hh.
      exists org. split; [apply list_elem_of_here|done].
    + eapply extends_weaken; [|apply IH]. intros h (o & Ho & Hh).
      exists o. split; [by apply list_elem_of_further|done].
Qed.

(** X20. Whatever the guarded fetches and the storage faults, a run of
    [update_github_data] only appends to [historical_metrics], one row per
    [Updated ...] line it prints and in the same order; each appended row
    is the snapshot of an organization of the list whose fetch returned
    data, and its slug has a row in [github_metrics] afterwards.  The run
    removes no slug from [github_metrics], and a table with one row per
    slug stays so. *)
Theorem update_run_tables (start_from_id : option Z)
    (gsoc_organizations : list Helper.gsoc_row) (w : updater_world) :
  exists added new_slugs,
    let w' := snd (update_github_data urlparse future_result utcnow start_from_id
                     gsoc_organizations w) in
    historical_metrics w' = historical_metrics w ++ added
    /\ updates (journal w') = updates (journal w) ++ (updated_line <$> added)
    /\ Forall (fun h =>
                 (exists o, o ∈ selected urlparse start_from_id gsoc_organizations
                            /\ snapshot_of o h)
                 /\ hm_organization_slug h ∈ gm_slug <$> github_metrics w') added
    /\ gm_slug <$> github_metrics w' = (gm_slug <$> github_metrics w) ++ new_slugs
    /\ (NoDup (gm_slug <$> github_metrics w) -> NoDup (gm_slug <$> github_metrics w')).
Proof.
  unfold update_github_data. fold (selected urlparse start_from_id gsoc_organizations).
  unfold bind.
  pose proof (for_each_org_extends (selected urlparse start_from_id gsoc_organizations) w)
    as (added & delta & new_slugs & Hh & Hj & Hu & Hg & Hn & Hq).
  pose proof (for_each_org_returns future_result utcnow
                (selected urlparse start_from_id gsoc_organizations) w) as Hr.
  cbn zeta in Hr. destruct (for_each_org _ _ _ w) as [res w1].
  cbn [fst snd] in *. destruct Hr as [-> _]. rewrite emit_run.
  exists added, new_slugs. cbn zeta. cbn [snd historical_metrics journal github_metrics].
  split; [done|]. split; [|done].
  rewrite Hj, !updates_app, Hu, (updates_quiet (Print "All organizations processed."))
    by done.
  by rewrite app_nil_r.
Qed.

End Run.
End UpdaterMore.

(** ** [fetch_github_org_data] *)

Module GithubApiMore.
Import PyStr Http Py GithubService GithubApi FetcherProps MetricsProps WalkMore.
Import UpdateGithubMetrics.

Lemma calculate_metrics_sound repos s r :
  calculate_metrics repos s = Some r ->
  0 <= merged_prs (returned r) <= total_prs (returned r)
  /\ (0 <= merge_frequency (returned r))%Q
  /\ (merge_frequency (returned r) <= 1)%Q.
Proof.
  unfold calculate_metrics.
  destruct (metrics_loop repos s 0 0 []) as [l|] eqn:El; [|discriminate].
  apply metrics_loop_bounds in El; [|lia].
  destruct (returned l) as [total merged]. cbn [fst snd] in El.
  intros [= <-]. cbn [returned total_prs merged_prs merge_frequency].
  split; [done|]. apply round3_bounds.
  - destruct (Z.ltb_spec 0 total); [|done]. unfold Qle. cbn [Qnum Qden]. lia.
  - destruct (Z.ltb_spec 0 total); [|done].
    unfold Qle. cbn [Qnum Qden]. rewrite Z2Pos.id by lia. lia.
Qed.

Lemma calculate_metrics_returns repos s :
  (20 * length repos <= length s)%nat -> is_Some (calculate_metrics repos s).
Proof.
  intros Hlen. unfold calculate_metrics.
  destruct (metrics_loop_returns repos s 0 0 [] Hlen) as [l ->].
  by destruct (returned l).
Qed.

(** The request for the organization object succeeded. *)
Definition profile_ok (o : profile_outcome) : bool :=
  match o with
  | ProfileResponse status_code _ => status_code =? 200
  | _ => false
  end.

(** X21. With one response for the organization object, ten for the
    repository listing and a hundred for pull requests, whatever they are,
    [fetch_github_org_data] returns.  It returns [None] exactly when the
    first request does not get a 200, and then asks nothing else.
    Otherwise the dictionary has the lower-cased name as slug, the clock
    reading as [fetched_at], [0 <= merged_prs <= total_prs] and a merge
    frequency between 0 and 1. *)
Theorem fetch_github_org_data_returns (utcnow : datetime) (org_name : string)
    (w : api_world) (o : profile_outcome) (rest : list profile_outcome) :
  profile_net w = o :: rest ->
  (10 <= length (listing_net w))%nat ->
  (100 <= length (pulls_net w))%nat ->
  exists d w',
    fetch_github_org_data utcnow org_name w = Some (d, w')
    /\ profile_net w' = rest
    /\ if profile_ok o then
         exists dict,
           d = Some dict
           /\ GithubApi.slug dict = lower org_name
           /\ lower (GithubApi.slug dict) = GithubApi.slug dict
           /\ data_fetched_at (entries dict) = utcnow
           /\ 0 <= data_merged_prs (entries dict) <= data_total_prs (entries dict)
           /\ (0 <= data_merge_frequency (entries dict))%Q
           /\ (data_merge_frequency (entries dict) <= 1)%Q
       else
         d = None
         /\ listing_net w' = listing_net w
         /\ pulls_net w' = pulls_net w
         /\ api_trace w' = api_trace w ++ [Get (org_url org_name)].
Proof.
  intros Hnet Hlist Hpulls. unfold fetch_github_org_data. rewrite Hnet.
  destruct o as [st data| |]; cbn [profile_ok]; try (eexists _, _; by repeat split).
  destruct (st =? 200); cbn [negb]; [|eexists _, _; by repeat split].
  destruct (walk_returns 10 top_five (listing_net w) (Some (repos_url org_name))
              0 [] []) as [rr Hrr]; [lia|].
  unfold fetch_org_repos. fold top_five. rewrite Hrr.
  assert (length (returned rr) <= 5)%nat as H5.
  { apply (walk_exit 10 top_five (fun l => (length l <= 5)%nat)) in Hrr;
      [done|cbn; lia|]. intros l. apply (top_five_spec l). }
  destruct (calculate_metrics_returns (returned rr) (pulls_net w)) as [mr Hmr]; [lia|].
  rewrite Hmr. apply calculate_metrics_sound in Hmr as (Hm & H0 & H1).
  eexists _, _. split; [done|]. split; [done|].
  eexists. split; [done|]. cbn. split; [done|].
  split; [apply PyStrFacts.lower_idem|]. split; [done|]. split; [exact Hm|].
  split; [exact H0|exact H1].
Qed.

Definition sample_profile : profile :=
  {| profile_followers := Some 10; profile_public_repos := Some 4;
     profile_description := Some ""; profile_bio := Some "tools" |}.

Definition sample_api_world : api_world :=
  {| profile_net := [ProfileResponse 200 sample_profile];
     listing_net := replicate 10 (Response 404 [] None);
     pulls_net := replicate 100 (Response 404 [] None);
     api_trace := [] |}.

Lemma fetch_github_org_data_returns_witness :
  exists d w',
    fetch_github_org_data sample_now "Acme" sample_api_world = Some (d, w')
    /\ exists dict, d = Some dict /\ GithubApi.slug dict = "acme".
Proof.
  destruct (fetch_github_org_data_returns sample_now "Acme" sample_api_world
              (ProfileResponse 200 sample_profile) [] eq_refl
              ltac:(cbn; lia) ltac:(cbn; lia))
    as (d & w' & Hd & _ & dict & Hdict & Hslug & _).
  exists d, w'. split; [exact Hd|]. exists dict. split; [exact Hdict|exact Hslug].
Defined.

End GithubApiMore.

(** ** The loyalty scores *)

Module LoyaltyProps.
Import Loyalty PySortFacts.

(** The years [y], [y + 1], ..., [y + k - 1] are all in [l]. *)
Definition run_in (l : list Z) (y k : Z) : Prop :=
  forall j, 0 <= j < k -> y + j ∈ l.

Lemma run_in_weaken l l' y k : l ⊆ l' -> run_in l y k -> run_in l' y k.
Proof. intros Hl Hr j Hj. apply Hl, Hr, Hj. Qed.

(** The loop finds a run as long as what it returns. *)
Lemma streak_loop_run years : forall prev seen max_streak current,
  prev ∈ seen ->
  1 <= current <= max_streak ->
  run_in seen (prev - current + 1) current ->
  (exists y, run_in seen y max_streak) ->
  exists y, run_in (seen ++ years) y (streak_loop prev years max_streak current).
Proof.
  induction years as [|y' years IH]; intros prev seen mx cur Hprev Hcur Hrun Hmax.
  - cbn. by rewrite app_nil_r.
  - cbn [streak_loop].
    set (cur' := if y' =? prev + 1 then cur + 1 else 1).
    assert (seen ⊆ seen ++ [y']) as Hsub by set_solver.
    assert (1 <= cur') as Hcur' by (unfold cur'; destruct (y' =? prev + 1); lia).
    assert (run_in (seen ++ [y']) (y' - cur' + 1) cur') as Hrun'.
    { unfold cur'. destruct (Z.eqb_spec y' (prev + 1)) as [->|Hne]; intros j Hj.
      - destruct (decide (j = cur)) as [->|Hjc].
        + replace (prev + 1 - (cur + 1) + 1 + cur) with (prev + 1) by lia. set_solver.
        + apply Hsub. replace (prev + 1 - (cur + 1) + 1 + j) with (prev - cur + 1 + j)
            by lia. apply Hrun. lia.
      - replace (y' - 1 + 1 + j) with y' by lia. set_solver. }
    replace (seen ++ y' :: years) with ((seen ++ [y']) ++ years)
      by (by rewrite <- app_assoc).
    apply IH; [set_solver|lia|done|].
    destruct (Z.max_spec mx cur') as [[_ ->]|[_ ->]].
    + by exists (y' - cur' + 1).
    + destruct Hmax as [y Hy]. exists y. by eapply run_in_weaken.
Qed.

(** On years in strictly ascending order no run is longer than what the
    loop returns. *)
Lemma streak_loop_longest years : forall prev seen max_streak current,
  StronglySorted Z.lt (prev :: years) ->
  Forall (fun x => x <= prev) seen ->
  1 <= current <= max_streak ->
  (forall y k, 1 <= k -> run_in seen y k -> k <= max_streak) ->
  (forall y, y <= prev -> run_in seen y (prev - y + 1) -> prev - y + 1 <= current) ->
  forall y k, 1 <= k -> run_in (seen ++ years) y k ->
              k <= streak_loop prev years max_streak current.
Proof.
  induction years as [|y' years IH]; intros prev seen mx cur Hsort Hseen Hcur H1 H2.
  - cbn. rewrite app_nil_r. apply H1.
  - cbn [streak_loop].
    set (cur' := if y' =? prev + 1 then cur + 1 else 1).
    apply StronglySorted_inv in Hsort as [Hsort Hlt].
    apply Forall_cons in Hlt as [Hlt _].
    assert (forall x, x ∈ seen ++ [y'] -> x <> y' -> x ∈ seen) as Hold.
    { intros x [Hx|Hx%list_elem_of_singleton]%elem_of_app Hne; done. }
    assert (forall x, x ∈ seen -> x <= prev) as Hle by (by apply Forall_forall).
    assert (1 <= cur') as Hcur' by (unfold cur'; destruct (y' =? prev + 1); lia).
    assert (forall y, y <= y' -> run_in (seen ++ [y']) y (y' - y + 1) ->
                      y' - y + 1 <= cur') as H2'.
    { intros y Hy Hrun. destruct (decide (y = y')) as [->|Hne]; [lia|].
      unfold cur'. destruct (Z.eqb_spec y' (prev + 1)) as [->|Hgap].
      - assert (prev - y + 1 <= cur); [|lia]. apply H2; [lia|].
        intros j Hj. apply Hold; [apply Hrun; lia|lia].
      - assert (y + (y' - 1 - y) ∈ seen) as Hin.
        { apply Hold; [apply Hrun; lia|lia]. }
        apply Hle in Hin. lia. }
    replace (seen ++ y' :: years) with ((seen ++ [y']) ++ years)
      by (by rewrite <- app_assoc).
    apply IH; [done| |lia| |done].
    + apply Forall_app. split; [|by repeat constructor].
      eapply Forall_impl; [exact Hseen|]. intros x Hx. cbn in Hx. lia.
    + intros y k Hk Hrun.
      assert (y + (k - 1) <= y') as Htop.
      { specialize (Hrun (k - 1) ltac:(lia)).
        apply elem_of_app in Hrun as [Hin%Hle|Hin%list_elem_of_singleton]; lia. }
      destruct (decide (y + (k - 1) = y')) as [Hend|Hbefore].
      * assert (y' - y + 1 <= cur'); [|lia]. apply H2'; [lia|].
        by replace (y' - y + 1) with k by lia.
      * assert (k <= mx); [|lia]. apply (H1 y k Hk).
        intros j Hj. apply Hold; [by apply Hrun|lia].
Qed.

Lemma streak_loop_bounds years : forall prev max_streak current n,
  1 <= current <= max_streak -> max_streak <= n ->
  1 <= streak_loop prev years max_streak current <= n + Z.of_nat (length years).
Proof.
  induction years as [|y' years IH]; intros prev mx cur n Hcur Hn; cbn [streak_loop length].
  - lia.
  - set (cur' := if y' =? prev + 1 then cur + 1 else 1).
    assert (1 <= cur' <= cur + 1) by (unfold cur'; destruct (y' =? prev + 1); lia).
    specialize (IH y' (Z.max mx cur') cur' (n + 1) ltac:(lia) ltac:(lia)). lia.
Qed.

(** The streak of lines 24-31 on years in strictly ascending order. *)
Lemma loyalty_streak_spec (years : list Z) :
  StronglySorted Z.lt years -> years <> [] ->
  (exists y, run_in years y (loyalty_streak years))
  /\ (forall y k, 1 <= k -> run_in years y k -> k <= loyalty_streak years)
  /\ 1 <= loyalty_streak years <= Z.of_nat (length years).
Proof.
  intros Hsort Hne. destruct years as [|y0 years]; [done|]. cbn [loyalty_streak].
  split; [|split].
  - apply (streak_loop_run years y0 [y0] 1 1); [set_solver|lia| |].
    + intros j Hj. replace (y0 - 1 + 1 + j) with y0 by lia. set_solver.
    + exists y0. intros j Hj. replace (y0 + j) with y0 by lia. set_solver.
  - apply (streak_loop_longest years y0 [y0] 1 1); [done| |lia| |].
    + by repeat constructor.
    + intros y k Hk Hrun. destruct (decide (k <= 1)) as [|Hbig]; [done|].
      pose proof (Hrun 0 ltac:(lia)) as Ha%list_elem_of_singleton.
      pose proof (Hrun 1 ltac:(lia)) as Hb%list_elem_of_singleton. lia.
    + intros y Hy Hrun.
      pose proof (Hrun 0 ltac:(lia)) as Ha%list_elem_of_singleton. lia.
  - pose proof (streak_loop_bounds years y0 1 1 1 ltac:(lia) ltac:(lia)).
    cbn [length]. lia.
Qed.

(** X22. On years in strictly ascending order, as [sorted(... unique())]
    gives them, the streak computed by lines 25-31 is the length of the
    longest run of consecutive years: some run of that length is among the
    years and no longer one is; it lies between 1 and the number of
    years. *)
Theorem loyalty_streak_longest_run (years : list Z) :
  StronglySorted Z.lt years -> years <> [] ->
  (exists y, run_in years y (loyalty_streak years))
  /\ (forall y k, 1 <= k -> run_in years y k -> k <= loyalty_streak years)
  /\ 1 <= loyalty_streak years <= Z.of_nat (length years).
Proof. apply loyalty_streak_spec. Qed.

Lemma loyalty_streak_longest_run_witness :
  loyalty_streak [2016; 2018; 2019; 2020; 2023] = 3
  /\ exists y, run_in [2016; 2018; 2019; 2020; 2023] y 3.
Proof.
  split; [reflexivity|].
  refine (proj1 (loyalty_streak_longest_run [2016; 2018; 2019; 2020; 2023] _ _)).
  - repeat (constructor; [|repeat constructor; lia]). constructor.
  - discriminate.
Defined.

(** *** [compute_loyalty] *)

Lemma insert_name_elem n l x : x ∈ insert_name n l <-> x = n \/ x ∈ l.
Proof.
  induction l as [|m l IH]; cbn [insert_name]; [set_solver|].
  destruct (String.eqb_spec n m) as [->|Hne]; [set_solver|].
  destruct (String.leb n m); [set_solver|].
  rewrite !elem_of_cons, IH. tauto.
Qed.

Lemma group_keys_elem df n : n ∈ group_keys df <-> exists y, (n, y) ∈ df.
Proof.
  unfold group_keys. induction df as [|[m y] df IH]; cbn [fmap list_fmap foldr].
  - split; [by intros H%elem_of_nil|]. intros [y H]. by apply elem_of_nil in H.
  - rewrite insert_name_elem, IH. cbn [fst]. split.
    + intros [->|[y' Hy']]; [exists y; apply list_elem_of_here|].
      exists y'. by apply list_elem_of_further.
    + intros [y' [[= -> ->]|Hy']%elem_of_cons]; [by left|right; by exists y'].
Qed.

Lemma strictly_ascending (l : list Z) :
  NoDup l -> StronglySorted (ascending (fun y => y)) l -> StronglySorted Z.lt l.
Proof.
  induction l as [|x l IH]; intros Hnd Hs; [constructor|].
  apply NoDup_cons in Hnd as [Hx Hnd]. apply StronglySorted_inv in Hs as [Hs Hle].
  constructor; [by apply IH|].
  rewrite Forall_forall in *. intros y Hy. specialize (Hle y Hy).
  unfold ascending in Hle. assert (x <> y) by (intros ->; done). lia.
Qed.

Lemma group_years_spec df org :
  StronglySorted Z.lt (group_years df org)
  /\ NoDup (group_years df org)
  /\ forall y, y ∈ group_years df org <-> (org, y) ∈ df.
Proof.
  unfold group_years.
  set (l := remove_dups (snd <$> filter (fun e => fst e = org) df)).
  assert (NoDup l) as Hl by apply NoDup_remove_dups.
  pose proof (sort_asc_perm (fun y : Z => y) l) as Hp.
  assert (NoDup (PySort.sort_asc (fun y => y) l)) as Hnd by (by rewrite Hp).
  split; [apply strictly_ascending; [done|apply sort_asc_sorted]|].
  split; [done|]. intros y. rewrite Hp. unfold l.
  rewrite elem_of_remove_dups, list_elem_of_fmap. split.
  - intros ([n y'] & -> & [Hn He]%list_elem_of_filter). cbn in Hn. by subst.
  - intros H. exists (org, y). split; [done|]. by apply list_elem_of_filter.
Qed.

(** X23. [compute_loyalty] has a row for every organization name of the
    frame and for no other name.  In a row, [years_active] is the number of
    distinct years the name occurs with, and [loyalty_streak] is the length
    of its longest run of consecutive years: the name occurs with every
    year of some run of that length and of no longer one. *)
Theorem compute_loyalty_rows (df : list entry) :
  (forall n, n ∈ organization_name <$> compute_loyalty df <-> exists y, (n, y) ∈ df)
  /\ Forall (fun s =>
       (exists years,
           NoDup years
           /\ (forall y, y ∈ years <-> (organization_name s, y) ∈ df)
           /\ years_active s = Z.of_nat (length years))
       /\ (exists y, forall j, 0 <= j < streak s -> (organization_name s, y + j) ∈ df)
       /\ (forall y k, 1 <= k ->
             (forall j, 0 <= j < k -> (organization_name s, y + j) ∈ df) ->
             k <= streak s)
       /\ 1 <= streak s <= years_active s)
     (compute_loyalty df).
Proof.
  split.
  - intros n. unfold compute_loyalty. rewrite <- list_fmap_compose.
    cbn. rewrite list_fmap_id. apply group_keys_elem.
  - unfold compute_loyalty. apply Forall_fmap, Forall_forall.
    intros org [y0 Horg]%group_keys_elem. cbn.
    destruct (group_years_spec df org) as (Hsort & Hnd & Hin).
    assert (group_years df org <> []) as Hne.
    { intros E. apply Hin in Horg. rewrite E in Horg. by apply elem_of_nil in Horg. }
    destruct (loyalty_streak_spec (group_years df org) Hsort Hne)
      as ([y Hrun] & Hlong & Hb).
    split; [by exists (group_years df org)|]. split; [|split; [|done]].
    + exists y. intros j Hj. by apply Hin, Hrun.
    + intros y' k Hk Hrun'. apply (Hlong y' k Hk). intros j Hj. by apply Hin, Hrun'.
Qed.

End LoyaltyProps.

(** ** The file name of a graph *)

Module GraphsProps.
Import PyStr Graphs.

(** A letter, a digit, a hyphen or an underscore. *)
Definition word_char (c : ascii) : bool :=
  is_alnum c || (Ascii.eqb c "-" || Ascii.eqb c "_").

Fixpoint all_chars (P : ascii -> bool) (s : string) : bool :=
  match s with
  | EmptyString => true
  | String c s' => P c && all_chars P s'
  end.

Lemma kept_word c : kept c = true -> Ascii.eqb c " " = false -> word_char c = true.
Proof.
  unfold kept, word_char. intros H E. rewrite E in H. by rewrite orb_false_l in H.
Qed.

Lemma word_kept c : word_char c = true -> kept c = true.
Proof. PyStrFacts.by_cases_on_ascii c. Qed.

Lemma word_not_space c : word_char c = true -> is_space c = false.
Proof. PyStrFacts.by_cases_on_ascii c. Qed.

Lemma word_not_blank c : word_char c = true -> Ascii.eqb c " " = false.
Proof. PyStrFacts.by_cases_on_ascii c. Qed.

Lemma join_kept_all s : all_chars kept (join_kept s) = true.
Proof.
  induction s as [|c s IH]; [done|]. cbn [join_kept].
  destruct (kept c) eqn:E; [|done]. cbn [all_chars]. by rewrite E, IH.
Qed.

Lemma lstrip_ws_all P s : all_chars P s = true -> all_chars P (lstrip_ws s) = true.
Proof.
  induction s as [|c s IH]; [done|]. cbn [lstrip_ws all_chars].
  intros [Hc Hs]%andb_true_iff. destruct (is_space c); [by apply IH|].
  cbn [all_chars]. by rewrite Hc, Hs.
Qed.

Lemma rstrip_ws_all P s : all_chars P s = true -> all_chars P (rstrip_ws s) = true.
Proof.
  induction s as [|c s IH]; [done|]. cbn [rstrip_ws all_chars].
  intros [Hc Hs]%andb_true_iff. specialize (IH Hs).
  destruct (rstrip_ws s) as [|c' r].
  - destruct (is_space c); [done|]. cbn [all_chars]. by rewrite Hc.
  - cbn [all_chars] in *. by rewrite Hc, IH.
Qed.

Lemma replace_blank_all s :
  all_chars kept s = true -> all_chars word_char (replace " " "_" s) = true.
Proof.
  induction s as [|c s IH]; [done|]. cbn [replace all_chars].
  intros [Hc Hs]%andb_true_iff. specialize (IH Hs).
  destruct (Ascii.eqb c " ") eqn:E.
  - rewrite PyStrFacts.append_cons, PyStrFacts.append_nil_l. cbn [all_chars].
    by rewrite IH.
  - cbn [all_chars]. by rewrite (kept_word c Hc E), IH.
Qed.

(** A name made of letters, digits, hyphens and underscores is its own safe
    name. *)
Lemma safe_name_fixed s : all_chars word_char s = true -> safe_name s = s.
Proof.
  intros Hs. unfold safe_name.
  assert (join_kept s = s) as ->.
  { induction s as [|c s IH]; [done|]. cbn [all_chars join_kept] in *.
    apply andb_true_iff in Hs as [Hc Hs]. by rewrite (word_kept c Hc), IH. }
  assert (strip_ws s = s) as ->.
  { unfold strip_ws. assert (lstrip_ws s = s) as ->.
    { destruct s as [|c s]; [done|]. cbn [all_chars lstrip_ws] in *.
      apply andb_true_iff in Hs as [Hc Hs]. by rewrite (word_not_space c Hc). }
    induction s as [|c s IH]; [done|]. cbn [all_chars rstrip_ws] in *.
    apply andb_true_iff in Hs as [Hc Hs]. rewrite (IH Hs).
    destruct s; [by rewrite (word_not_space c Hc)|done]. }
  induction s as [|c s IH]; [done|]. cbn [all_chars replace] in *.
  apply andb_true_iff in Hs as [Hc Hs]. by rewrite (word_not_blank c Hc), IH.
Qed.

Lemma join_kept_length s : (String.length (join_kept s) <= String.length s)%nat.
Proof.
  induction s as [|c s IH]; [done|]. cbn [join_kept].
  destruct (kept c); cbn [String.length]; lia.
Qed.

Lemma lstrip_ws_length s : (String.length (lstrip_ws s) <= String.length s)%nat.
Proof.
  induction s as [|c s IH]; [done|]. cbn [lstrip_ws].
  destruct (is_space c); cbn [String.length]; lia.
Qed.

Lemma rstrip_ws_length s : (String.length (rstrip_ws s) <= String.length s)%nat.
Proof.
  induction s as [|c s IH]; [done|]. cbn [rstrip_ws].
  destruct (rstrip_ws s) as [|c' r].
  - destruct (is_space c); cbn [String.length] in *; lia.
  - cbn [String.length] in *. lia.
Qed.

Lemma replace_blank_length s :
  String.length (replace " " "_" s) = String.length s.
Proof.
  induction s as [|c s IH]; [done|]. cbn [replace].
  destruct (Ascii.eqb c " ");
    rewrite ?PyStrFacts.append_cons, ?PyStrFacts.append_nil_l;
    cbn [String.length]; by rewrite IH.
Qed.


End GraphsProps.
